(** * WiFi-RemoteID mesh-mapper: detection store, registry cache and exports

    A shallow embedding of [mesh-mapper.py]: the detection merge
    ([update_detection]), the FAA registry cache ([write_to_faa_cache],
    [api_get_faa]), the path endpoint ([api_paths]) and the KML flight
    segmentation ([generate_kml], [generate_cumulative_kml]); then the
    registry query ([api_query_faa]), the history endpoint
    ([api_detections_history]), reactivation, the aliases, the handling
    of a serial line ([serial_reader]) and the startup of the module.

    Modelling conventions.
    - A detection is a Python dict read through [dict.get]; it is a record
      of optional fields, [None] standing for a missing key.  A field that
      is present holds a value of its type (a number, a string): JSON
      nulls and fields of another type are outside the model.
    - JSON numbers are exact rationals; binary rounding is outside the
      model.  Equality of numbers is [Qeq_bool], as Python's [==].
    - Python dicts that are iterated ([tracked_pairs], [FAA_CACHE]) are
      association lists in insertion order without duplicate keys.
    - Files and the network are components of the state: file writes
      succeed, an outgoing webhook POST succeeds or fails as the
      environment says.
    - A Python exception that leaves a function is the outcome [Raised];
      inside the KML generators and the history endpoint it is the result
      [None].
    - [datetime.fromtimestamp] raises on a timestamp outside the years the
      platform converts.  [generate_kml] applies it to the timestamp of the
      first point of a flight, which is a reading of the server clock
      (only the GPS branch of [update_detection] stores drone positions):
      there the conversion is taken to succeed.  [api_detections_history]
      applies it to timestamps as a client sent them: there the conversion
      is a parameter that may raise. *)

From Stdlib Require Import List String Ascii Bool QArith Lia.
Import ListNotations.

Set Implicit Arguments.

(** ** Python values *)

Unset Elimination Schemes.
Inductive json : Type :=
| JNull
| JBool (b : bool)
| JNum (q : Q)
| JStr (s : string)
| JArr (l : list json)
| JObj (l : list (string * json)).
Set Elimination Schemes.

(** [x != 0] on numbers. *)
Definition py_ne0 (x : Q) : bool := negb (Qeq_bool x 0).

(** Truth value of the result of [d.get(key)] for a numeric field. *)
Definition num_truthy (o : option Q) : bool :=
  match o with
  | Some x => py_ne0 x
  | None => false
  end.

(** Truth value of the result of [d.get(key)] for a string field. *)
Definition str_truthy (o : option string) : bool :=
  match o with
  | Some s => negb (s =? "")%string
  | None => false
  end.

(** [d.get(key, default)]. *)
Definition get_or {A : Type} (o : option A) (default : A) : A :=
  match o with
  | Some x => x
  | None => default
  end.

Definition Qlt_bool (x y : Q) : bool := negb (Qle_bool y x).

(** ** Insertion-ordered dictionaries *)

Section ODict.
Variables K V : Type.
Variable keqb : K -> K -> bool.

Definition odict := list (K * V).

(** [d.get(k)] *)
Fixpoint od_get (k : K) (d : odict) : option V :=
  match d with
  | [] => None
  | (k', v) :: t => if keqb k k' then Some v else od_get k t
  end.

(** [d[k] = v]: an existing key keeps its place, a new one goes last. *)
Fixpoint od_set (k : K) (v : V) (d : odict) : odict :=
  match d with
  | [] => [(k, v)]
  | (k', v') :: t =>
      if keqb k k' then (k', v) :: t else (k', v') :: od_set k v t
  end.

(** First value, in iteration order, whose item satisfies [p]. *)
Fixpoint od_first (p : K -> V -> bool) (d : odict) : option V :=
  match d with
  | [] => None
  | (k, v) :: t => if p k v then Some v else od_first p t
  end.
End ODict.

Definition key_eqb (a b : string * string) : bool :=
  ((fst a =? fst b)%string && (snd a =? snd b)%string)%bool.

(** ** Detections *)

Record detection : Type := mkDetection {
  mac : option string;
  rssi : option Q;
  drone_lat : option Q;
  drone_long : option Q;
  drone_altitude : option Q;
  pilot_lat : option Q;
  pilot_long : option Q;
  basic_id : option string;
  faa_data : option json;
  last_update : option Q;
  status : option string
}.

Definition set_basic_id (v : string) (d : detection) : detection :=
  mkDetection (mac d) (rssi d) (drone_lat d) (drone_long d)
    (drone_altitude d) (pilot_lat d) (pilot_long d) (Some v) (faa_data d)
    (last_update d) (status d).

Definition set_faa_data (v : json) (d : detection) : detection :=
  mkDetection (mac d) (rssi d) (drone_lat d) (drone_long d)
    (drone_altitude d) (pilot_lat d) (pilot_long d) (basic_id d) (Some v)
    (last_update d) (status d).

(** Lines 451-456 of [update_detection]: the position fields are written
    back with their defaults and [last_update] becomes [time.time()]. *)
Definition stamp_position (now : Q) (d : detection) : detection :=
  mkDetection (mac d) (rssi d)
    (Some (get_or (drone_lat d) 0))
    (Some (get_or (drone_long d) 0))
    (Some (get_or (drone_altitude d) 0))
    (Some (get_or (pilot_lat d) 0))
    (Some (get_or (pilot_long d) 0))
    (basic_id d) (faa_data d) (Some now) (status d).

(** One row of the detections CSV (session or cumulative file); an empty
    cell is [None]. *)
Record csv_row : Type := mkRow {
  c_timestamp : Q;
  c_alias : string;
  c_mac : string;
  c_rssi : option Q;
  c_drone_lat : option Q;
  c_drone_long : option Q;
  c_drone_altitude : option Q;
  c_pilot_lat : option Q;
  c_pilot_long : option Q;
  c_basic_id : string;
  c_faa_data : json
}.

(** ** KML flight export

    The two generators run the same loop, one over the in-memory history
    and one over the rows of the cumulative CSV.  [sample] is what that
    loop reads of one record; colours and XML text are left out, a
    [folder] keeps the data a [<Folder>] is rendered from. *)

Record sample : Type := mkSample {
  s_mac : option string;
  s_lat : option Q;
  s_lon : option Q;
  s_ts : option Q;
  s_plat : option Q;
  s_plon : option Q
}.

(** An element [(lon, lat, ts)] of [current_flight]. *)
Definition point : Type := (Q * Q * option Q)%type.

Definition pt_ts (p : point) : option Q := snd p.

Record folder : Type := mkFolder {
  f_mac : string;
  f_alias : string;
  f_idx : nat;
  f_start : Q;
  f_points : list point;
  f_pilot : list (Q * Q)
}.

(** [det.get(key) == m] for a string field, as in [det.get('mac') == mac]. *)
Definition get_is (m : string) (o : option string) : bool :=
  match o with
  | Some s => (s =? m)%string
  | None => false
  end.

(** The pilot list comprehension of a flush.  Comparing a missing
    [last_update] with a number raises [TypeError]: the result is [None]. *)
Fixpoint pilot_pts (m : string) (start_ts : Q) (end_ts : option Q)
    (hist : list sample) : option (list (Q * Q)) :=
  match hist with
  | [] => Some []
  | d :: t =>
      let rest := pilot_pts m start_ts end_ts t in
      if (get_is m (s_mac d) && num_truthy (s_plat d)
          && num_truthy (s_plon d))%bool
      then
        match s_ts d with
        | None => None
        | Some lu =>
            if Qle_bool start_ts lu then
              match end_ts with
              | None => None
              | Some e =>
                  if Qle_bool lu e then
                    option_map
                      (cons (get_or (s_plon d) 0, get_or (s_plat d) 0)) rest
                  else rest
              end
            else rest
        end
      else rest
  end.

(** Rendering of one non-empty [current_flight], first element [p0]. *)
Definition flush (hist : list sample) (m alias : string) (flight_idx : nat)
    (p0 : point) (r : list point) : option folder :=
  match pt_ts p0 with
  | None => None
  | Some start_ts =>
      match pilot_pts m start_ts (pt_ts (last r p0)) hist with
      | None => None
      | Some pp => Some (mkFolder m alias flight_idx start_ts (p0 :: r) pp)
      end
  end.

(** [last_ts and (ts - last_ts) > staleThreshold]; [ts_truthy] is the
    truth value of a timestamp that is present (a float in the session
    export, a [datetime] in the cumulative one). *)
Definition gap_break (ts_truthy : Q -> bool) (thr : Q)
    (last_ts ts : option Q) : option bool :=
  match last_ts with
  | None => Some false
  | Some l =>
      if ts_truthy l then
        match ts with
        | None => None
        | Some t => Some (Qlt_bool thr (t - l))
        end
      else Some false
  end.

Definition sample_point (det : sample) : point :=
  (get_or (s_lon det) 0, get_or (s_lat det) 0, s_ts det).

(** The loop [for det in detection_history] for one [mac], with the final
    flush; [out] collects the folders appended to [kml_lines]. *)
Fixpoint flight_loop (ts_truthy : Q -> bool) (thr : Q) (hist : list sample)
    (m alias : string) (rest : list sample) (flight_idx : nat)
    (last_ts : option Q) (current_flight : list point)
    (out : list folder) : option (list folder) :=
  match rest with
  | [] =>
      match current_flight with
      | [] => Some out
      | p0 :: r =>
          match flush hist m alias flight_idx p0 r with
          | None => None
          | Some f => Some (out ++ [f])
          end
      end
  | det :: rest' =>
      if negb (get_is m (s_mac det)) then
        flight_loop ts_truthy thr hist m alias rest' flight_idx last_ts
          current_flight out
      else if (num_truthy (s_lat det) && num_truthy (s_lon det))%bool then
        match gap_break ts_truthy thr last_ts (s_ts det) with
        | None => None
        | Some true =>
            match current_flight with
            | [] =>
                flight_loop ts_truthy thr hist m alias rest' flight_idx
                  (s_ts det) [sample_point det] out
            | p0 :: r =>
                match flush hist m alias flight_idx p0 r with
                | None => None
                | Some f =>
                    flight_loop ts_truthy thr hist m alias rest'
                      (S flight_idx) (s_ts det) [sample_point det]
                      (out ++ [f])
                end
            end
        | Some false =>
            flight_loop ts_truthy thr hist m alias rest' flight_idx
              (s_ts det) (current_flight ++ [sample_point det]) out
        end
      else
        flight_loop ts_truthy thr hist m alias rest' flight_idx last_ts
          current_flight out
  end.

(** The folders of one mac: [flight_idx = 1], [last_ts = None],
    [current_flight = []]. *)
Definition mac_flights (ts_truthy : Q -> bool) (thr : Q)
    (hist : list sample) (m alias : string) : option (list folder) :=
  flight_loop ts_truthy thr hist m alias hist 1 None [] [].

(** [sorted({d['mac'] for d in history})]: the distinct macs, sorted by
    insertion. *)
Fixpoint insert_mac (m : string) (l : list string) : list string :=
  match l with
  | [] => [m]
  | x :: t => if String.leb m x then m :: l else x :: insert_mac m t
  end.

Definition sorted_macs (ms : list string) : list string :=
  fold_right insert_mac [] (nodup string_dec ms).

(** [d['mac']] for every record; a record without the key raises. *)
Fixpoint all_macs (hist : list sample) : option (list string) :=
  match hist with
  | [] => Some []
  | d :: t =>
      match s_mac d, all_macs t with
      | Some m, Some ms => Some (m :: ms)
      | _, _ => None
      end
  end.

(** The loop [for mac in macs] of a generator. *)
Fixpoint kml_folders (ts_truthy : Q -> bool) (thr : Q)
    (aliases : odict string string) (hist : list sample)
    (macs : list string) : option (list folder) :=
  match macs with
  | [] => Some []
  | m :: ms =>
      match mac_flights ts_truthy thr hist m
              (get_or (od_get String.eqb m aliases) ""%string) with
      | None => None
      | Some fs =>
          option_map (app fs) (kml_folders ts_truthy thr aliases hist ms)
      end
  end.

Definition kml_document (ts_truthy : Q -> bool) (thr : Q)
    (aliases : odict string string) (hist : list sample)
    : option (list folder) :=
  match all_macs hist with
  | None => None
  | Some ms => kml_folders ts_truthy thr aliases hist (sorted_macs ms)
  end.

(** What [generate_kml] reads of a history record. *)
Definition sample_of_detection (d : detection) : sample :=
  mkSample (mac d) (drone_lat d) (drone_long d) (last_update d)
    (pilot_lat d) (pilot_long d).

(** What [generate_cumulative_kml] makes of a CSV row: the timestamp is
    parsed, an empty coordinate cell becomes [0.0]. *)
Definition sample_of_row (r : csv_row) : sample :=
  mkSample (Some (c_mac r))
    (Some (get_or (c_drone_lat r) 0)) (Some (get_or (c_drone_long r) 0))
    (Some (c_timestamp r))
    (Some (get_or (c_pilot_lat r) 0)) (Some (get_or (c_pilot_long r) 0)).

(** ** The server state *)

(** Global stale threshold in seconds. *)
Definition staleThreshold : Q := 60.

(** An outgoing request: [requests.post(WEBHOOK_URL, json=..., timeout=...)]. *)
Record request : Type := mkPost {
  rq_url : string;
  rq_json : detection;
  rq_timeout : Q
}.

Record state : Type := mkState {
  tracked_pairs : odict string detection;
  detection_history : list detection;
  FAA_CACHE : odict (string * string) json;
  ALIASES : odict string string;
  WEBHOOK_URL : option string;
  (* files *)
  session_csv : list csv_row;
  cumulative_csv : list csv_row;
  faa_cache_file : list (string * string * json);
  session_kml : list folder;
  cumulative_kml : list folder;
  (* the outside world *)
  network : list request;
  error_log : list string
}.

(** What one call of [update_detection] reads of its environment. *)
Record env : Type := mkEnv {
  time_time : Q;          (* time.time() *)
  now_session : Q;        (* datetime.now() of the session CSV row *)
  now_cumulative : Q;     (* datetime.now() of the cumulative CSV row *)
  post_ok : bool          (* requests.post returns without raising *)
}.

Inductive outcome : Type := Returned | Raised.

Definition set_memory (tp : odict string detection) (h : list detection)
    (st : state) : state :=
  mkState tp h (FAA_CACHE st) (ALIASES st) (WEBHOOK_URL st)
    (session_csv st) (cumulative_csv st)
    (faa_cache_file st) (session_kml st) (cumulative_kml st) (network st)
    (error_log st).

Definition set_cache (c : odict (string * string) json)
    (f : list (string * string * json)) (st : state) : state :=
  mkState (tracked_pairs st) (detection_history st) c (ALIASES st)
    (WEBHOOK_URL st) (session_csv st)
    (cumulative_csv st) f (session_kml st) (cumulative_kml st) (network st)
    (error_log st).

Definition set_csv (s c : list csv_row) (st : state) : state :=
  mkState (tracked_pairs st) (detection_history st) (FAA_CACHE st)
    (ALIASES st) (WEBHOOK_URL st) s c
    (faa_cache_file st) (session_kml st) (cumulative_kml st) (network st)
    (error_log st).

Definition set_kml (s c : list folder) (st : state) : state :=
  mkState (tracked_pairs st) (detection_history st) (FAA_CACHE st)
    (ALIASES st) (WEBHOOK_URL st) (session_csv st)
    (cumulative_csv st) (faa_cache_file st) s c (network st) (error_log st).

Definition set_world (n : list request) (l : list string) (st : state)
    : state :=
  mkState (tracked_pairs st) (detection_history st) (FAA_CACHE st)
    (ALIASES st) (WEBHOOK_URL st) (session_csv st)
    (cumulative_csv st) (faa_cache_file st) (session_kml st)
    (cumulative_kml st) n l.

(** [generate_kml]: [None] when an exception leaves the function, else
    the document written to the session KML file. *)
Definition generate_kml (st : state) : option (list folder) :=
  kml_document py_ne0 staleThreshold (ALIASES st)
    (map sample_of_detection (detection_history st)).

(** [generate_cumulative_kml], over the rows of the cumulative CSV; a
    [datetime] is always true. *)
Definition generate_cumulative_kml (st : state) : option (list folder) :=
  kml_document (fun _ => true) staleThreshold (ALIASES st)
    (map sample_of_row (cumulative_csv st)).

(** [write_to_faa_cache]: the in-memory entry and the appended file row. *)
Definition write_to_faa_cache (m remote_id : string) (v : json)
    (st : state) : state :=
  set_cache (od_set key_eqb (m, remote_id) v (FAA_CACHE st))
    (faa_cache_file st ++ [(m, remote_id, v)]) st.

(** ** Detection update *)

(** The row written to both CSV files; [lat] and [long] are the cells of
    the drone position. *)
Definition detection_row (now : Q) (aliases : odict string string)
    (m : string) (lat long : option Q) (d : detection) : csv_row :=
  mkRow now (get_or (od_get String.eqb m aliases) ""%string) m (rssi d)
    lat long (drone_altitude d) (pilot_lat d) (pilot_long d)
    (get_or (basic_id d) ""%string) (get_or (faa_data d) (JObj [])).

(** Server-side webhook of the no-GPS branch: posted when a URL is set, a
    failure is caught and logged. *)
Definition fire_webhook (e : env) (d : detection) (st : state) : state :=
  match WEBHOOK_URL st with
  | None => st
  | Some url =>
      if (url =? "")%string then st
      else
        set_world (network st ++ [mkPost url d 5])
          (if post_ok e then error_log st
           else error_log st ++ ["Server webhook error"%string])
          st
  end.

(** Both CSV appends. *)
Definition append_csv (e : env) (m : string) (lat long : option Q)
    (d : detection) (st : state) : state :=
  set_csv
    (session_csv st
       ++ [detection_row (now_session e) (ALIASES st) m lat long d])
    (cumulative_csv st
       ++ [detection_row (now_cumulative e) (ALIASES st) m lat long d])
    st.

(** Lines 391-448: the branch taken when [valid_drone] is false. *)
Definition no_gps_update (e : env) (m : string) (d : detection)
    (st : state) : state * outcome :=
  let st1 :=
    set_memory (od_set String.eqb m d (tracked_pairs st))
      (detection_history st ++ [d]) st in
  let st2 := fire_webhook e d st1 in
  let st3 :=
    append_csv e m (Some (get_or (drone_lat d) 0))
      (Some (get_or (drone_long d) 0)) d st2 in
  match generate_cumulative_kml st3 with
  | None => (st3, Raised)
  | Some cdoc =>
      let st4 := set_kml (session_kml st3) cdoc st3 in
      let st5 :=
        if str_truthy (basic_id d) then
          write_to_faa_cache m (get_or (basic_id d) ""%string)
            (get_or (faa_data d) (JObj [])) st4
        else st4 in
      match generate_kml st5 with
      | None => (st5, Raised)
      | Some doc => (set_kml doc (cumulative_kml st5) st5, Returned)
      end
  end.

(** Lines 458-460: keep the previous [basic_id] when the new detection
    has none. *)
Definition carry_basic_id (m : string) (tp : odict string detection)
    (d : detection) : detection :=
  if negb (str_truthy (basic_id d)) then
    match od_get String.eqb m tp with
    | Some prev =>
        if str_truthy (basic_id prev) then
          set_basic_id (get_or (basic_id prev) ""%string) d
        else d
    | None => d
    end
  else d.

(** Lines 465-468: exact cache entry for [(mac, remote_id)]. *)
Definition faa_exact (m : string) (cache : odict (string * string) json)
    (d : detection) : detection :=
  if str_truthy (basic_id d) then
    match od_get key_eqb (m, get_or (basic_id d) ""%string) cache with
    | Some v => set_faa_data v d
    | None => d
    end
  else d.

(** Lines 470-474: first cache entry whose key has this mac. *)
Definition faa_any_mac (m : string) (cache : odict (string * string) json)
    (d : detection) : detection :=
  match faa_data d with
  | Some _ => d
  | None =>
      match od_first (fun k _ => (fst k =? m)%string) cache with
      | Some v => set_faa_data v d
      | None => d
      end
  end.

(** Lines 476-477: the [faa_data] of the previous [tracked_pairs] entry. *)
Definition faa_previous (m : string) (tp : odict string detection)
    (d : detection) : detection :=
  match faa_data d with
  | Some _ => d
  | None =>
      match od_get String.eqb m tp with
      | Some prev =>
          match faa_data prev with
          | Some v => set_faa_data v d
          | None => d
          end
      | None => d
      end
  end.

(** The merged record of the GPS branch (lines 451-477). *)
Definition merge_detection (e : env) (m : string) (d : detection)
    (st : state) : detection :=
  faa_previous m (tracked_pairs st)
    (faa_any_mac m (FAA_CACHE st)
       (faa_exact m (FAA_CACHE st)
          (carry_basic_id m (tracked_pairs st)
             (stamp_position (time_time e) d)))).

(** Lines 450-529: the branch taken when [valid_drone] is true.  The
    [socketio.emit] of line 485 raises [NameError] (no [socketio] is
    defined) and the error is swallowed: it has no effect. *)
Definition gps_update (e : env) (m : string) (d : detection)
    (st : state) : state * outcome :=
  let d' := merge_detection e m d st in
  let st1 :=
    match faa_data d' with
    | Some v => write_to_faa_cache m (get_or (basic_id d') ""%string) v st
    | None => st
    end in
  let st2 :=
    set_memory (od_set String.eqb m d' (tracked_pairs st1))
      (detection_history st1 ++ [d']) st1 in
  let st3 := append_csv e m (drone_lat d') (drone_long d') d' st2 in
  match generate_cumulative_kml st3 with
  | None => (st3, Raised)
  | Some cdoc =>
      let st4 := set_kml (session_kml st3) cdoc st3 in
      match generate_kml st4 with
      | None => (st4, Raised)
      | Some doc => (set_kml doc (cumulative_kml st4) st4, Returned)
      end
  end.

(** [valid_drone = (new_drone_lat != 0 and new_drone_long != 0)] *)
Definition valid_drone (d : detection) : bool :=
  (py_ne0 (get_or (drone_lat d) 0) && py_ne0 (get_or (drone_long d) 0))%bool.

Definition update_detection (e : env) (d : detection) (st : state)
    : state * outcome :=
  match mac d with
  | None => (st, Returned)
  | Some m =>
      if (m =? "")%string then (st, Returned)
      else if negb (valid_drone d) then no_gps_update e m d st
      else gps_update e m d st
  end.

(** ** GET /api/faa/<identifier> *)

Inductive response : Type :=
| Ok200 (faa : json)      (* {'status': 'ok', 'faa_data': ...} *)
| NotFound404.            (* {'status': 'error', ...}, 404 *)

(** [identifier in tracked_pairs and 'faa_data' in tracked_pairs[identifier]] *)
Definition faa_by_mac (identifier : string) (tp : odict string detection)
    : option json :=
  match od_get String.eqb identifier tp with
  | Some det => faa_data det
  | None => None
  end.

(** The loop over [tracked_pairs.items()]. *)
Fixpoint faa_by_basic_id (identifier : string) (tp : odict string detection)
    : option json :=
  match tp with
  | [] => None
  | (_, det) :: t =>
      if get_is identifier (basic_id det) then
        match faa_data det with
        | Some v => Some v
        | None => faa_by_basic_id identifier t
        end
      else faa_by_basic_id identifier t
  end.

(** The two loops over [FAA_CACHE.items()]. *)
Definition cache_by_remote_id (identifier : string)
    (cache : odict (string * string) json) : option json :=
  od_first (fun k _ => (snd k =? identifier)%string) cache.

Definition cache_by_mac (identifier : string)
    (cache : odict (string * string) json) : option json :=
  od_first (fun k _ => (fst k =? identifier)%string) cache.

(** The handler reads the state and returns it as it found it. *)
Definition api_get_faa (identifier : string) (st : state)
    : state * response :=
  match faa_by_mac identifier (tracked_pairs st) with
  | Some v => (st, Ok200 v)
  | None =>
      match faa_by_basic_id identifier (tracked_pairs st) with
      | Some v => (st, Ok200 v)
      | None =>
          match cache_by_remote_id identifier (FAA_CACHE st) with
          | Some v => (st, Ok200 v)
          | None =>
              match cache_by_mac identifier (FAA_CACHE st) with
              | Some v => (st, Ok200 v)
              | None => (st, NotFound404)
              end
          end
      end
  end.

(** ** GET /api/paths *)

(** A path element [[lat, long]]. *)
Definition path_point : Type := (Q * Q)%type.

(** [point != new_path[-1]] negated: equality of two-element lists. *)
Definition point_eqb (p q : path_point) : bool :=
  (Qeq_bool (fst p) (fst q) && Qeq_bool (snd p) (snd q))%bool.

(** [paths.setdefault(mac, []).append(p)] *)
Definition path_append (m : string) (p : path_point)
    (paths : odict string (list path_point)) : odict string (list path_point) :=
  od_set String.eqb m (get_or (od_get String.eqb m paths) [] ++ [p]) paths.

(** The loop over [detection_history]. *)
Fixpoint collect_paths (hist : list detection)
    (drone_paths pilot_paths : odict string (list path_point))
    : odict string (list path_point) * odict string (list path_point) :=
  match hist with
  | [] => (drone_paths, pilot_paths)
  | det :: t =>
      match mac det with
      | None => collect_paths t drone_paths pilot_paths
      | Some m =>
          if (m =? "")%string then collect_paths t drone_paths pilot_paths
          else
            let d_lat := get_or (drone_lat det) 0 in
            let d_long := get_or (drone_long det) 0 in
            let p_lat := get_or (pilot_lat det) 0 in
            let p_long := get_or (pilot_long det) 0 in
            collect_paths t
              (if (py_ne0 d_lat && py_ne0 d_long)%bool
               then path_append m (d_lat, d_long) drone_paths
               else drone_paths)
              (if (py_ne0 p_lat && py_ne0 p_long)%bool
               then path_append m (p_lat, p_long) pilot_paths
               else pilot_paths)
      end
  end.

(** The loop of [dedupe] after [new_path = [path[0]]]: [prev] is
    [new_path[-1]], the result is what the loop appends. *)
Fixpoint dedupe_from (prev : path_point) (rest : list path_point)
    : list path_point :=
  match rest with
  | [] => []
  | p :: t =>
      if point_eqb p prev then dedupe_from prev t
      else p :: dedupe_from p t
  end.

Definition dedupe (path : list path_point) : list path_point :=
  match path with
  | [] => []
  | p0 :: t => p0 :: dedupe_from p0 t
  end.

Definition dedupe_all (paths : odict string (list path_point))
    : odict string (list path_point) :=
  map (fun kv => (fst kv, dedupe (snd kv))) paths.

(** The JSON answer: [dronePaths] and [pilotPaths]. *)
Definition api_paths (st : state)
    : odict string (list path_point) * odict string (list path_point) :=
  let '(drone_paths, pilot_paths) :=
    collect_paths (detection_history st) [] [] in
  (dedupe_all drone_paths, dedupe_all pilot_paths).
(** ** The registry cascade, as the design describes it

    For a detection that arrives without registry data: the cache entry of
    the exact key, else the first cache entry of the mac, else the data of
    the previous live entry. *)
Definition cache_exact (m : string) (remote_id : option string)
    (cache : odict (string * string) json) : option json :=
  if str_truthy remote_id
  then od_get key_eqb (m, get_or remote_id ""%string) cache
  else None.

Definition faa_cascade (m : string) (remote_id : option string)
    (cache : odict (string * string) json) (prev : option detection)
    : option json :=
  match cache_exact m remote_id cache with
  | Some v => Some v
  | None =>
      match od_first (fun k _ => (fst k =? m)%string) cache with
      | Some v => Some v
      | None =>
          match prev with
          | Some p => faa_data p
          | None => None
          end
      end
  end.

(** ** Sample data *)

Definition no_detection : detection :=
  mkDetection None None None None None None None None None None None.

Definition empty_state : state :=
  mkState [] [] [] [] None [] [] [] [] [] [] [].

Definition sample_env : env := mkEnv 1000 1001 1002 true.

Definition faa_X : json := JObj [("make"%string, JStr "X"%string)].
Definition faa_Y : json := JObj [("make"%string, JStr "Y"%string)].

(** A detection of mac AA with a position and nothing else. *)
Definition fix_AA : detection :=
  mkDetection (Some "AA"%string) (Some (-(60#1))) (Some (10#1)) (Some (20#1))
    None None None None None None None.

(** A detection of mac AA without a position and without identifiers. *)
Definition nofix_AA : detection :=
  mkDetection (Some "AA"%string) (Some (-(70#1))) (Some 0) (Some 0)
    None None None None None (Some 5) None.

(** The live entry of mac AA: remote id R1 and registry data attached. *)
Definition tracked_AA : detection :=
  mkDetection (Some "AA"%string) None (Some (10#1)) (Some (20#1)) (Some 0)
    (Some 0) (Some 0) (Some "R1"%string) (Some faa_X) (Some 900) None.

(** The same with registry data of its own. *)
Definition fix_AA_own : detection :=
  mkDetection (Some "AA"%string) (Some (-(60#1))) (Some (10#1)) (Some (20#1))
    None None None None (Some faa_X) None None.

Definition state_AA : state :=
  mkState [("AA"%string, tracked_AA)] [tracked_AA] [] [] None
    [] [] [] [] [] [] [].

(** Mac AA is in the cache under another remote id; a webhook is set. *)
Definition state_cached : state :=
  mkState [] [] [(("AA"%string, "R2"%string), faa_Y)] []
    (Some "http://hook"%string) [] [] [] [] [] [] [].

(** The first answer of a list of lookups tried in order. *)
Fixpoint first_some {A : Type} (l : list (option A)) : option A :=
  match l with
  | [] => None
  | Some v :: _ => Some v
  | None :: t => first_some t
  end.

(** Mac AA is live with registry data X and cached with Y. *)
Definition state_live_and_cached : state :=
  mkState [("AA"%string, tracked_AA)] [tracked_AA]
    [(("AA"%string, "R2"%string), faa_Y)] [] None [] [] [] [] [] [] [].

(** ** The lookup of GET /api/faa, as the design describes it

    The candidates, in the order of the cascade: the registry data of the
    live entries whose mac is the identifier; of the live entries whose
    remote id is the identifier; the cache entries whose key has the
    identifier as remote id; the cache entries whose key has it as mac.
    The answer is the first candidate. *)
Definition live_payloads (p : string -> detection -> bool)
    (tp : odict string detection) : list json :=
  flat_map
    (fun kv =>
       match faa_data (snd kv) with
       | Some v => if p (fst kv) (snd kv) then [v] else []
       | None => []
       end)
    tp.

Definition cached_payloads (p : string * string -> bool)
    (cache : odict (string * string) json) : list json :=
  map snd (filter (fun kv => p (fst kv)) cache).

Definition has_remote_id (identifier : string) (det : detection) : bool :=
  match basic_id det with
  | Some rid => (rid =? identifier)%string
  | None => false
  end.

Definition faa_candidates (identifier : string)
    (tp : odict string detection) (cache : odict (string * string) json)
    : list json :=
  live_payloads (fun m _ => (m =? identifier)%string) tp
  ++ live_payloads (fun _ det => has_remote_id identifier det) tp
  ++ cached_payloads (fun k => (snd k =? identifier)%string) cache
  ++ cached_payloads (fun k => (fst k =? identifier)%string) cache.

(** ** Paths, as the design describes them *)

(** The drone positions of mac [m] in a history: the records of that mac
    whose drone coordinates are both nonzero, in order. *)
Definition drone_pts (m : string) (hist : list detection) : list path_point :=
  map (fun d => (get_or (drone_lat d) 0, get_or (drone_long d) 0))
    (filter (fun d => (get_is m (mac d) && valid_drone d)%bool) hist).

Definition valid_pilot (d : detection) : bool :=
  (py_ne0 (get_or (pilot_lat d) 0) && py_ne0 (get_or (pilot_long d) 0))%bool.

Definition pilot_path_pts (m : string) (hist : list detection)
    : list path_point :=
  map (fun d => (get_or (pilot_lat d) 0, get_or (pilot_long d) 0))
    (filter (fun d => (get_is m (mac d) && valid_pilot d)%bool) hist).

(** Every run of consecutive equal points collapsed to its first point:
    a point is kept when it differs from the point just before it. *)
Fixpoint collapse_after (before : path_point) (l : list path_point)
    : list path_point :=
  match l with
  | [] => []
  | p :: t =>
      if point_eqb p before then collapse_after p t
      else p :: collapse_after p t
  end.

Definition collapse_runs (l : list path_point) : list path_point :=
  match l with
  | [] => []
  | p :: t => p :: collapse_after p t
  end.

(** No two neighbours of a path are equal. *)
Fixpoint adjacent_distinct (l : list path_point) : Prop :=
  match l with
  | a :: (b :: _) as t => point_eqb b a = false /\ adjacent_distinct t
  | _ => True
  end.

(** The polyline of a mac: none when it has no point. *)
Definition polyline (pts : list path_point) : option (list path_point) :=
  match pts with
  | [] => None
  | _ => Some (collapse_runs pts)
  end.

(** Mac AA stands still for two records, moves, and is seen without a
    position in between. *)
Definition hist_paths : list detection :=
  [ mkDetection (Some "AA"%string) None (Some (10#1)) (Some (20#1)) None
      (Some (1#1)) (Some (2#1)) None None (Some 100) None;
    mkDetection (Some "AA"%string) None (Some (20#2)) (Some (40#2)) None
      None None None None (Some 110) None;
    nofix_AA;
    mkDetection (Some "AA"%string) None (Some (11#1)) (Some (21#1)) None
      (Some (1#1)) (Some (2#1)) None None (Some 120) None ].

Definition state_paths : state :=
  mkState [] hist_paths [] [] None [] [] [] [] [] [] [].

(** A dictionary entry after the points [new] were appended to it. *)
Definition path_extend (old : option (list path_point))
    (new : list path_point) : option (list path_point) :=
  match new with
  | [] => old
  | _ => Some (get_or old [] ++ new)
  end.

(** ** Flights, as the design describes them *)

(** The records whose point enters [current_flight] in the loop of [m]. *)
Definition flight_sample (m : string) (det : sample) : bool :=
  (get_is m (s_mac det)
   && (num_truthy (s_lat det) && num_truthy (s_lon det)))%bool.

Definition flight_points (m : string) (hist : list sample) : list point :=
  map sample_point (filter (flight_sample m) hist).

(** The time from point [p] to point [q] is strictly more than [thr]. *)
Definition exceeds (thr : Q) (p q : point) : bool :=
  match pt_ts p, pt_ts q with
  | Some a, Some b => Qlt_bool thr (b - a)
  | _, _ => false
  end.

(** No step inside a flight exceeds the threshold. *)
Fixpoint gaps_within (thr : Q) (l : list point) : bool :=
  match l with
  | a :: (b :: _) as t => (negb (exceeds thr a b) && gaps_within thr t)%bool
  | _ => true
  end.

(** The step from the last point of [f] to the first point of [g]. *)
Definition flight_gap (thr : Q) (f g : list point) : bool :=
  match f, g with
  | p0 :: r, q :: _ => exceeds thr (last r p0) q
  | _, _ => false
  end.

(** Every step from one flight to the next exceeds the threshold. *)
Fixpoint gaps_between (thr : Q) (fl : list (list point)) : bool :=
  match fl with
  | f :: (g :: _) as t => (flight_gap thr f g && gaps_between thr t)%bool
  | _ => true
  end.

Definition nonempty (l : list point) : bool :=
  match l with
  | [] => false
  | _ => true
  end.

(** [flights] cuts [pts] exactly at the steps that exceed [thr]: the
    flights are non-empty and together are [pts]; inside a flight no step
    exceeds [thr]; from each flight to the next the step does. *)
Definition segmented (thr : Q) (pts : list point)
    (flights : list (list point)) : Prop :=
  List.concat flights = pts
  /\ forallb nonempty flights = true
  /\ forallb (gaps_within thr) flights = true
  /\ gaps_between thr flights = true.

(** The flights of a document that belong to mac [m]. *)
Definition folders_of (m : string) (doc : list folder) : list folder :=
  filter (fun f => (f_mac f =? m)%string) doc.

(** ** The flight loop in two passes

    The points of the loop cut into numbered flights, then each flight
    rendered; [flight_loop_stages] shows the loop is the two in sequence. *)

Fixpoint segment (ts_truthy : Q -> bool) (thr : Q) (pts : list point)
    (flight_idx : nat) (last_ts : option Q) (current_flight : list point)
    : option (list (nat * list point)) :=
  match pts with
  | [] =>
      match current_flight with
      | [] => Some []
      | _ => Some [(flight_idx, current_flight)]
      end
  | p :: pts' =>
      match gap_break ts_truthy thr last_ts (pt_ts p) with
      | None => None
      | Some true =>
          match current_flight with
          | [] => segment ts_truthy thr pts' flight_idx (pt_ts p) [p]
          | _ =>
              option_map (cons (flight_idx, current_flight))
                (segment ts_truthy thr pts' (S flight_idx) (pt_ts p) [p])
          end
      | Some false =>
          segment ts_truthy thr pts' flight_idx (pt_ts p)
            (current_flight ++ [p])
      end
  end.

Definition flush_flight (hist : list sample) (m alias : string)
    (fl : nat * list point) : option folder :=
  match snd fl with
  | [] => None
  | p0 :: r => flush hist m alias (fst fl) p0 r
  end.

Fixpoint render (hist : list sample) (m alias : string)
    (segs : list (nat * list point)) : option (list folder) :=
  match segs with
  | [] => Some []
  | fl :: t =>
      match flush_flight hist m alias fl with
      | None => None
      | Some f => option_map (cons f) (render hist m alias t)
      end
  end.

Definition folder_view (f : folder) : nat * list point :=
  (f_idx f, f_points f).

(** ** Conditions under which the generators do not raise *)

(** Every record with a drone position has a timestamp that is true. *)
Definition stamped (ts_truthy : Q -> bool) (hist : list sample) : bool :=
  forallb
    (fun d =>
       implb (num_truthy (s_lat d) && num_truthy (s_lon d))
         match s_ts d with
         | Some t => ts_truthy t
         | None => false
         end)
    hist.

(** Every record with a pilot position has a timestamp. *)
Definition pilot_stamped (hist : list sample) : bool :=
  forallb
    (fun d =>
       implb (num_truthy (s_plat d) && num_truthy (s_plon d))
         match s_ts d with
         | Some _ => true
         | None => false
         end)
    hist.

(** Every record has a mac. *)
Definition all_have_mac (hist : list sample) : bool :=
  forallb (fun d => match s_mac d with Some _ => true | None => false end)
    hist.

(** What holds at the head of the flight loop once every point carries a
    true timestamp: no point seen yet, or [last_ts] is the timestamp of
    the last point of [current_flight], which has no step over [thr]. *)
Definition loop_inv (ts_truthy : Q -> bool) (thr : Q)
    (last_ts : option Q) (current_flight : list point) : Prop :=
  match current_flight with
  | [] => last_ts = None
  | p0 :: r =>
      last_ts = pt_ts (last r p0)
      /\ (exists t, last_ts = Some t /\ ts_truthy t = true)
      /\ gaps_within thr current_flight = true
  end.

Definition point_stamped (ts_truthy : Q -> bool) (p : point) : bool :=
  match pt_ts p with
  | Some t => ts_truthy t
  | None => false
  end.

(** Mac AA seen at 1000 s, 1030 s, 1090 s (a step of exactly 60 s) and
    1200 s; the cumulative CSV holds the same four rows. *)
Definition seen_AA (t : Q) (lat : Q) : detection :=
  mkDetection (Some "AA"%string) None (Some lat) (Some (20#1)) (Some 0)
    (Some 0) (Some 0) None None (Some t) None.

Definition row_AA (t : Q) (lat : Q) : csv_row :=
  mkRow t ""%string "AA"%string None (Some lat) (Some (20#1)) (Some 0)
    (Some 0) (Some 0) ""%string (JObj []).

Definition state_flights : state :=
  mkState []
    [seen_AA 1000 (10#1); seen_AA 1030 (11#1); seen_AA 1090 (12#1);
     seen_AA 1200 (13#1)]
    [] [] None []
    [row_AA 1000 (10#1); row_AA 1030 (11#1); row_AA 1090 (12#1);
     row_AA 1200 (13#1)]
    [] [] [] [] [].

(** A detection of mac AA without a drone position but with a pilot
    position. *)
Definition nofix_pilot_AA : detection :=
  mkDetection (Some "AA"%string) None (Some 0) (Some 0) None
    (Some (1#1)) (Some (2#1)) None None None None.

(** A detection of mac AA with a longitude but latitude zero. *)
Definition half_fix_AA : detection :=
  mkDetection (Some "AA"%string) None (Some 0) (Some (5#1)) None
    None None None None None None.

(** ** Valid-position points, as the design describes them

    The points of mac [m] that the flight segmentation works on: in the
    session export the history records of the mac whose drone coordinates
    are both nonzero, as [(long, lat, last_update)]; in the cumulative
    export the CSV rows of the mac whose two drone cells are nonzero
    numbers, as [(long, lat, timestamp)]. *)
Definition history_points (m : string) (hist : list detection) : list point :=
  map (fun d => (get_or (drone_long d) 0, get_or (drone_lat d) 0,
                 last_update d))
    (filter (fun d => (get_is m (mac d) && valid_drone d)%bool) hist).



(** Every history record has a mac. *)
Definition recorded_with_mac (hist : list detection) : bool :=
  forallb (fun d => match mac d with Some _ => true | None => false end) hist.

(** Every history record with a drone position has a nonzero
    [last_update]. *)
Definition positions_timed (hist : list detection) : bool :=
  forallb
    (fun d =>
       implb (valid_drone d)
         match last_update d with
         | Some t => py_ne0 t
         | None => false
         end)
    hist.



(** Mac AA flew; mac BB was only seen without a drone position, with a
    pilot position and no [last_update]. *)
Definition nofix_pilot_BB : detection :=
  mkDetection (Some "BB"%string) None (Some 0) (Some 0) None
    (Some (1#1)) (Some (2#1)) None None None None.


(** ** More of the server

    The handlers and helpers below share the state above; what they keep
    besides it (the alias file, the registry log and requests, the mac
    remembered per serial port) is in [server]. *)

(** [del d[k]] *)
Fixpoint od_del {K V : Type} (keqb : K -> K -> bool) (k : K)
    (d : odict K V) : odict K V :=
  match d with
  | [] => []
  | (k', v) :: t => if keqb k k' then t else (k', v) :: od_del keqb k t
  end.

(** Truth value of a value parsed from JSON; [JNull] is Python's [None]. *)
Definition py_truthy (j : json) : bool :=
  match j with
  | JNull => false
  | JBool b => b
  | JNum q => py_ne0 q
  | JStr s => negb (s =? "")%string
  | JArr l => match l with [] => false | _ => true end
  | JObj l => match l with [] => false | _ => true end
  end.

(** [j.get(k, default)]; on anything but a dict the attribute lookup
    raises: [None]. *)
Definition dict_get (k : string) (default : json) (j : json) : option json :=
  match j with
  | JObj l => Some (get_or (od_get String.eqb k l) default)
  | _ => None
  end.

Definition set_mac (v : string) (d : detection) : detection :=
  mkDetection (Some v) (rssi d) (drone_lat d) (drone_long d)
    (drone_altitude d) (pilot_lat d) (pilot_long d) (basic_id d) (faa_data d)
    (last_update d) (status d).

Definition set_last_update (v : Q) (d : detection) : detection :=
  mkDetection (mac d) (rssi d) (drone_lat d) (drone_long d)
    (drone_altitude d) (pilot_lat d) (pilot_long d) (basic_id d) (faa_data d)
    (Some v) (status d).

Definition set_aliases (a : odict string string) (st : state) : state :=
  mkState (tracked_pairs st) (detection_history st) (FAA_CACHE st) a
    (WEBHOOK_URL st) (session_csv st) (cumulative_csv st)
    (faa_cache_file st) (session_kml st) (cumulative_kml st) (network st)
    (error_log st).

Definition set_webhook_url (u : option string) (st : state) : state :=
  mkState (tracked_pairs st) (detection_history st) (FAA_CACHE st)
    (ALIASES st) u (session_csv st) (cumulative_csv st)
    (faa_cache_file st) (session_kml st) (cumulative_kml st) (network st)
    (error_log st).

(** [set_server_webhook_url] *)
Definition set_server_webhook_url (url : string) (st : state) : state :=
  set_webhook_url (Some url) st.

(** Lines 131-140: the cache file read row by row into [FAA_CACHE]. *)
Definition load_faa_cache (rows : list (string * string * json))
    : odict (string * string) json :=
  fold_left (fun c row => od_set key_eqb (fst (fst row), snd (fst row)) (snd row) c)
    rows [].

(** One row of [faa_log.csv]. *)
Record faa_log_row : Type := mkLogRow {
  fl_timestamp : Q;
  fl_mac : string;
  fl_remote_id : string;
  fl_response : json
}.

(** A request to the registry site: the cookie refresh and the query. *)
Inductive registry_request : Type :=
| GetHomepage
| GetSerialNumber (remote_id : string).

Record server : Type := mkServer {
  core : state;
  aliases_json : odict string string;      (* aliases.json *)
  faa_log : list faa_log_row;              (* faa_log.csv *)
  registry : list registry_request;
  last_mac_by_port : odict string string
}.

Definition set_core (st : state) (sv : server) : server :=
  mkServer st (aliases_json sv) (faa_log sv) (registry sv)
    (last_mac_by_port sv).

(** ** POST /api/query_faa *)

(** What one call reads of its environment: the value of
    [query_remote_id] ([JNull] for [None]) and the clock of the log row. *)
Record query_env : Type := mkQueryEnv {
  answer : json;
  now_log : Q
}.

Inductive query_response : Type :=
| QOk (faa : json)        (* {"status": "ok", "faa_data": ...} *)
| QMissing400             (* "Missing mac or remote_id" *)
| QFailed500              (* "FAA query failed" *)
| QRaised.                (* an exception left the handler *)

(** [not faa_result or not faa_result.get("data", {}).get("items")] *)
Definition needs_fallback (faa_result : json) : option bool :=
  if negb (py_truthy faa_result) then Some true
  else
    match dict_get "data" (JObj []) faa_result with
    | None => None
    | Some data =>
        match dict_get "items" JNull data with
        | None => None
        | Some items => Some (negb (py_truthy items))
        end
    end.

(** The entry created for a mac that is not tracked yet. *)
Definition queried_entry (remote_id : string) (faa : json) : detection :=
  mkDetection None None None None None None None (Some remote_id) (Some faa)
    None None.

Definition api_query_faa (q : query_env) (mac_arg remote_id_arg : option string)
    (sv : server) : server * query_response :=
  if (negb (str_truthy mac_arg) || negb (str_truthy remote_id_arg))%bool
  then (sv, QMissing400)
  else
    let m := get_or mac_arg ""%string in
    let r := get_or remote_id_arg ""%string in
    let st := core sv in
    let sv1 :=
      mkServer st (aliases_json sv) (faa_log sv)
        (registry sv ++ [GetHomepage; GetSerialNumber r])
        (last_mac_by_port sv) in
    match needs_fallback (answer q) with
    | None => (sv1, QRaised)
    | Some fallback =>
        let faa_result :=
          if fallback then
            get_or (od_first (fun k _ => (fst k =? m)%string) (FAA_CACHE st))
              (answer q)
          else answer q in
        match faa_result with
        | JNull => (sv1, QFailed500)
        | _ =>
            let entry :=
              match od_get String.eqb m (tracked_pairs st) with
              | Some det => set_faa_data faa_result det
              | None => queried_entry r faa_result
              end in
            let st1 :=
              set_memory (od_set String.eqb m entry (tracked_pairs st))
                (detection_history st) st in
            let st2 := write_to_faa_cache m r faa_result st1 in
            let log := faa_log sv ++ [mkLogRow (now_log q) m r faa_result] in
            match generate_kml st2 with
            | None =>
                (mkServer st2 (aliases_json sv) log (registry sv1)
                   (last_mac_by_port sv), QRaised)
            | Some doc =>
                (mkServer (set_kml doc (cumulative_kml st2) st2)
                   (aliases_json sv) log (registry sv1)
                   (last_mac_by_port sv), QOk faa_result)
            end
        end
    end.

(** ** POST /api/reactivate/<mac> *)

Inductive simple_response : Type :=
| R200      (* status ok *)
| R400      (* a required field is missing *)
| R404.     (* not found *)

Definition reactivate (now : Q) (m : string) (st : state)
    : state * simple_response :=
  match od_get String.eqb m (tracked_pairs st) with
  | Some det =>
      (set_memory (od_set String.eqb m (set_last_update now det) (tracked_pairs st))
         (detection_history st) st, R200)
  | None => (st, R404)
  end.

(** ** Aliases *)

(** [save_aliases]: the alias file becomes what [ALIASES] is. *)
Definition save_aliases (sv : server) : server :=
  mkServer (core sv) (ALIASES (core sv)) (faa_log sv) (registry sv)
    (last_mac_by_port sv).

(** POST /api/set_alias with a body that has an alias. *)
Definition api_set_alias (mac_arg : option string) (alias : string)
    (sv : server) : server * simple_response :=
  if str_truthy mac_arg then
    (save_aliases
       (set_core
          (set_aliases
             (od_set String.eqb (get_or mac_arg ""%string) alias
                (ALIASES (core sv)))
             (core sv))
          sv), R200)
  else (sv, R400).

(** POST /api/clear_alias/<mac> *)
Definition api_clear_alias (m : string) (sv : server)
    : server * simple_response :=
  match od_get String.eqb m (ALIASES (core sv)) with
  | Some _ =>
      (save_aliases
         (set_core
            (set_aliases (od_del String.eqb m (ALIASES (core sv))) (core sv))
            sv), R200)
  | None => (sv, R404)
  end.

(** ** GET /api/detections_history *)

Section DetectionsHistory.

(** [datetime.fromtimestamp]: the local date of a timestamp, or [None]
    where it raises ([ValueError], [OverflowError] or [OSError] for a
    timestamp outside the years the platform converts).  Which
    timestamps those are depends on the platform and the time zone, so
    the conversion is a parameter. *)
Variable datetime : Type.
Variable fromtimestamp : Q -> option datetime.

(** One GeoJSON feature; [ft_coordinates] is [[drone_long, drone_lat]]. *)
Record feature : Type := mkFeature {
  ft_mac : option string;
  ft_rssi : option Q;
  ft_time : datetime;
  ft_details : detection;
  ft_coordinates : option Q * option Q
}.

(** [datetime.fromtimestamp(det.get("last_update"))]: a missing
    [last_update] raises [TypeError]. *)
Definition feature_time (det : detection) : option datetime :=
  match last_update det with
  | None => None
  | Some ts => fromtimestamp ts
  end.

(** The loop over [detection_history]; an exception is [None]. *)
Fixpoint api_detections_history_loop (hist : list detection)
    : option (list feature) :=
  match hist with
  | [] => Some []
  | det :: t =>
      if (Qeq_bool (get_or (drone_lat det) 0) 0
          && Qeq_bool (get_or (drone_long det) 0) 0)%bool
      then api_detections_history_loop t
      else
        match feature_time det with
        | None => None
        | Some time =>
            option_map
              (cons (mkFeature (mac det) (rssi det) time det
                       (drone_long det, drone_lat det)))
              (api_detections_history_loop t)
        end
  end.

Definition api_detections_history (st : state) : option (list feature) :=
  api_detections_history_loop (detection_history st).

End DetectionsHistory.

(** ** One line of a serial port *)

(** [line[line.find('{'):]] *)
Fixpoint from_brace (line : string) : string :=
  match line with
  | EmptyString => EmptyString
  | String c t => if Ascii.eqb c "{"%char then line else from_brace t
  end.

(** ['{' in line] *)
Fixpoint has_brace (line : string) : bool :=
  match line with
  | EmptyString => false
  | String c t => (Ascii.eqb c "{"%char || has_brace t)%bool
  end.

(** Lines 3143-3146: the text handed to [json.loads]. *)
Definition json_str (line : string) : string :=
  if has_brace line then from_brace line else line.

(** A parsed line: the detection fields, and the two other keys the
    reader looks at. *)
Record frame : Type := mkFrame {
  fr_detection : detection;
  fr_remote_id : option string;    (* 'remote_id' *)
  fr_heartbeat : bool              (* 'heartbeat' in detection *)
}.

(** Lines 3150-3153: the mac of the port is remembered, or attached. *)
Definition stitch_mac (port : string) (d : detection)
    (last_mac : odict string string) : detection * odict string string :=
  match mac d with
  | Some m => (d, od_set String.eqb port m last_mac)
  | None =>
      match od_get String.eqb port last_mac with
      | Some m => (set_mac m d, last_mac)
      | None => (d, last_mac)
      end
  end.

(** Lines 3156-3157: the legacy field name. *)
Definition normalize_remote_id (fr : frame) (d : detection) : detection :=
  match fr_remote_id fr, basic_id d with
  | Some r, None => set_basic_id r d
  | _, _ => d
  end.

(** Lines 3150-3160 of [serial_reader], for a line parsed to a dict. *)
Definition handle_frame (e : env) (port : string) (fr : frame) (sv : server)
    : server * outcome :=
  let '(d1, last_mac) :=
    stitch_mac port (fr_detection fr) (last_mac_by_port sv) in
  let d2 := normalize_remote_id fr d1 in
  let sv1 :=
    mkServer (core sv) (aliases_json sv) (faa_log sv) (registry sv) last_mac in
  if fr_heartbeat fr then (sv1, Returned)
  else
    let '(st', o) := update_detection e d2 (core sv) in
    (set_core st' sv1, o).

(** ** Startup and the operations of a running server *)

(** The module body: nothing tracked, the cache and the aliases read from
    their files, a fresh session CSV, both KML files generated. *)
Definition startup (aliases : odict string string)
    (cache_rows : list (string * string * json))
    (cumulative_rows : list csv_row) : server :=
  let st0 :=
    mkState [] [] (load_faa_cache cache_rows) aliases None [] cumulative_rows
      cache_rows [] [] [] [] in
  let st1 :=
    match generate_kml st0 with
    | Some doc => set_kml doc (cumulative_kml st0) st0
    | None => st0
    end in
  let st2 :=
    match generate_cumulative_kml st1 with
    | Some doc => set_kml (session_kml st1) doc st1
    | None => st1
    end in
  mkServer st2 aliases [] [] [].

Inductive operation : Type :=
| OpFrame (e : env) (port : string) (fr : frame)
| OpPostDetection (e : env) (d : detection)
| OpQueryFaa (q : query_env) (mac_arg remote_id_arg : option string)
| OpReactivate (now : Q) (m : string)
| OpSetAlias (mac_arg : option string) (alias : string)
| OpClearAlias (m : string)
| OpSetWebhook (url : string).

Definition run (op : operation) (sv : server) : server :=
  match op with
  | OpFrame e port fr => fst (handle_frame e port fr sv)
  | OpPostDetection e d => set_core (fst (update_detection e d (core sv))) sv
  | OpQueryFaa q m r => fst (api_query_faa q m r sv)
  | OpReactivate now m => set_core (fst (reactivate now m (core sv))) sv
  | OpSetAlias m a => fst (api_set_alias m a sv)
  | OpClearAlias m => fst (api_clear_alias m sv)
  | OpSetWebhook url => set_core (set_server_webhook_url url (core sv)) sv
  end.

Definition run_all (ops : list operation) (sv : server) : server :=
  fold_left (fun s op => run op s) ops sv.

(** The record an accepted detection is stored as: the merged record on
    the GPS branch, the detection itself on the no-GPS branch. *)
Definition stored_record (e : env) (d : detection) (st : state) : detection :=
  match mac d with
  | Some m => if valid_drone d then merge_detection e m d st else d
  | None => d
  end.

(** A no-GPS detection of mac AA with a remote id and a pilot position,
    but no [last_update]. *)
Definition nofix_pilot_R1 : detection :=
  mkDetection (Some "AA"%string) None (Some 0) (Some 0) None
    (Some (1#1)) (Some (2#1)) (Some "R1"%string) None None None.

(** Mac AA flew (one record with a position) and was then seen without a
    drone position, with a pilot position and no [last_update]. *)
Definition state_unstamped_pilot : state :=
  mkState [("AA"%string, nofix_pilot_AA)]
    [seen_AA 1000 (10#1); nofix_pilot_AA] [] [] None [] [] [] [] [] [] [].

(** The pilot positions of mac [m] whose timestamp lies in the closed
    window from [start_ts] to [end_ts], in history order. *)
Definition in_window (start_ts : Q) (end_ts : option Q) (ts : option Q)
    : bool :=
  match ts, end_ts with
  | Some lu, Some e => (Qle_bool start_ts lu && Qle_bool lu e)%bool
  | _, _ => false
  end.

Definition pilot_window (m : string) (start_ts : Q) (end_ts : option Q)
    (hist : list sample) : list (Q * Q) :=
  map (fun d => (get_or (s_plon d) 0, get_or (s_plat d) 0))
    (filter
       (fun d =>
          (get_is m (s_mac d) && num_truthy (s_plat d)
           && num_truthy (s_plon d) && in_window start_ts end_ts (s_ts d))%bool)
       hist).

(** [det.get("drone_lat", 0) == 0 and det.get("drone_long", 0) == 0] *)
Definition both_zero (d : detection) : bool :=
  (Qeq_bool (get_or (drone_lat d) 0) 0
   && Qeq_bool (get_or (drone_long d) 0) 0)%bool.

(** The live entry of AA is cached under its remote id R1. *)
Definition state_AA_cached : state :=
  mkState [("AA"%string, tracked_AA)] [tracked_AA]
    [(("AA"%string, "R1"%string), faa_X)] [] None [] [] [] [] [] [] [].

(** A detection of mac AA at the position of [tracked_AA]. *)
Definition fix_AA_again : detection :=
  mkDetection (Some "AA"%string) None (Some (20#2)) (Some (20#1))
    None None None None None None None.

(** The history of [state_AA] followed by a record with a longitude only
    and no [last_update]. *)
Definition state_half_fix : state :=
  mkState [("AA"%string, half_fix_AA)] [tracked_AA; half_fix_AA] [] [] None
    [] [] [] [] [] [] [].

(** The position [p] repeats the last position of the path [old]. *)
Definition repeats_last (p : path_point) (old : list path_point) : bool :=
  match old with
  | [] => false
  | q :: t => point_eqb p (last t q)
  end.

(** The value [api_query_faa] goes on with after the cache fallback;
    [None] when looking into the answer raises. *)
Definition query_result (q : query_env) (m : string)
    (cache : odict (string * string) json) : option json :=
  match needs_fallback (answer q) with
  | None => None
  | Some true =>
      Some (get_or (od_first (fun k _ => (fst k =? m)%string) cache) (answer q))
  | Some false => Some (answer q)
  end.

(** A registry answer with one item, an answer without items, and a
    failed query. *)
Definition answer_one_item : query_env :=
  mkQueryEnv
    (JObj [("data"%string,
            JObj [("items"%string,
                   JArr [JObj [("makeName"%string, JStr "ExampleMake"%string)]])])])
    2000.

Definition answer_no_items : query_env :=
  mkQueryEnv (JObj [("data"%string, JObj [("items"%string, JArr [])])]) 2000.

Definition answer_failed : query_env := mkQueryEnv JNull 2000.

Definition server_empty : server := mkServer empty_state [] [] [] [].

Definition server_cached : server := mkServer state_cached [] [] [] [].

(** The part of [api_query_faa] after the checks: the value [p] is stored,
    cached and logged, and the session KML regenerated. *)
Definition query_store (q : query_env) (m r : string) (p : json)
    (sv : server) : server * query_response :=
  let st := core sv in
  let entry :=
    match od_get String.eqb m (tracked_pairs st) with
    | Some det => set_faa_data p det
    | None => queried_entry r p
    end in
  let st2 :=
    write_to_faa_cache m r p
      (set_memory (od_set String.eqb m entry (tracked_pairs st))
         (detection_history st) st) in
  let log := faa_log sv ++ [mkLogRow (now_log q) m r p] in
  let reg := registry sv ++ [GetHomepage; GetSerialNumber r] in
  match generate_kml st2 with
  | None => (mkServer st2 (aliases_json sv) log reg (last_mac_by_port sv), QRaised)
  | Some doc =>
      (mkServer (set_kml doc (cumulative_kml st2) st2) (aliases_json sv) log
         reg (last_mac_by_port sv), QOk p)
  end.

(** A conversion that accepts the timestamps from 1970 to the end of the
    year 9999, a date standing for its timestamp. *)
Definition fromtimestamp_to_9999 (ts : Q) : option Q :=
  if (Qle_bool 0 ts && Qle_bool ts 253402300799)%bool then Some ts else None.

(** A record with a longitude only, stored as it came with a
    [last_update] in milliseconds. *)
Definition half_fix_ms : detection :=
  mkDetection (Some "AA"%string) None (Some 0) (Some (5#1)) None
    None None None None (Some 1700000000000) None.

Definition state_half_fix_ms : state :=
  mkState [("AA"%string, half_fix_ms)] [tracked_AA; half_fix_ms] [] [] None
    [] [] [] [] [] [] [].

(** ** States a running server can be in *)

(** The clock of an operation that stores a detection does not read 0. *)
Definition clock_runs (op : operation) : bool :=
  match op with
  | OpFrame e _ _ => py_ne0 (time_time e)
  | OpPostDetection e _ => py_ne0 (time_time e)
  | _ => true
  end.

(** What every operation keeps of the memory: one live entry per mac,
    a mac on every history record, a nonzero [last_update] on every
    history record with a drone position. *)
Definition memory_inv (st : state) : Prop :=
  NoDup (map fst (tracked_pairs st))
  /\ recorded_with_mac (detection_history st) = true
  /\ positions_timed (detection_history st) = true.

(** What every operation keeps of the files: the cache is the cache file
    read back, the aliases are the alias file. *)
Definition files_inv (sv : server) : Prop :=
  FAA_CACHE (core sv) = load_faa_cache (faa_cache_file (core sv))
  /\ aliases_json sv = ALIASES (core sv).

(** A frame with a mac, and a frame without one. *)
Definition frame_AA : frame := mkFrame fix_AA None false.

Definition heartbeat_BB : frame :=
  mkFrame
    (mkDetection (Some "BB"%string) None None None None None None None None
       None None)
    None true.

Definition frame_without_mac : frame :=
  mkFrame
    (mkDetection None None (Some (10#1)) (Some (20#1)) None None None None
       None None None)
    (Some "R9"%string) false.

(** * Theorems *)

Unset Implicit Arguments.

(** ** Dictionaries *)

Section ODictFacts.
Variables K V : Type.
Variable keqb : K -> K -> bool.
Hypothesis keqb_spec : forall a b, keqb a b = true <-> a = b.

Lemma keqb_refl : forall a, keqb a a = true.
Proof. intro a. apply keqb_spec. reflexivity. Qed.

Lemma od_get_set_same :
  forall (k : K) (v : V) d, od_get keqb k (od_set keqb k v d) = Some v.
Proof.
  intros k v d. induction d as [|[k' v'] t IH]; simpl.
  - rewrite keqb_refl. reflexivity.
  - destruct (keqb k k') eqn:E; simpl; rewrite E; [reflexivity | exact IH].
Qed.

Lemma od_get_set_other :
  forall (k k0 : K) (v : V) d,
    k0 <> k -> od_get keqb k0 (od_set keqb k v d) = od_get keqb k0 d.
Proof.
  intros k k0 v d Hne. induction d as [|[k' v'] t IH]; simpl.
  - destruct (keqb k0 k) eqn:E; [|reflexivity].
    apply keqb_spec in E. contradiction.
  - destruct (keqb k k') eqn:E; simpl.
    + apply keqb_spec in E. subst k'.
      destruct (keqb k0 k) eqn:E0; [|reflexivity].
      apply keqb_spec in E0. contradiction.
    + rewrite IH. reflexivity.
Qed.
End ODictFacts.

Lemma key_eqb_spec : forall a b, key_eqb a b = true <-> a = b.
Proof.
  intros [a1 a2] [b1 b2]. unfold key_eqb. simpl.
  rewrite andb_true_iff, !String.eqb_eq. split.
  - intros [-> ->]. reflexivity.
  - intros H. inversion H. auto.
Qed.

Lemma od_get_In :
  forall (V : Type) k (v : V) d,
    od_get String.eqb k d = Some v -> In (k, v) d.
Proof.
  intros V k v d. induction d as [|[k' v'] t IH]; simpl; [discriminate|].
  destruct (k =? k')%string eqn:E.
  - apply String.eqb_eq in E. subst k'. intros [= ->]. left. reflexivity.
  - intro H. right. apply IH. exact H.
Qed.

Lemma In_od_get :
  forall (V : Type) k (v : V) d,
    NoDup (map fst d) -> In (k, v) d -> od_get String.eqb k d = Some v.
Proof.
  intros V k v d. induction d as [|[k' v'] t IH]; simpl; [tauto|].
  intros Hnd [H|H].
  - inversion H. subst. rewrite String.eqb_refl. reflexivity.
  - inversion Hnd as [|? ? Hnotin Hnd']. subst.
    destruct (k =? k')%string eqn:E.
    + apply String.eqb_eq in E. subst k'. exfalso. apply Hnotin.
      change k with (fst (k, v)). apply in_map. exact H.
    + apply IH; assumption.
Qed.

Lemma od_first_none :
  forall (K V : Type) (p : K -> V -> bool) d,
    od_first p d = None <-> (forall k v, In (k, v) d -> p k v = false).
Proof.
  intros K V p d. induction d as [|[k v] t IH]; simpl.
  - split; [intros _ k v []|reflexivity].
  - destruct (p k v) eqn:E.
    + split; [discriminate|]. intro H. rewrite (H k v) in E;
        [discriminate | left; reflexivity].
    + rewrite IH. split.
      * intros H k0 v0 [H0|H0]; [inversion H0; subst; exact E | apply H, H0].
      * intros H k0 v0 H0. apply H. right. exact H0.
Qed.

Lemma od_first_some :
  forall (K V : Type) (p : K -> V -> bool) d v,
    od_first p d = Some v -> exists k, In (k, v) d /\ p k v = true.
Proof.
  intros K V p d v. induction d as [|[k0 v0] t IH]; simpl; [discriminate|].
  destruct (p k0 v0) eqn:E.
  - intros [= <-]. exists k0. split; [left; reflexivity | exact E].
  - intro H. destruct (IH H) as (k & Hin & Hp). exists k. split; auto.
Qed.

Lemma cache_get_In :
  forall (V : Type) k (v : V) d,
    od_get key_eqb k d = Some v -> In (k, v) d.
Proof.
  intros V k v d. induction d as [|[k' v'] t IH]; simpl; [discriminate|].
  destruct (key_eqb k k') eqn:E.
  - apply key_eqb_spec in E. subst k'. intros [= ->]. left. reflexivity.
  - intro H. right. apply IH. exact H.
Qed.

Lemma tracked_get_set_same :
  forall m (d : detection) tp,
    od_get String.eqb m (od_set String.eqb m d tp) = Some d.
Proof. intros. apply od_get_set_same. apply String.eqb_eq. Qed.

Lemma cache_get_set_same :
  forall k (v : json) c, od_get key_eqb k (od_set key_eqb k v c) = Some v.
Proof. intros. apply od_get_set_same. apply key_eqb_spec. Qed.

(** ** What [update_detection] leaves in memory *)

(** The GPS branch, whatever the KML generators do afterwards. *)
Lemma gps_update_memory :
  forall e m d st,
    let d' := merge_detection e m d st in
    let st' := fst (gps_update e m d st) in
    tracked_pairs st' = od_set String.eqb m d' (tracked_pairs st)
    /\ detection_history st' = detection_history st ++ [d']
    /\ FAA_CACHE st' =
         match faa_data d' with
         | Some v =>
             od_set key_eqb (m, get_or (basic_id d') ""%string) v
               (FAA_CACHE st)
         | None => FAA_CACHE st
         end
    /\ network st' = network st
    /\ error_log st' = error_log st.
Proof.
  intros e m d st d' st'. subst st'. unfold gps_update. fold d'.
  destruct (generate_cumulative_kml _) as [cdoc|];
    [destruct (generate_kml _) as [doc|]|];
    destruct (faa_data d') as [v|]; simpl; repeat split; reflexivity.
Qed.

Lemma fire_webhook_memory :
  forall e d st,
    tracked_pairs (fire_webhook e d st) = tracked_pairs st
    /\ detection_history (fire_webhook e d st) = detection_history st
    /\ FAA_CACHE (fire_webhook e d st) = FAA_CACHE st.
Proof.
  intros e d st. unfold fire_webhook.
  destruct (WEBHOOK_URL st) as [u|]; [destruct (u =? "")%string|];
    simpl; repeat split; reflexivity.
Qed.

(** The no-GPS branch stores the detection as it came. *)
Lemma no_gps_update_memory :
  forall e m d st,
    let st' := fst (no_gps_update e m d st) in
    tracked_pairs st' = od_set String.eqb m d (tracked_pairs st)
    /\ detection_history st' = detection_history st ++ [d].
Proof.
  intros e m d st st'. subst st'. unfold no_gps_update.
  set (st1 := set_memory _ _ st).
  destruct (fire_webhook_memory e d st1) as (Ht & Hh & _).
  destruct (generate_cumulative_kml _) as [cdoc|]; simpl.
  - destruct (str_truthy (basic_id d));
      destruct (generate_kml _) as [doc|]; simpl;
      rewrite Ht, Hh; split; reflexivity.
  - rewrite Ht, Hh; split; reflexivity.
Qed.

Lemma update_detection_gps :
  forall e d st m,
    mac d = Some m -> m <> ""%string -> valid_drone d = true ->
    update_detection e d st = gps_update e m d st.
Proof.
  intros e d st m Hm Hne Hv. unfold update_detection. rewrite Hm.
  apply String.eqb_neq in Hne. rewrite Hne, Hv. reflexivity.
Qed.

Lemma update_detection_no_gps :
  forall e d st m,
    mac d = Some m -> m <> ""%string -> valid_drone d = false ->
    update_detection e d st = no_gps_update e m d st.
Proof.
  intros e d st m Hm Hne Hv. unfold update_detection. rewrite Hm.
  apply String.eqb_neq in Hne. rewrite Hne, Hv. reflexivity.
Qed.


(** The fields the merge steps leave alone. *)
Lemma merge_detection_fields :
  forall e m d st,
    let d' := merge_detection e m d st in
    mac d' = mac d
    /\ last_update d' = Some (time_time e)
    /\ drone_lat d' = Some (get_or (drone_lat d) 0)
    /\ drone_long d' = Some (get_or (drone_long d) 0)
    /\ pilot_lat d' = Some (get_or (pilot_lat d) 0)
    /\ pilot_long d' = Some (get_or (pilot_long d) 0)
    /\ basic_id d' =
         basic_id (carry_basic_id m (tracked_pairs st)
                     (stamp_position (time_time e) d)).
Proof.
  intros e m d st. unfold merge_detection.
  set (d1 := carry_basic_id _ _ _).
  assert (H1 : mac d1 = mac d /\ last_update d1 = Some (time_time e)
               /\ drone_lat d1 = Some (get_or (drone_lat d) 0)
               /\ drone_long d1 = Some (get_or (drone_long d) 0)
               /\ pilot_lat d1 = Some (get_or (pilot_lat d) 0)
               /\ pilot_long d1 = Some (get_or (pilot_long d) 0)).
  { subst d1. unfold carry_basic_id.
    destruct (negb _); [|simpl; tauto].
    destruct (od_get _ _ _) as [prev|]; [|simpl; tauto].
    destruct (str_truthy (basic_id prev)); simpl; tauto. }
  clearbody d1. simpl.
  unfold faa_previous, faa_any_mac, faa_exact.
  destruct (str_truthy (basic_id d1));
    [destruct (od_get key_eqb _ _)|]; simpl;
    repeat (match goal with
            | |- context [match ?x with _ => _ end] => destruct x; simpl
            end); tauto.
Qed.

(** A detection without a mac changes nothing. *)
Lemma update_detection_without_mac_dropped :
  forall e d st,
    mac d = None \/ mac d = Some ""%string ->
    update_detection e d st = (st, Returned).
Proof.
  intros e d st [H|H]; unfold update_detection; rewrite H; reflexivity.
Qed.

(** C8: a detection whose [mac] is missing or empty is dropped in
    silence: [update_detection] returns at once, without an error, and
    the whole state (live entries, history, cache, CSV and KML files,
    outgoing requests, error log) is what it was. *)
Theorem update_detection_without_mac :
  forall e d st,
    mac d = None \/ mac d = Some ""%string ->
    update_detection e d st = (st, Returned).
Proof.
  intros e d st H. apply update_detection_without_mac_dropped. exact H.
Qed.

Lemma update_detection_without_mac_witness :
  (mac no_detection = None \/ mac no_detection = Some ""%string)
  /\ update_detection sample_env no_detection state_AA
     = (state_AA, Returned).
Proof.
  split.
  - left. reflexivity.
  - apply (update_detection_without_mac sample_env no_detection state_AA).
    left. reflexivity.
Defined.

(** C10: on the GPS branch (mac present, both drone coordinates nonzero)
    the stored record carries [last_update = time.time()], whatever the
    caller sent, in the live entry and in the history; on the no-GPS
    branch the record is stored with the fields it came with. *)
Theorem last_update_is_server_time :
  forall e d st m,
    mac d = Some m -> m <> ""%string ->
    let st' := fst (update_detection e d st) in
    (valid_drone d = true ->
     exists d',
       od_get String.eqb m (tracked_pairs st') = Some d'
       /\ detection_history st' = detection_history st ++ [d']
       /\ last_update d' = Some (time_time e))
    /\ (valid_drone d = false ->
        od_get String.eqb m (tracked_pairs st') = Some d
        /\ detection_history st' = detection_history st ++ [d]).
Proof.
  intros e d st m Hm Hne st'. subst st'. split; intro Hv.
  - rewrite (update_detection_gps e d st m Hm Hne Hv).
    destruct (gps_update_memory e m d st) as (Ht & Hh & _).
    exists (merge_detection e m d st). rewrite Ht, Hh.
    split; [apply tracked_get_set_same|].
    split; [reflexivity|].
    apply (merge_detection_fields e m d st).
  - rewrite (update_detection_no_gps e d st m Hm Hne Hv).
    destruct (no_gps_update_memory e m d st) as (Ht & Hh).
    rewrite Ht, Hh. split; [apply tracked_get_set_same | reflexivity].
Qed.

Lemma last_update_is_server_time_witness :
  exists d',
    od_get String.eqb "AA"%string
      (tracked_pairs (fst (update_detection sample_env fix_AA state_AA)))
    = Some d'
    /\ last_update d' = Some 1000.
Proof.
  assert (Hm : mac fix_AA = Some "AA"%string) by reflexivity.
  assert (Hne : "AA"%string <> ""%string) by discriminate.
  destruct (last_update_is_server_time sample_env fix_AA state_AA
              "AA"%string Hm Hne)
    as [Hgps _].
  destruct (Hgps eq_refl) as (d' & Ht & _ & Hl).
  exists d'. split; [exact Ht | exact Hl].
Defined.

(** ** Remote id and registry data across updates *)

Lemma carry_basic_id_keeps :
  forall m tp d prev x,
    od_get String.eqb m tp = Some prev ->
    basic_id prev = Some x -> x <> ""%string ->
    str_truthy (basic_id d) = false ->
    basic_id (carry_basic_id m tp d) = Some x.
Proof.
  intros m tp d prev x Hget Hb Hx Hd. unfold carry_basic_id.
  rewrite Hd, Hget. simpl. rewrite Hb. simpl.
  apply String.eqb_neq in Hx. rewrite Hx. reflexivity.
Qed.

(** C1 (amended): on the GPS branch a detection without a remote id
    takes over the non-empty remote id of the live entry of its mac. *)
Theorem gps_update_keeps_basic_id :
  forall e d st m prev x,
    mac d = Some m -> m <> ""%string -> valid_drone d = true ->
    od_get String.eqb m (tracked_pairs st) = Some prev ->
    basic_id prev = Some x -> x <> ""%string ->
    str_truthy (basic_id d) = false ->
    exists d',
      od_get String.eqb m
        (tracked_pairs (fst (update_detection e d st))) = Some d'
      /\ basic_id d' = Some x.
Proof.
  intros e d st m prev x Hm Hne Hv Hget Hb Hx Hd.
  rewrite (update_detection_gps e d st m Hm Hne Hv).
  destruct (gps_update_memory e m d st) as (Ht & _).
  exists (merge_detection e m d st). rewrite Ht.
  split; [apply tracked_get_set_same|].
  destruct (merge_detection_fields e m d st) as (_ & _ & _ & _ & _ & _ & Hbid).
  rewrite Hbid.
  apply (carry_basic_id_keeps m (tracked_pairs st) _ prev x Hget Hb Hx).
  exact Hd.
Qed.

Lemma gps_update_keeps_basic_id_witness :
  exists d',
    od_get String.eqb "AA"%string
      (tracked_pairs (fst (update_detection sample_env fix_AA state_AA)))
    = Some d'
    /\ basic_id d' = Some "R1"%string.
Proof.
  apply (gps_update_keeps_basic_id sample_env fix_AA state_AA "AA"%string
           tracked_AA "R1"%string);
    solve [reflexivity | discriminate].
Defined.

(** C1 as stated fails on the no-GPS branch: the live entry of AA has
    remote id R1, the detection has none and no position, and afterwards
    the live entry has no remote id. *)
Lemma no_gps_update_drops_basic_id :
  option_map basic_id (od_get String.eqb "AA"%string (tracked_pairs state_AA))
  = Some (Some "R1"%string)
  /\ mac nofix_AA = Some "AA"%string
  /\ basic_id nofix_AA = None
  /\ option_map basic_id
       (od_get String.eqb "AA"%string
          (tracked_pairs (fst (update_detection sample_env nofix_AA state_AA))))
     = Some None.
Proof. repeat split; vm_compute; reflexivity. Qed.

(** ** The registry cascade of the GPS branch *)

Lemma carry_basic_id_faa :
  forall m tp d, faa_data (carry_basic_id m tp d) = faa_data d.
Proof.
  intros m tp d. unfold carry_basic_id.
  destruct (negb _); [|reflexivity].
  destruct (od_get _ _ _) as [prev|]; [|reflexivity].
  destruct (str_truthy (basic_id prev)); reflexivity.
Qed.

Lemma merge_detection_faa :
  forall e m d st,
    let d' := merge_detection e m d st in
    faa_data d' =
      match faa_data d with
      | None =>
          faa_cascade m (basic_id d') (FAA_CACHE st)
            (od_get String.eqb m (tracked_pairs st))
      | Some own =>
          Some (get_or (cache_exact m (basic_id d') (FAA_CACHE st)) own)
      end.
Proof.
  intros e m d st d'.
  destruct (merge_detection_fields e m d st) as (_ & _ & _ & _ & _ & _ & Hb).
  fold d' in Hb. rewrite Hb. subst d'. unfold merge_detection.
  set (d1 := carry_basic_id _ _ _).
  assert (Hf : faa_data d1 = faa_data d).
  { subst d1. rewrite carry_basic_id_faa. reflexivity. }
  clearbody d1. rewrite <- Hf.
  unfold faa_cascade, cache_exact.
  assert (Hex : faa_exact m (FAA_CACHE st) d1 =
                match (if str_truthy (basic_id d1)
                       then od_get key_eqb (m, get_or (basic_id d1) ""%string)
                              (FAA_CACHE st)
                       else None) with
                | Some v => set_faa_data v d1
                | None => d1
                end).
  { unfold faa_exact. destruct (str_truthy (basic_id d1)); reflexivity. }
  rewrite Hex. clear Hex.
  destruct (if str_truthy (basic_id d1) then _ else None) as [v|].
  - unfold faa_previous, faa_any_mac. simpl.
    destruct (faa_data d1); reflexivity.
  - unfold faa_previous, faa_any_mac.
    destruct (faa_data d1) as [own|] eqn:E.
    + repeat (rewrite E; simpl). reflexivity.
    + destruct (od_first _ _) as [v|]; simpl; [reflexivity|].
      repeat (rewrite E; simpl).
      destruct (od_get String.eqb m (tracked_pairs st)) as [prev|];
        [destruct (faa_data prev)|]; simpl; auto.
Qed.

(** The remote id of the merged record of the GPS branch: the
    detection's own when it has one, else the previous entry's. *)
Lemma merge_detection_basic_id :
  forall e m d st prev,
    od_get String.eqb m (tracked_pairs st) = Some prev ->
    basic_id (merge_detection e m d st) =
      if str_truthy (basic_id d) then basic_id d
      else if str_truthy (basic_id prev) then basic_id prev
      else basic_id d.
Proof.
  intros e m d st prev Hget.
  destruct (merge_detection_fields e m d st) as (_ & _ & _ & _ & _ & _ & Hb).
  rewrite Hb. unfold carry_basic_id. rewrite Hget. simpl.
  destruct (str_truthy (basic_id d)) eqn:Ed; simpl; [reflexivity|].
  destruct (basic_id prev) as [x|]; simpl; [|reflexivity].
  destruct (x =? "")%string; reflexivity.
Qed.

(** C2 (amended): on the GPS branch a detection without registry data
    leaves the live entry of its mac with registry data when the previous
    entry had some, and the value is named: with [rid] the remote id of
    the stored record (the detection's own, else the previous entry's), it
    is the cache entry of the key [(mac, rid)]; failing that the first
    cache entry of the mac; failing that the value [v0] of the previous
    entry.  The previous value is carried forward when the cache holds
    nothing for the mac, and replaced by the cached one otherwise; every
    other value is a cache entry of this mac. *)
Theorem gps_update_keeps_faa_data :
  forall e d st m prev v0,
    mac d = Some m -> m <> ""%string -> valid_drone d = true ->
    od_get String.eqb m (tracked_pairs st) = Some prev ->
    faa_data prev = Some v0 ->
    faa_data d = None ->
    let rid :=
      if str_truthy (basic_id d) then basic_id d
      else if str_truthy (basic_id prev) then basic_id prev
      else basic_id d in
    exists d' v,
      od_get String.eqb m
        (tracked_pairs (fst (update_detection e d st))) = Some d'
      /\ basic_id d' = rid
      /\ faa_data d' = Some v
      /\ v = match cache_exact m rid (FAA_CACHE st) with
             | Some c => c
             | None =>
                 match od_first (fun k _ => (fst k =? m)%string)
                         (FAA_CACHE st) with
                 | Some c => c
                 | None => v0
                 end
             end
      /\ ((forall k c, In (k, c) (FAA_CACHE st) -> fst k <> m) -> v = v0)
      /\ (v = v0 \/ exists k, In (k, v) (FAA_CACHE st) /\ fst k = m).
Proof.
  intros e d st m prev v0 Hm Hne Hv Hget Hf Hd rid.
  rewrite (update_detection_gps e d st m Hm Hne Hv).
  destruct (gps_update_memory e m d st) as (Ht & _).
  pose proof (merge_detection_faa e m d st) as Hfaa. cbv zeta in Hfaa.
  pose proof (merge_detection_basic_id e m d st prev Hget) as Hb.
  fold rid in Hb.
  rewrite Hd, Hb, Hget in Hfaa. unfold faa_cascade in Hfaa.
  rewrite Hf in Hfaa.
  exists (merge_detection e m d st).
  exists (match cache_exact m rid (FAA_CACHE st) with
          | Some c => c
          | None =>
              match od_first (fun k _ => (fst k =? m)%string)
                      (FAA_CACHE st) with
              | Some c => c
              | None => v0
              end
          end).
  rewrite Ht.
  split; [apply tracked_get_set_same|].
  split; [exact Hb|].
  split.
  { rewrite Hfaa. destruct (cache_exact _ _ _); [reflexivity|].
    destruct (od_first _ _); reflexivity. }
  split; [reflexivity|].
  split.
  - intro Hnone.
    destruct (cache_exact m rid (FAA_CACHE st)) as [c|] eqn:Ec.
    + exfalso. unfold cache_exact in Ec.
      destruct (str_truthy rid); [|discriminate].
      apply cache_get_In in Ec.
      apply (Hnone _ _ Ec). reflexivity.
    + destruct (od_first _ _) as [c|] eqn:Eo; [|reflexivity].
      exfalso. apply od_first_some in Eo.
      destruct Eo as (k & Hin & Hk).
      apply (Hnone _ _ Hin). apply String.eqb_eq. exact Hk.
  - destruct (cache_exact m rid (FAA_CACHE st)) as [c|] eqn:Ec.
    + right. unfold cache_exact in Ec.
      destruct (str_truthy rid); [|discriminate].
      apply cache_get_In in Ec.
      eexists. split; [exact Ec | reflexivity].
    + destruct (od_first _ _) as [c|] eqn:Eo; [|left; reflexivity].
      right. apply od_first_some in Eo.
      destruct Eo as (k & Hin & Hk).
      exists k. split; [exact Hin | apply String.eqb_eq; exact Hk].
Qed.

Lemma gps_update_keeps_faa_data_witness :
  exists d' v,
    od_get String.eqb "AA"%string
      (tracked_pairs
         (fst (update_detection sample_env fix_AA state_live_and_cached)))
    = Some d'
    /\ basic_id d' = Some "R1"%string
    /\ faa_data d' = Some v
    /\ v = faa_Y.
Proof.
  destruct (gps_update_keeps_faa_data sample_env fix_AA state_live_and_cached
              "AA"%string tracked_AA faa_X)
    as (d' & v & Hget & Hb & Hf & Hv & _);
    try solve [reflexivity | discriminate].
  exists d', v. repeat split; assumption.
Defined.

(** Without a cache entry for the mac, the registry data of the previous
    entry is carried forward. *)
Example gps_update_carries_faa_data_forward :
  option_map faa_data
    (od_get String.eqb "AA"%string
       (tracked_pairs (fst (update_detection sample_env fix_AA state_AA))))
  = Some (Some faa_X).
Proof. vm_compute. reflexivity. Qed.

(** C2 as stated fails on the no-GPS branch: the live entry of AA has
    registry data, the detection has none and no position, and afterwards
    the live entry has none. *)
Lemma no_gps_update_drops_faa_data :
  option_map faa_data (od_get String.eqb "AA"%string (tracked_pairs state_AA))
  = Some (Some faa_X)
  /\ mac nofix_AA = Some "AA"%string
  /\ faa_data nofix_AA = None
  /\ option_map faa_data
       (od_get String.eqb "AA"%string
          (tracked_pairs (fst (update_detection sample_env nofix_AA state_AA))))
     = Some None.
Proof. repeat split; vm_compute; reflexivity. Qed.

(** C5 (amended): on the GPS branch the registry data of the stored
    record is, for a detection that came without any, the first of: the
    cache entry of the exact key (mac, remote id); the first cache entry
    of the mac; the data of the previous live entry.  A detection that
    brings its own data keeps it unless the exact key is cached.  What is
    resolved is written to the cache under (mac, remote id or the empty
    string); when nothing is resolved the cache is left alone. *)
Theorem faa_resolution_cascade :
  forall e d st m,
    mac d = Some m -> m <> ""%string -> valid_drone d = true ->
    let st' := fst (update_detection e d st) in
    exists d',
      od_get String.eqb m (tracked_pairs st') = Some d'
      /\ faa_data d' =
           match faa_data d with
           | None =>
               faa_cascade m (basic_id d') (FAA_CACHE st)
                 (od_get String.eqb m (tracked_pairs st))
           | Some own =>
               Some (get_or (cache_exact m (basic_id d') (FAA_CACHE st)) own)
           end
      /\ (forall v,
            faa_data d' = Some v ->
            od_get key_eqb (m, get_or (basic_id d') ""%string) (FAA_CACHE st')
            = Some v)
      /\ (faa_data d' = None -> FAA_CACHE st' = FAA_CACHE st).
Proof.
  intros e d st m Hm Hne Hv st'. subst st'.
  rewrite (update_detection_gps e d st m Hm Hne Hv).
  destruct (gps_update_memory e m d st) as (Ht & _ & Hc & _).
  exists (merge_detection e m d st). rewrite Ht, Hc.
  split; [apply tracked_get_set_same|].
  split; [apply merge_detection_faa|].
  split.
  - intros v Hfaa. rewrite Hfaa. apply cache_get_set_same.
  - intros Hfaa. rewrite Hfaa. reflexivity.
Qed.

Lemma faa_resolution_cascade_witness :
  exists d',
    od_get String.eqb "AA"%string
      (tracked_pairs (fst (update_detection sample_env fix_AA state_cached)))
    = Some d'
    /\ faa_data d' = Some faa_Y.
Proof.
  assert (Hm : mac fix_AA = Some "AA"%string) by reflexivity.
  assert (Hne : "AA"%string <> ""%string) by discriminate.
  assert (Hv : valid_drone fix_AA = true) by reflexivity.
  destruct (faa_resolution_cascade sample_env fix_AA state_cached
              "AA"%string Hm Hne Hv) as (d' & Ht & Hf & _).
  exists d'. split; [exact Ht|].
  rewrite Hf. simpl.
  assert (Hd : Some d' = Some (merge_detection sample_env "AA"%string fix_AA
                                 state_cached)).
  { rewrite <- Ht. vm_compute. reflexivity. }
  injection Hd as ->. vm_compute. reflexivity.
Defined.

(** C5 as stated fails for a detection that brings registry data: mac AA
    has no exact cache entry but is cached under remote id R2, so the
    cascade of the claim resolves to that entry; the stored record keeps
    the data the detection came with. *)
Lemma own_faa_data_beats_mac_fallback :
  valid_drone fix_AA_own = true
  /\ faa_cascade "AA"%string (basic_id fix_AA_own) (FAA_CACHE state_cached)
       (od_get String.eqb "AA"%string (tracked_pairs state_cached))
     = Some faa_Y
  /\ option_map faa_data
       (od_get String.eqb "AA"%string
          (tracked_pairs
             (fst (update_detection sample_env fix_AA_own state_cached))))
     = Some (Some faa_X)
  /\ faa_X <> faa_Y.
Proof.
  repeat split; try (vm_compute; reflexivity). discriminate.
Qed.

(** ** The server-side webhook *)

Lemma no_gps_update_world :
  forall e m d st,
    let st' := fst (no_gps_update e m d st) in
    network st' = network (fire_webhook e d st)
    /\ error_log st' = error_log (fire_webhook e d st)
    /\ session_csv st' =
         session_csv st
           ++ [detection_row (now_session e) (ALIASES st) m
                 (Some (get_or (drone_lat d) 0))
                 (Some (get_or (drone_long d) 0)) d]
    /\ cumulative_csv st' =
         cumulative_csv st
           ++ [detection_row (now_cumulative e) (ALIASES st) m
                 (Some (get_or (drone_lat d) 0))
                 (Some (get_or (drone_long d) 0)) d].
Proof.
  intros e m d st st'. subst st'. unfold no_gps_update.
  set (st1 := set_memory _ _ st).
  assert (Hw : network (fire_webhook e d st1) = network (fire_webhook e d st)
               /\ error_log (fire_webhook e d st1)
                  = error_log (fire_webhook e d st)
               /\ session_csv (fire_webhook e d st1) = session_csv st
               /\ cumulative_csv (fire_webhook e d st1) = cumulative_csv st
               /\ ALIASES (fire_webhook e d st1) = ALIASES st).
  { subst st1. unfold fire_webhook. simpl.
    destruct (WEBHOOK_URL st) as [u|]; [destruct (u =? "")%string|];
      simpl; repeat split; reflexivity. }
  destruct Hw as (Hn & Hl & Hs & Hc & Ha).
  destruct (generate_cumulative_kml _) as [cdoc|]; simpl.
  - destruct (str_truthy (basic_id d));
      destruct (generate_kml _) as [doc|]; simpl;
      rewrite Hn, Hl, Hs, Hc, Ha; repeat split; reflexivity.
  - rewrite Hn, Hl, Hs, Hc, Ha; repeat split; reflexivity.
Qed.

(** C6 (amended): with a webhook URL set, a detection of the no-GPS
    branch is posted to that URL with a timeout of 5 seconds; when the
    post fails the error is logged, and in both cases the update goes on
    (live entry, history and both CSV rows are written).  A detection of
    the GPS branch is not posted by the server. *)
Theorem webhook_fires_without_gps_only :
  forall e d st m url,
    mac d = Some m -> m <> ""%string ->
    WEBHOOK_URL st = Some url -> url <> ""%string ->
    let st' := fst (update_detection e d st) in
    (valid_drone d = false ->
     network st' = network st ++ [mkPost url d 5]
     /\ error_log st' =
          (if post_ok e then error_log st
           else error_log st ++ ["Server webhook error"%string])
     /\ od_get String.eqb m (tracked_pairs st') = Some d
     /\ detection_history st' = detection_history st ++ [d]
     /\ session_csv st' =
          session_csv st
            ++ [detection_row (now_session e) (ALIASES st) m
                  (Some (get_or (drone_lat d) 0))
                  (Some (get_or (drone_long d) 0)) d]
     /\ cumulative_csv st' =
          cumulative_csv st
            ++ [detection_row (now_cumulative e) (ALIASES st) m
                  (Some (get_or (drone_lat d) 0))
                  (Some (get_or (drone_long d) 0)) d])
    /\ (valid_drone d = true ->
        network st' = network st /\ error_log st' = error_log st).
Proof.
  intros e d st m url Hm Hne Hurl Hu st'. subst st'. split; intro Hv.
  - rewrite (update_detection_no_gps e d st m Hm Hne Hv).
    destruct (no_gps_update_world e m d st) as (Hn & Hl & Hs & Hc).
    destruct (no_gps_update_memory e m d st) as (Ht & Hh).
    rewrite Hn, Hl, Hs, Hc, Ht, Hh. unfold fire_webhook. rewrite Hurl.
    apply String.eqb_neq in Hu. rewrite Hu. simpl.
    repeat split; try reflexivity.
    apply tracked_get_set_same.
  - rewrite (update_detection_gps e d st m Hm Hne Hv).
    destruct (gps_update_memory e m d st) as (_ & _ & _ & Hn & Hl).
    split; assumption.
Qed.

Lemma webhook_fires_without_gps_only_witness :
  network (fst (update_detection sample_env nofix_AA state_cached))
  = [mkPost "http://hook"%string nofix_AA 5].
Proof.
  assert (Hm : mac nofix_AA = Some "AA"%string) by reflexivity.
  assert (Hne : "AA"%string <> ""%string) by discriminate.
  assert (Hurl : WEBHOOK_URL state_cached = Some "http://hook"%string)
    by reflexivity.
  assert (Hu : "http://hook"%string <> ""%string) by discriminate.
  destruct (webhook_fires_without_gps_only sample_env nofix_AA state_cached
              "AA"%string "http://hook"%string Hm Hne Hurl Hu) as [Hno _].
  destruct (Hno eq_refl) as (Hn & _). exact Hn.
Defined.

(** C6 as stated fails on the GPS branch: a webhook URL is set, the
    detection has a position, and nothing is posted. *)
Lemma gps_update_posts_nothing :
  WEBHOOK_URL state_cached = Some "http://hook"%string
  /\ valid_drone fix_AA = true
  /\ snd (update_detection sample_env fix_AA state_cached) = Returned
  /\ network (fst (update_detection sample_env fix_AA state_cached)) = [].
Proof. repeat split; vm_compute; reflexivity. Qed.

(** ** GET /api/faa/<identifier> *)

Lemma faa_by_basic_id_none :
  forall identifier tp,
    faa_by_basic_id identifier tp = None <->
    (forall k det, In (k, det) tp -> basic_id det = Some identifier ->
                   faa_data det = None).
Proof.
  intros identifier tp. induction tp as [|[k det] t IH]; simpl.
  - split; [intros _ k det []|reflexivity].
  - destruct (get_is identifier (basic_id det)) eqn:E.
    + destruct (faa_data det) as [v|] eqn:F.
      * split; [discriminate|]. intro H.
        assert (Hb : basic_id det = Some identifier).
        { unfold get_is in E. destruct (basic_id det) as [s|];
            [|discriminate]. apply String.eqb_eq in E. subst. reflexivity. }
        rewrite (H k det (or_introl eq_refl) Hb) in F. discriminate.
      * rewrite IH. split.
        -- intros H k0 d0 [H0|H0] Hb;
             [inversion H0; subst; exact F | apply (H k0 d0 H0 Hb)].
        -- intros H k0 d0 H0 Hb. apply (H k0 d0); [right; exact H0 | exact Hb].
    + rewrite IH. split.
      * intros H k0 d0 [H0|H0] Hb.
        -- inversion H0; subst. rewrite Hb in E. simpl in E.
           rewrite String.eqb_refl in E. discriminate.
        -- apply (H k0 d0 H0 Hb).
      * intros H k0 d0 H0 Hb. apply (H k0 d0); [right; exact H0 | exact Hb].
Qed.

Lemma faa_by_basic_id_some :
  forall identifier tp v,
    faa_by_basic_id identifier tp = Some v ->
    exists k det,
      In (k, det) tp /\ basic_id det = Some identifier
      /\ faa_data det = Some v.
Proof.
  intros identifier tp v. induction tp as [|[k det] t IH]; simpl;
    [discriminate|].
  destruct (get_is identifier (basic_id det)) eqn:E.
  - destruct (faa_data det) as [v'|] eqn:F.
    + intros [= <-]. exists k, det. split; [left; reflexivity|].
      split; [|exact F].
      unfold get_is in E. destruct (basic_id det) as [s|]; [|discriminate].
      apply String.eqb_eq in E. subst. reflexivity.
    + intro H. destruct (IH H) as (k0 & d0 & Hin & Hb & Hf).
      exists k0, d0. auto.
  - intro H. destruct (IH H) as (k0 & d0 & Hin & Hb & Hf).
    exists k0, d0. auto.
Qed.

Lemma hd_error_app :
  forall (A : Type) (a b : list A),
    hd_error (a ++ b) =
      match hd_error a with
      | Some x => Some x
      | None => hd_error b
      end.
Proof. intros A [|x a] b; reflexivity. Qed.

Lemma live_payloads_other_macs :
  forall identifier tp,
    ~ In identifier (map fst tp) ->
    live_payloads (fun m _ => (m =? identifier)%string) tp = [].
Proof.
  intros identifier tp. induction tp as [|[k det] t IH]; simpl;
    [reflexivity|].
  intro H. rewrite IH by tauto.
  destruct (faa_data det); [|reflexivity].
  destruct (k =? identifier)%string eqn:E; [|reflexivity].
  apply String.eqb_eq in E. tauto.
Qed.

Lemma faa_by_mac_first :
  forall identifier tp,
    NoDup (map fst tp) ->
    faa_by_mac identifier tp =
      hd_error (live_payloads (fun m _ => (m =? identifier)%string) tp).
Proof.
  intros identifier tp. unfold faa_by_mac.
  induction tp as [|[k det] t IH]; simpl; [reflexivity|].
  intro Hnd. inversion Hnd as [|? ? Hnotin Hnd']. subst.
  rewrite (String.eqb_sym k identifier).
  destruct (identifier =? k)%string eqn:E.
  - apply String.eqb_eq in E. subst k.
    rewrite (live_payloads_other_macs identifier t Hnotin).
    destruct (faa_data det); reflexivity.
  - rewrite (IH Hnd'). destruct (faa_data det); reflexivity.
Qed.

Lemma faa_by_basic_id_first :
  forall identifier tp,
    faa_by_basic_id identifier tp =
      hd_error (live_payloads (fun _ det => has_remote_id identifier det) tp).
Proof.
  intros identifier tp. induction tp as [|[k det] t IH]; simpl;
    [reflexivity|].
  unfold has_remote_id, get_is.
  destruct (basic_id det) as [rid|]; simpl.
  - destruct (rid =? identifier)%string; destruct (faa_data det);
      simpl; auto.
  - destruct (faa_data det); simpl; auto.
Qed.

Lemma od_first_cached :
  forall (p : string * string -> bool) (cache : odict (string * string) json),
    od_first (fun k _ => p k) cache = hd_error (cached_payloads p cache).
Proof.
  intros p cache. unfold cached_payloads.
  induction cache as [|[k v] t IH]; simpl; [reflexivity|].
  destruct (p k); simpl; auto.
Qed.

(** C7: the handler changes nothing in the state (in particular it sends
    no request); it answers with the first of the candidates, which are,
    in this order, the registry data of the live entry of the mac
    [identifier], of the live entries whose remote id is [identifier], of
    the cache entries whose remote id is [identifier] and of the cache
    entries whose mac is [identifier]; and it answers 404 exactly when no
    live entry with that mac or remote id carries registry data and no
    cache key has that mac or remote id. *)
Theorem api_get_faa_cascade :
  forall identifier st,
    NoDup (map fst (tracked_pairs st)) ->
    fst (api_get_faa identifier st) = st
    /\ snd (api_get_faa identifier st) =
         match
           hd_error
             (faa_candidates identifier (tracked_pairs st) (FAA_CACHE st))
         with
         | Some v => Ok200 v
         | None => NotFound404
         end
    /\ (snd (api_get_faa identifier st) = NotFound404 <->
        (forall k det,
           In (k, det) (tracked_pairs st) ->
           k = identifier \/ basic_id det = Some identifier ->
           faa_data det = None)
        /\ (forall k v,
              In (k, v) (FAA_CACHE st) ->
              fst k <> identifier /\ snd k <> identifier)).
Proof.
  intros identifier st Hnd.
  assert (Hfst : fst (api_get_faa identifier st) = st).
  { unfold api_get_faa.
    repeat (match goal with
            | |- context [match ?x with _ => _ end] => destruct x
            end); reflexivity. }
  assert (Hsnd : snd (api_get_faa identifier st) =
                 match
                   first_some
                     [faa_by_mac identifier (tracked_pairs st);
                      faa_by_basic_id identifier (tracked_pairs st);
                      cache_by_remote_id identifier (FAA_CACHE st);
                      cache_by_mac identifier (FAA_CACHE st)]
                 with
                 | Some v => Ok200 v
                 | None => NotFound404
                 end).
  { unfold api_get_faa, first_some.
    repeat (match goal with
            | |- context [match ?x with _ => _ end] => destruct x
            end); reflexivity. }
  split; [exact Hfst|]. split.
  { unfold api_get_faa, faa_candidates, cache_by_remote_id, cache_by_mac.
    rewrite !hd_error_app.
    rewrite <- (faa_by_mac_first identifier (tracked_pairs st) Hnd).
    rewrite <- (faa_by_basic_id_first identifier (tracked_pairs st)).
    rewrite <- (od_first_cached (fun k => (snd k =? identifier)%string)).
    rewrite <- (od_first_cached (fun k => (fst k =? identifier)%string)).
    destruct (faa_by_mac _ _); [reflexivity|].
    destruct (faa_by_basic_id _ _); [reflexivity|].
    destruct (od_first _ _); [reflexivity|].
    destruct (od_first _ _); reflexivity. }
  rewrite Hsnd. simpl. split.
  - intro H404.
    destruct (faa_by_mac identifier (tracked_pairs st)) eqn:E1;
      [discriminate|].
    destruct (faa_by_basic_id identifier (tracked_pairs st)) eqn:E2;
      [discriminate|].
    destruct (cache_by_remote_id identifier (FAA_CACHE st)) eqn:E3;
      [discriminate|].
    destruct (cache_by_mac identifier (FAA_CACHE st)) eqn:E4;
      [discriminate|].
    split.
    + intros k det Hin [Hk|Hb].
      * subst k. unfold faa_by_mac in E1.
        rewrite (In_od_get _ identifier det _ Hnd Hin) in E1. exact E1.
      * apply (proj1 (faa_by_basic_id_none identifier _) E2 k det Hin Hb).
    + intros k v Hin. split; intro Heq.
      * pose proof (proj1 (od_first_none _ _ _ _) E4 k v Hin) as Hp.
        simpl in Hp. apply String.eqb_neq in Hp. contradiction.
      * pose proof (proj1 (od_first_none _ _ _ _) E3 k v Hin) as Hp.
        simpl in Hp. apply String.eqb_neq in Hp. contradiction.
  - intros [Hlive Hcache].
    assert (E1 : faa_by_mac identifier (tracked_pairs st) = None).
    { unfold faa_by_mac.
      destruct (od_get String.eqb identifier (tracked_pairs st)) as [det|]
        eqn:E; [|reflexivity].
      apply od_get_In in E. apply (Hlive identifier det E). left. reflexivity. }
    assert (E2 : faa_by_basic_id identifier (tracked_pairs st) = None).
    { apply faa_by_basic_id_none. intros k det Hin Hb.
      apply (Hlive k det Hin). right. exact Hb. }
    assert (E3 : cache_by_remote_id identifier (FAA_CACHE st) = None).
    { apply od_first_none. intros k v Hin. apply String.eqb_neq.
      apply (Hcache k v Hin). }
    assert (E4 : cache_by_mac identifier (FAA_CACHE st) = None).
    { apply od_first_none. intros k v Hin. apply String.eqb_neq.
      apply (Hcache k v Hin). }
    rewrite E1, E2, E3, E4. reflexivity.
Qed.

Lemma api_get_faa_cascade_witness :
  snd (api_get_faa "AA"%string state_live_and_cached) = Ok200 faa_X
  /\ snd (api_get_faa "R2"%string state_live_and_cached) = Ok200 faa_Y
  /\ snd (api_get_faa "ZZ"%string state_live_and_cached) = NotFound404.
Proof.
  assert (Hnd : NoDup (map fst (tracked_pairs state_live_and_cached))).
  { simpl. constructor; [intros [] | constructor]. }
  destruct (api_get_faa_cascade "AA"%string state_live_and_cached Hnd)
    as (_ & Ha & _).
  destruct (api_get_faa_cascade "R2"%string state_live_and_cached Hnd)
    as (_ & Hr & _).
  destruct (api_get_faa_cascade "ZZ"%string state_live_and_cached Hnd)
    as (_ & Hz & _).
  rewrite Ha, Hr, Hz. repeat split.
Defined.

(** ** GET /api/paths *)

Lemma point_eqb_refl : forall p, point_eqb p p = true.
Proof.
  intros [a b]. unfold point_eqb. simpl. rewrite !Qeq_bool_refl. reflexivity.
Qed.

Lemma point_eqb_sym : forall p q, point_eqb p q = point_eqb q p.
Proof.
  intros [a b] [c d]. unfold point_eqb. simpl.
  rewrite (Qeq_bool_comm a c), (Qeq_bool_comm b d). reflexivity.
Qed.

Lemma point_eqb_trans :
  forall p q r,
    point_eqb p q = true -> point_eqb q r = true -> point_eqb p r = true.
Proof.
  intros [a b] [c d] [x y]. unfold point_eqb. simpl.
  rewrite !andb_true_iff. intros [H1 H2] [H3 H4]. split.
  - apply (Qeq_bool_trans _ _ _ H1 H3).
  - apply (Qeq_bool_trans _ _ _ H2 H4).
Qed.

(** Equal points are interchangeable on the right of a comparison. *)
Lemma point_eqb_congr :
  forall p q r, point_eqb q r = true -> point_eqb p q = point_eqb p r.
Proof.
  intros p q r Hqr. destruct (point_eqb p q) eqn:E1.
  - symmetry. apply (point_eqb_trans _ _ _ E1 Hqr).
  - destruct (point_eqb p r) eqn:E2; [|reflexivity].
    rewrite point_eqb_sym in Hqr.
    rewrite (point_eqb_trans _ _ _ E2 Hqr) in E1. discriminate.
Qed.

(** The loop compares with the last point kept, the description with the
    point just before: the same, since the points skipped in between are
    equal to the last point kept. *)
Lemma dedupe_from_collapse :
  forall l prev before,
    point_eqb before prev = true ->
    dedupe_from prev l = collapse_after before l.
Proof.
  induction l as [|p t IH]; intros prev before Heq; simpl; [reflexivity|].
  rewrite point_eqb_sym in Heq.
  rewrite (point_eqb_congr p prev before Heq).
  destruct (point_eqb p before) eqn:E.
  - apply IH. apply (point_eqb_trans p before prev E).
    rewrite point_eqb_sym. exact Heq.
  - f_equal. apply IH. apply point_eqb_refl.
Qed.

Lemma dedupe_collapse_runs : forall l, dedupe l = collapse_runs l.
Proof.
  intros [|p t]; simpl; [reflexivity|]. f_equal.
  apply dedupe_from_collapse. apply point_eqb_refl.
Qed.

Lemma dedupe_from_distinct :
  forall l prev, adjacent_distinct (prev :: dedupe_from prev l).
Proof.
  induction l as [|p t IH]; intro prev; simpl; [exact I|].
  destruct (point_eqb p prev) eqn:E.
  - apply IH.
  - split; [exact E | apply IH].
Qed.

Lemma dedupe_distinct : forall l, adjacent_distinct (dedupe l).
Proof.
  intros [|p t]; [exact I|]. apply dedupe_from_distinct.
Qed.

Lemma path_append_get :
  forall m m0 p paths,
    od_get String.eqb m (path_append m0 p paths) =
    if (m =? m0)%string
    then Some (get_or (od_get String.eqb m paths) [] ++ [p])
    else od_get String.eqb m paths.
Proof.
  intros m m0 p paths. unfold path_append.
  destruct (m =? m0)%string eqn:E.
  - apply String.eqb_eq in E. subst m0.
    apply od_get_set_same. apply String.eqb_eq.
  - apply String.eqb_neq in E.
    apply od_get_set_other; [apply String.eqb_eq | exact E].
Qed.

Lemma dedupe_all_get :
  forall m paths,
    od_get String.eqb m (dedupe_all paths) =
    option_map dedupe (od_get String.eqb m paths).
Proof.
  intros m paths. induction paths as [|[k v] t IH]; simpl; [reflexivity|].
  destruct (m =? k)%string; [reflexivity | exact IH].
Qed.

Lemma path_extend_step :
  forall old p new,
    path_extend (Some (get_or old [] ++ [p])) new = path_extend old (p :: new).
Proof.
  intros old p [|q new]; simpl; [reflexivity|].
  rewrite <- app_assoc. reflexivity.
Qed.

Lemma collect_paths_get :
  forall hist drone_paths pilot_paths m,
    m <> ""%string ->
    od_get String.eqb m (fst (collect_paths hist drone_paths pilot_paths))
    = path_extend (od_get String.eqb m drone_paths) (drone_pts m hist)
    /\ od_get String.eqb m (snd (collect_paths hist drone_paths pilot_paths))
       = path_extend (od_get String.eqb m pilot_paths)
           (pilot_path_pts m hist).
Proof.
  induction hist as [|det t IH]; intros dp pp m Hm; [split; reflexivity|].
  unfold drone_pts, pilot_path_pts. simpl.
  destruct (mac det) as [m0|] eqn:Emac; simpl.
  2:{ apply IH. exact Hm. }
  destruct (m0 =? "")%string eqn:E0; simpl.
  { apply String.eqb_eq in E0. subst m0.
    assert (Hf : ("" =? m)%string = false).
    { apply String.eqb_neq. intro H. apply Hm. symmetry. exact H. }
    rewrite Hf. simpl. apply IH. exact Hm. }
  fold (valid_drone det). fold (valid_pilot det).
  match goal with
  | |- context [collect_paths t ?a ?b] =>
      destruct (IH a b m Hm) as [IHd IHp]
  end.
  rewrite IHd, IHp. clear IHd IHp.
  destruct (m0 =? m)%string eqn:Em; simpl.
  - apply String.eqb_eq in Em. subst m0. split.
    + destruct (valid_drone det); simpl; [|reflexivity].
      rewrite path_append_get, String.eqb_refl. apply path_extend_step.
    + destruct (valid_pilot det); simpl; [|reflexivity].
      rewrite path_append_get, String.eqb_refl. apply path_extend_step.
  - assert (Hf : (m =? m0)%string = false).
    { rewrite String.eqb_sym. exact Em. }
    split.
    + destruct (valid_drone det); simpl; [|reflexivity].
      rewrite path_append_get, Hf. reflexivity.
    + destruct (valid_pilot det); simpl; [|reflexivity].
      rewrite path_append_get, Hf. reflexivity.
Qed.

(** C9: for a mac [m], the drone polyline returned by [api_paths] is
    made of the history records of [m] whose drone coordinates are both
    nonzero, in history order, each run of consecutive equal points
    collapsed to one point (no polyline when there is no such record);
    the pilot polyline is made the same way from the pilot coordinates;
    and no returned polyline has two equal neighbours. *)
Theorem api_paths_polylines :
  forall st m,
    m <> ""%string ->
    od_get String.eqb m (fst (api_paths st))
    = polyline (drone_pts m (detection_history st))
    /\ od_get String.eqb m (snd (api_paths st))
       = polyline (pilot_path_pts m (detection_history st))
    /\ (forall path,
          od_get String.eqb m (fst (api_paths st)) = Some path
          \/ od_get String.eqb m (snd (api_paths st)) = Some path ->
          adjacent_distinct path).
Proof.
  intros st m Hm. unfold api_paths.
  destruct (collect_paths (detection_history st) [] []) as [dp pp] eqn:E.
  destruct (collect_paths_get (detection_history st) [] [] m Hm) as [Hd Hp].
  rewrite E in Hd, Hp. simpl in Hd, Hp. simpl.
  rewrite !dedupe_all_get, Hd, Hp.
  assert (Hpoly : forall pts,
             option_map dedupe (path_extend None pts) = polyline pts).
  { intros [|p pts]; simpl; [reflexivity|].
    f_equal. f_equal. apply dedupe_from_collapse. apply point_eqb_refl. }
  rewrite !Hpoly. split; [reflexivity|]. split; [reflexivity|].
  assert (Hdist : forall pts path,
             polyline pts = Some path -> adjacent_distinct path).
  { intros pts path H. rewrite <- Hpoly in H.
    destruct (path_extend None pts) as [l|]; simpl in H; [|discriminate].
    injection H as <-. apply dedupe_distinct. }
  intros path [H|H]; apply (Hdist _ _ H).
Qed.

Lemma api_paths_polylines_witness :
  od_get String.eqb "AA"%string (fst (api_paths state_paths))
  = Some [(10#1, 20#1); (11#1, 21#1)]
  /\ od_get String.eqb "AA"%string (snd (api_paths state_paths))
     = Some [(1#1, 2#1)].
Proof.
  assert (Hm : "AA"%string <> ""%string) by discriminate.
  destruct (api_paths_polylines state_paths "AA"%string Hm) as (Hd & Hp & _).
  rewrite Hd, Hp. split; reflexivity.
Defined.

(** ** The flight loop *)

Lemma flight_points_cons :
  forall m det rest,
    flight_points m (det :: rest) =
    if flight_sample m det
    then sample_point det :: flight_points m rest
    else flight_points m rest.
Proof.
  intros m det rest. unfold flight_points. simpl.
  destruct (flight_sample m det); reflexivity.
Qed.

Lemma flight_points_app :
  forall m h1 h2,
    flight_points m (h1 ++ h2) = flight_points m h1 ++ flight_points m h2.
Proof.
  intros m h1 h2. unfold flight_points.
  rewrite filter_app, map_app. reflexivity.
Qed.

(** The loop is the cut into flights followed by the rendering of each:
    both raise, or both give the same folders. *)
Lemma flight_loop_stages :
  forall ts_truthy thr hist m alias rest flight_idx last_ts current_flight out,
    flight_loop ts_truthy thr hist m alias rest flight_idx last_ts
      current_flight out
    = match segment ts_truthy thr (flight_points m rest) flight_idx last_ts
              current_flight with
      | None => None
      | Some segs => option_map (app out) (render hist m alias segs)
      end.
Proof.
  intros T thr hist m alias rest.
  induction rest as [|det rest' IH]; intros idx last_ts cur out.
  - simpl. destruct cur as [|p0 r]; simpl.
    + rewrite app_nil_r. reflexivity.
    + unfold flush_flight. simpl.
      destruct (flush hist m alias idx p0 r); reflexivity.
  - rewrite flight_points_cons. unfold flight_sample. simpl flight_loop.
    destruct (get_is m (s_mac det)); simpl; [|apply IH].
    destruct (num_truthy (s_lat det) && num_truthy (s_lon det))%bool; simpl;
      [|apply IH].
    change (pt_ts (sample_point det)) with (s_ts det).
    destruct (gap_break T thr last_ts (s_ts det)) as [[|]|]; [| |reflexivity].
    + destruct cur as [|p0 r]; [apply IH|].
      destruct (flush hist m alias idx p0 r) as [f|] eqn:Ef.
      * rewrite IH.
        destruct (segment T thr (flight_points m rest') (S idx) (s_ts det)
                    [sample_point det]) as [segs|]; simpl; [|reflexivity].
        unfold flush_flight at 1. simpl. rewrite Ef.
        destruct (render hist m alias segs) as [fs|]; simpl; [|reflexivity].
        rewrite <- app_assoc. reflexivity.
      * destruct (segment T thr (flight_points m rest') (S idx) (s_ts det)
                    [sample_point det]) as [segs|]; simpl; [|reflexivity].
        unfold flush_flight at 1. simpl. rewrite Ef. reflexivity.
    + apply IH.
Qed.

Lemma last_cons : forall (r : list point) q d, last (q :: r) d = last r q.
Proof.
  induction r as [|a r IH]; intros q d; [reflexivity|].
  change (last (q :: a :: r) d) with (last (a :: r) d).
  rewrite (IH a d), (IH a q). reflexivity.
Qed.

Lemma gaps_within_snoc :
  forall thr p0 r p,
    gaps_within thr ((p0 :: r) ++ [p]) =
    (gaps_within thr (p0 :: r) && negb (exceeds thr (last r p0) p))%bool.
Proof.
  intros thr p0 r. revert p0.
  induction r as [|q r IH]; intros p0 p.
  - simpl. rewrite andb_true_r. reflexivity.
  - change (gaps_within thr ((p0 :: q :: r) ++ [p]))
      with (negb (exceeds thr p0 q) && gaps_within thr ((q :: r) ++ [p]))%bool.
    rewrite IH.
    change (gaps_within thr (p0 :: q :: r))
      with (negb (exceeds thr p0 q) && gaps_within thr (q :: r))%bool.
    rewrite (last_cons r q p0), andb_assoc. reflexivity.
Qed.

Lemma last_snoc : forall (r : list point) p p0, last (r ++ [p]) p0 = p.
Proof.
  induction r as [|q r IH]; intros p p0; [reflexivity|].
  simpl. destruct (r ++ [p]) eqn:E.
  - destruct r; discriminate.
  - rewrite <- E. apply IH.
Qed.

(** With true timestamps on every point, the cut never raises, numbers
    the flights from [flight_idx] on, and cuts exactly at the steps that
    exceed the threshold. *)
Lemma segment_segmented :
  forall ts_truthy thr pts flight_idx last_ts current_flight,
    forallb (point_stamped ts_truthy) pts = true ->
    loop_inv ts_truthy thr last_ts current_flight ->
    exists segs,
      segment ts_truthy thr pts flight_idx last_ts current_flight = Some segs
      /\ segmented thr (current_flight ++ pts) (map snd segs)
      /\ map fst segs = seq flight_idx (List.length segs).
Proof.
  intros T thr pts.
  induction pts as [|p pts' IH]; intros idx last_ts cur Hst Hinv.
  - destruct cur as [|p0 r]; simpl.
    + exists []. repeat split.
    + exists [(idx, p0 :: r)]. split; [reflexivity|]. split; [|reflexivity].
      destruct Hinv as (_ & _ & Hg). unfold segmented.
      split; [reflexivity|]. split; [reflexivity|]. split; [|reflexivity].
      change (forallb (gaps_within thr) (map snd [(idx, p0 :: r)]))
        with (gaps_within thr (p0 :: r) && true)%bool.
      rewrite Hg. reflexivity.
  - simpl in Hst. apply andb_true_iff in Hst. destruct Hst as [Hp Hst].
    unfold point_stamped in Hp.
    destruct (pt_ts p) as [t|] eqn:Et; [|discriminate].
    destruct cur as [|p0 r].
    + (* first point of the mac *)
      simpl in Hinv. subst last_ts. simpl. rewrite Et. simpl.
      destruct (IH idx (Some t) [p] Hst) as (segs & Hs & Hseg & Hidx).
      { simpl. rewrite Et. split; [reflexivity|]. split; [|reflexivity].
        exists t. auto. }
      exists segs. auto.
    + destruct Hinv as (Hlast & (l & Hl & Htl) & Hg).
      simpl segment. rewrite Et, Hl. simpl. rewrite Htl.
      assert (Hex : exceeds thr (last r p0) p = Qlt_bool thr (t - l)).
      { unfold exceeds. rewrite <- Hlast, Hl, Et. reflexivity. }
      destruct (Qlt_bool thr (t - l)) eqn:Egap.
      * (* the step exceeds the threshold: flush and start a new flight *)
        destruct (IH (S idx) (Some t) [p] Hst) as (segs & Hs & Hseg & Hidx).
        { simpl. rewrite Et. split; [reflexivity|]. split; [|reflexivity].
          exists t. auto. }
        rewrite Hs. simpl. exists ((idx, p0 :: r) :: segs).
        split; [reflexivity|]. split; [|simpl; rewrite Hidx; reflexivity].
        destruct Hseg as (Hc & Hne & Hw & Hb). unfold segmented.
        change (map snd ((idx, p0 :: r) :: segs))
          with ((p0 :: r) :: map snd segs).
        destruct (map snd segs) as [|g gs] eqn:Eg; [discriminate|].
        simpl in Hne. apply andb_true_iff in Hne. destruct Hne as [Hng Hne].
        destruct g as [|q g']; [discriminate|].
        simpl in Hc. injection Hc as Hq Hc. subst q.
        split; [simpl; rewrite Hc; reflexivity|].
        split; [simpl; exact Hne|].
        split.
        -- change (forallb (gaps_within thr) ((p0 :: r) :: (p :: g') :: gs))
             with (gaps_within thr (p0 :: r)
                   && forallb (gaps_within thr) ((p :: g') :: gs))%bool.
           rewrite Hg, Hw. reflexivity.
        -- change (gaps_between thr ((p0 :: r) :: (p :: g') :: gs))
             with (exceeds thr (last r p0) p
                   && gaps_between thr ((p :: g') :: gs))%bool.
           rewrite Hex, Hb. reflexivity.
      * (* the step stays in the flight *)
        destruct (IH idx (Some t) ((p0 :: r) ++ [p]) Hst)
          as (segs & Hs & Hseg & Hidx).
        { change ((p0 :: r) ++ [p]) with (p0 :: (r ++ [p])).
          cbv beta iota delta [loop_inv].
          rewrite last_snoc, Et. split; [reflexivity|].
          split; [exists t; auto|].
          change (p0 :: (r ++ [p])) with ((p0 :: r) ++ [p]).
          rewrite gaps_within_snoc, Hg, Hex. reflexivity. }
        exists segs. split; [exact Hs|]. split; [|exact Hidx].
        rewrite <- app_assoc in Hseg. exact Hseg.
Qed.

Lemma pilot_pts_total :
  forall m start_ts e hist,
    pilot_stamped hist = true ->
    exists pp, pilot_pts m start_ts (Some e) hist = Some pp.
Proof.
  intros m start_ts e hist. induction hist as [|d t IH]; intro H.
  - exists []. reflexivity.
  - simpl in H. apply andb_true_iff in H. destruct H as [Hd Ht].
    destruct (IH Ht) as (pp & Hpp). simpl. rewrite Hpp.
    destruct (get_is m (s_mac d)); simpl; [|exists pp; reflexivity].
    destruct (num_truthy (s_plat d) && num_truthy (s_plon d))%bool eqn:E;
      simpl.
    + simpl in Hd. destruct (s_ts d) as [lu|]; [|discriminate].
      destruct (Qle_bool start_ts lu); [|exists pp; reflexivity].
      destruct (Qle_bool lu e); [|exists pp; reflexivity].
      eexists. reflexivity.
    + exists pp. reflexivity.
Qed.

(** What a rendering that does not raise returns. *)
Lemma render_view :
  forall hist m alias segs fs,
    render hist m alias segs = Some fs ->
    map folder_view fs = segs
    /\ Forall (fun f => f_mac f = m) fs.
Proof.
  intros hist m alias segs.
  induction segs as [|[idx pts] t IH]; intros fs H; simpl in H.
  - injection H as <-. split; [reflexivity | constructor].
  - unfold flush_flight in H. simpl in H.
    destruct pts as [|p0 r]; [discriminate|].
    unfold flush in H.
    destruct (pt_ts p0) as [start_ts|]; [|discriminate].
    destruct (pilot_pts m start_ts (pt_ts (last r p0)) hist) as [pp|];
      [|discriminate].
    destruct (render hist m alias t) as [fs'|]; [|discriminate].
    simpl in H. injection H as <-.
    destruct (IH fs' eq_refl) as [Hv Hm]. split.
    + simpl. unfold folder_view at 1. simpl. rewrite Hv. reflexivity.
    + constructor; [reflexivity | exact Hm].
Qed.

Lemma last_In : forall (r : list point) p0, In (last r p0) (p0 :: r).
Proof.
  induction r as [|q r IH]; intro p0; [left; reflexivity|].
  rewrite last_cons. right. apply IH.
Qed.

Lemma render_total :
  forall ts_truthy hist m alias segs,
    pilot_stamped hist = true ->
    forallb nonempty (map snd segs) = true ->
    forallb (point_stamped ts_truthy) (List.concat (map snd segs)) = true ->
    exists fs, render hist m alias segs = Some fs.
Proof.
  intros T hist m alias segs Hpil.
  induction segs as [|[idx pts] t IH]; intros Hne Hst.
  - exists []. reflexivity.
  - simpl in Hne. apply andb_true_iff in Hne. destruct Hne as [Hn Hne].
    simpl in Hst. rewrite forallb_app in Hst.
    apply andb_true_iff in Hst. destruct Hst as [Hs Hst].
    destruct (IH Hne Hst) as (fs' & Hfs').
    destruct pts as [|p0 r]; [discriminate|].
    simpl. unfold flush_flight. simpl. unfold flush.
    rewrite forallb_forall in Hs.
    assert (H0 : point_stamped T p0 = true) by (apply Hs; left; reflexivity).
    assert (Hl : point_stamped T (last r p0) = true)
      by (apply Hs; apply last_In).
    unfold point_stamped in H0, Hl.
    destruct (pt_ts p0) as [start_ts|]; [|discriminate].
    destruct (pt_ts (last r p0)) as [e|]; [|discriminate].
    destruct (pilot_pts_total m start_ts e hist Hpil) as (pp & Hpp).
    rewrite Hpp, Hfs'. eexists. reflexivity.
Qed.

Lemma stamped_flight_points :
  forall ts_truthy m hist,
    stamped ts_truthy hist = true ->
    forallb (point_stamped ts_truthy) (flight_points m hist) = true.
Proof.
  intros T m hist. induction hist as [|d t IH]; intro H; [reflexivity|].
  simpl in H. apply andb_true_iff in H. destruct H as [Hd Ht].
  rewrite flight_points_cons. unfold flight_sample.
  destruct (get_is m (s_mac d)); simpl; [|apply IH, Ht].
  destruct (num_truthy (s_lat d) && num_truthy (s_lon d))%bool;
    simpl; [|apply IH, Ht].
  simpl in Hd. unfold point_stamped at 1.
  change (pt_ts (sample_point d)) with (s_ts d).
  rewrite Hd. apply IH, Ht.
Qed.

(** The folders of one mac when every record with a drone position has a
    true timestamp and every record with a pilot position a timestamp:
    the loop does not raise, the flights are numbered from 1 and cut the
    points of the mac exactly at the steps over the threshold. *)
Lemma mac_flights_segmented :
  forall ts_truthy thr hist m alias,
    stamped ts_truthy hist = true ->
    pilot_stamped hist = true ->
    exists fs,
      mac_flights ts_truthy thr hist m alias = Some fs
      /\ segmented thr (flight_points m hist) (map f_points fs)
      /\ map f_idx fs = seq 1 (List.length fs)
      /\ Forall (fun f => f_mac f = m) fs.
Proof.
  intros T thr hist m alias Hst Hpil. unfold mac_flights.
  rewrite flight_loop_stages.
  destruct (segment_segmented T thr (flight_points m hist) 1 None []
              (stamped_flight_points T m hist Hst) eq_refl)
    as (segs & Hs & Hseg & Hidx).
  rewrite Hs. simpl in Hseg.
  destruct (render_total T hist m alias segs Hpil) as (fs & Hfs).
  { apply Hseg. }
  { destruct Hseg as (Hc & _). rewrite Hc.
    apply stamped_flight_points. exact Hst. }
  rewrite Hfs. simpl. exists fs. split; [reflexivity|].
  destruct (render_view hist m alias segs fs Hfs) as [Hv Hm].
  assert (Hp : map f_points fs = map snd segs).
  { rewrite <- Hv, map_map. reflexivity. }
  assert (Hi : map f_idx fs = map fst segs).
  { rewrite <- Hv, map_map. reflexivity. }
  rewrite Hp, Hi, Hidx.
  assert (Hlen : List.length segs = List.length fs).
  { rewrite <- Hv, length_map. reflexivity. }
  rewrite Hlen. auto.
Qed.

(** ** The document: one run of the loop per mac *)

Lemma insert_mac_In :
  forall m l x, In x (insert_mac m l) <-> x = m \/ In x l.
Proof.
  intros m l x. induction l as [|y t IH]; simpl.
  - split; [intros [H|[]]; left; auto | intros [H|[]]; left; auto].
  - destruct (String.leb m y); simpl.
    + split; [intros [H|H]; auto | intros [H|H]; auto].
    + rewrite IH. tauto.
Qed.

Lemma insert_mac_NoDup :
  forall m l, ~ In m l -> NoDup l -> NoDup (insert_mac m l).
Proof.
  intros m l. induction l as [|y t IH]; intros Hin Hnd; simpl.
  - constructor; [exact Hin | constructor].
  - destruct (String.leb m y).
    + constructor; assumption.
    + inversion Hnd as [|? ? Hy Ht]. subst. constructor.
      * rewrite insert_mac_In. intros [H|H]; [|contradiction].
        apply Hin. left. exact H.
      * apply IH; [|exact Ht]. intro H. apply Hin. right. exact H.
Qed.

Lemma sorted_macs_spec :
  forall ms,
    NoDup (sorted_macs ms) /\ (forall m, In m (sorted_macs ms) <-> In m ms).
Proof.
  intro ms. unfold sorted_macs.
  assert (H : forall l,
             NoDup l ->
             NoDup (fold_right insert_mac [] l)
             /\ (forall m, In m (fold_right insert_mac [] l) <-> In m l)).
  { induction l as [|x t IH]; intro Hnd; simpl.
    - split; [constructor | intro m; reflexivity].
    - inversion Hnd as [|? ? Hx Ht]. subst.
      destruct (IH Ht) as [IH1 IH2]. split.
      + apply insert_mac_NoDup; [|exact IH1]. rewrite IH2. exact Hx.
      + intro m. rewrite insert_mac_In, IH2.
        split; intros [H|H]; auto. }
  destruct (H (nodup string_dec ms) (NoDup_nodup string_dec ms)) as [H1 H2].
  split; [exact H1|]. intro m. rewrite H2. apply nodup_In.
Qed.

Lemma all_macs_In :
  forall hist ms,
    all_macs hist = Some ms ->
    forall m, In m ms <-> exists d, In d hist /\ s_mac d = Some m.
Proof.
  induction hist as [|d t IH]; intros ms H m; simpl in H.
  - injection H as <-. split; [intros [] | intros (d & [] & _)].
  - destruct (s_mac d) as [m0|] eqn:Em; [|discriminate].
    destruct (all_macs t) as [ms'|]; [|discriminate].
    injection H as <-. simpl. rewrite (IH ms' eq_refl m). split.
    + intros [H|(d0 & Hin & Hd0)].
      * subst m0. exists d. split; [left; reflexivity | exact Em].
      * exists d0. split; [right; exact Hin | exact Hd0].
    + intros (d0 & [H|Hin] & Hd0).
      * subst d0. left. rewrite Em in Hd0. injection Hd0 as ->. reflexivity.
      * right. exists d0. split; assumption.
Qed.

Lemma all_macs_total :
  forall hist,
    all_have_mac hist = true -> exists ms, all_macs hist = Some ms.
Proof.
  induction hist as [|d t IH]; intro H; [exists []; reflexivity|].
  simpl in H. apply andb_true_iff in H. destruct H as [Hd Ht].
  destruct (IH Ht) as (ms & Hms). simpl. rewrite Hms.
  destruct (s_mac d) as [m|]; [|discriminate]. eexists. reflexivity.
Qed.

(** A mac no record has contributes no point. *)
Lemma flight_points_absent :
  forall m hist,
    (forall d, In d hist -> s_mac d <> Some m) -> flight_points m hist = [].
Proof.
  intros m hist. induction hist as [|d t IH]; intro H; [reflexivity|].
  rewrite flight_points_cons. unfold flight_sample.
  assert (Hd : get_is m (s_mac d) = false).
  { unfold get_is. destruct (s_mac d) as [s|] eqn:E; [|reflexivity].
    apply String.eqb_neq. intro Hs. subst s.
    apply (H d (or_introl eq_refl)). exact E. }
  rewrite Hd. simpl. apply IH. intros d0 Hin. apply H. right. exact Hin.
Qed.

Lemma folders_of_all :
  forall m fs, Forall (fun f => f_mac f = m) fs -> folders_of m fs = fs.
Proof.
  intros m fs H. unfold folders_of. induction H as [|f fs Hf _ IH];
    [reflexivity|].
  simpl. rewrite Hf, String.eqb_refl, IH. reflexivity.
Qed.

Lemma folders_of_none :
  forall m m0 fs,
    m0 <> m -> Forall (fun f => f_mac f = m0) fs -> folders_of m fs = [].
Proof.
  intros m m0 fs Hne H. unfold folders_of. induction H as [|f fs Hf _ IH];
    [reflexivity|].
  simpl. rewrite Hf. apply String.eqb_neq in Hne. rewrite Hne. exact IH.
Qed.

(** What the folders of a mac are, whenever its loop does not raise. *)
Lemma mac_flights_view :
  forall ts_truthy thr hist m alias fs,
    mac_flights ts_truthy thr hist m alias = Some fs ->
    segment ts_truthy thr (flight_points m hist) 1 None []
    = Some (map folder_view fs)
    /\ Forall (fun f => f_mac f = m) fs.
Proof.
  intros T thr hist m alias fs H. unfold mac_flights in H.
  rewrite flight_loop_stages in H.
  destruct (segment T thr (flight_points m hist) 1 None []) as [segs|];
    [|discriminate].
  destruct (render hist m alias segs) as [fs'|] eqn:E; [|discriminate].
  simpl in H. injection H as <-.
  destruct (render_view hist m alias segs fs' E) as [Hv Hm].
  rewrite Hv. split; [reflexivity | exact Hm].
Qed.

Lemma kml_folders_view :
  forall ts_truthy thr aliases hist macs doc,
    kml_folders ts_truthy thr aliases hist macs = Some doc ->
    NoDup macs ->
    forall m,
      (In m macs ->
       segment ts_truthy thr (flight_points m hist) 1 None []
       = Some (map folder_view (folders_of m doc)))
      /\ (~ In m macs -> folders_of m doc = []).
Proof.
  intros T thr aliases hist macs.
  induction macs as [|m0 ms IH]; intros doc H Hnd m; simpl in H.
  - injection H as <-. split; [intros [] | reflexivity].
  - destruct (mac_flights T thr hist m0 _) as [fs|] eqn:Efs; [|discriminate].
    destruct (kml_folders T thr aliases hist ms) as [rest|] eqn:Er;
      [|discriminate].
    simpl in H. injection H as <-.
    inversion Hnd as [|? ? Hm0 Hms]. subst.
    destruct (mac_flights_view T thr hist m0 _ fs Efs) as [Hseg Hmac].
    destruct (IH rest eq_refl Hms m) as [IHin IHout].
    unfold folders_of in *. rewrite filter_app. fold (folders_of m fs).
    split.
    + intros [Heq|Hin].
      * subst m0. rewrite (folders_of_all m fs Hmac).
        fold (folders_of m rest). unfold folders_of. rewrite (IHout Hm0).
        rewrite app_nil_r. exact Hseg.
      * assert (Hne : m0 <> m) by (intro; subst; contradiction).
        rewrite (folders_of_none m m0 fs Hne Hmac). simpl.
        apply IHin. exact Hin.
    + intro Hout.
      assert (Hne : m0 <> m) by (intro; subst; apply Hout; left; reflexivity).
      rewrite (folders_of_none m m0 fs Hne Hmac). simpl.
      apply IHout. intro Hin. apply Hout. right. exact Hin.
Qed.

(** Whenever a generator does not raise, the folders of each mac in its
    document are the numbered cut of the points of that mac. *)
Lemma kml_document_view :
  forall ts_truthy thr aliases hist doc,
    kml_document ts_truthy thr aliases hist = Some doc ->
    forall m,
      segment ts_truthy thr (flight_points m hist) 1 None []
      = Some (map folder_view (folders_of m doc)).
Proof.
  intros T thr aliases hist doc H m. unfold kml_document in H.
  destruct (all_macs hist) as [ms|] eqn:Ems; [|discriminate].
  destruct (sorted_macs_spec ms) as [Hnd Hin].
  destruct (kml_folders_view T thr aliases hist (sorted_macs ms) doc H Hnd m)
    as [Hyes Hno].
  destruct (in_dec string_dec m (sorted_macs ms)) as [Hm|Hm].
  - apply Hyes. exact Hm.
  - rewrite (Hno Hm). rewrite flight_points_absent; [reflexivity|].
    intros d Hd Hmac. apply Hm. apply Hin.
    apply (all_macs_In hist ms Ems m). exists d. split; assumption.
Qed.

Lemma kml_folders_total :
  forall ts_truthy thr aliases hist macs,
    stamped ts_truthy hist = true ->
    pilot_stamped hist = true ->
    exists doc, kml_folders ts_truthy thr aliases hist macs = Some doc.
Proof.
  intros T thr aliases hist macs Hst Hpil.
  induction macs as [|m ms IH]; [exists []; reflexivity|].
  destruct IH as (rest & Hrest). simpl.
  destruct (mac_flights_segmented T thr hist m
              (get_or (od_get String.eqb m aliases) ""%string) Hst Hpil)
    as (fs & Hfs & _).
  rewrite Hfs, Hrest. eexists. reflexivity.
Qed.

(** A generator over records that all have a mac, a true timestamp where
    they have a drone position and a timestamp where they have a pilot
    position: it does not raise, and for each mac the flights of its
    document are numbered from 1 and cut the points of the mac exactly at
    the steps over the threshold. *)
Lemma kml_document_segmented :
  forall ts_truthy thr aliases hist,
    all_have_mac hist = true ->
    stamped ts_truthy hist = true ->
    pilot_stamped hist = true ->
    exists doc,
      kml_document ts_truthy thr aliases hist = Some doc
      /\ forall m,
           segmented thr (flight_points m hist)
             (map f_points (folders_of m doc))
           /\ map f_idx (folders_of m doc)
              = seq 1 (List.length (folders_of m doc)).
Proof.
  intros T thr aliases hist Hmac Hst Hpil.
  destruct (all_macs_total hist Hmac) as (ms & Hms).
  destruct (kml_folders_total T thr aliases hist (sorted_macs ms) Hst Hpil)
    as (doc & Hdoc).
  assert (Hd : kml_document T thr aliases hist = Some doc).
  { unfold kml_document. rewrite Hms. exact Hdoc. }
  exists doc. split; [exact Hd|]. intro m.
  pose proof (kml_document_view T thr aliases hist doc Hd m) as Hv.
  destruct (segment_segmented T thr (flight_points m hist) 1 None []
              (stamped_flight_points T m hist Hst) eq_refl)
    as (segs & Hs & Hseg & Hidx).
  rewrite Hs in Hv. injection Hv as Hv. simpl in Hseg.
  assert (Hp : map f_points (folders_of m doc) = map snd segs).
  { rewrite Hv, map_map. reflexivity. }
  assert (Hi : map f_idx (folders_of m doc) = map fst segs).
  { rewrite Hv, map_map. reflexivity. }
  assert (Hlen : List.length segs = List.length (folders_of m doc)).
  { rewrite Hv, length_map. reflexivity. }
  rewrite Hp, Hi, Hidx, Hlen. split; [exact Hseg | reflexivity].
Qed.

(** ** The two generators *)

(** The rows of the cumulative CSV always satisfy the three conditions. *)
Lemma rows_never_raise :
  forall rows,
    all_have_mac (map sample_of_row rows) = true
    /\ stamped (fun _ => true) (map sample_of_row rows) = true
    /\ pilot_stamped (map sample_of_row rows) = true.
Proof.
  induction rows as [|r t (IH1 & IH2 & IH3)]; [repeat split|].
  unfold all_have_mac, stamped, pilot_stamped in *. simpl.
  rewrite IH1, IH2, IH3.
  rewrite !implb_true_r. repeat split.
Qed.

Lemma generate_cumulative_kml_total :
  forall st, exists doc, generate_cumulative_kml st = Some doc.
Proof.
  intro st. unfold generate_cumulative_kml.
  destruct (rows_never_raise (cumulative_csv st)) as (H1 & H2 & H3).
  destruct (kml_document_segmented (fun _ => true) staleThreshold (ALIASES st)
              _ H1 H2 H3) as (doc & Hdoc & _).
  exists doc. exact Hdoc.
Qed.


(** ** Detections without a position and the exports *)

Lemma num_truthy_get_or :
  forall o, num_truthy o = py_ne0 (get_or o 0).
Proof. intros [x|]; reflexivity. Qed.

Lemma flight_sample_of_detection :
  forall m d,
    flight_sample m (sample_of_detection d)
    = (get_is m (mac d) && valid_drone d)%bool.
Proof.
  intros m d. unfold flight_sample, valid_drone. simpl.
  rewrite !num_truthy_get_or. reflexivity.
Qed.



Lemma api_paths_fst :
  forall st,
    fst (api_paths st)
    = dedupe_all (fst (collect_paths (detection_history st) [] [])).
Proof.
  intro st. unfold api_paths.
  destruct (collect_paths (detection_history st) [] []). reflexivity.
Qed.



(** The flights of a cut are, together, the buffer and the points. *)
Lemma segment_concat :
  forall ts_truthy thr pts flight_idx last_ts current_flight segs,
    segment ts_truthy thr pts flight_idx last_ts current_flight = Some segs ->
    List.concat (map snd segs) = current_flight ++ pts.
Proof.
  intros T thr pts.
  induction pts as [|p pts' IH]; intros idx last_ts cur segs H; simpl in H.
  - destruct cur as [|p0 r]; injection H as <-; simpl;
      rewrite ?app_nil_r; reflexivity.
  - destruct (gap_break T thr last_ts (pt_ts p)) as [[|]|]; [| |discriminate].
    + destruct cur as [|p0 r].
      * apply IH in H. exact H.
      * destruct (segment T thr pts' (S idx) (pt_ts p) [p]) as [segs'|] eqn:E;
          [|discriminate].
        simpl in H. injection H as <-. simpl.
        rewrite (IH _ _ _ _ E). reflexivity.
    + apply IH in H. rewrite H, <- app_assoc. reflexivity.
Qed.


Lemma drone_pts_app :
  forall m h1 h2, drone_pts m (h1 ++ h2) = drone_pts m h1 ++ drone_pts m h2.
Proof.
  intros m h1 h2. unfold drone_pts. rewrite filter_app, map_app. reflexivity.
Qed.

(** What the GPS branch adds to the exports. *)
Lemma gps_record_in_exports :
  forall m d' lat long now h,
    mac d' = Some m -> m <> ""%string ->
    drone_lat d' = Some lat -> drone_long d' = Some long ->
    last_update d' = Some now ->
    py_ne0 lat = true -> py_ne0 long = true ->
    drone_pts m (h ++ [d']) = drone_pts m h ++ [(lat, long)]
    /\ flight_points m (map sample_of_detection (h ++ [d']))
       = flight_points m (map sample_of_detection h) ++ [(long, lat, Some now)].
Proof.
  intros m d' lat long now h Hm Hne Hlat Hlong Hnow Hla Hlo.
  assert (Hv : valid_drone d' = true).
  { unfold valid_drone. rewrite Hlat, Hlong. simpl. rewrite Hla, Hlo.
    reflexivity. }
  split.
  - rewrite drone_pts_app. f_equal. unfold drone_pts. simpl.
    rewrite Hm. simpl. rewrite String.eqb_refl, Hv. simpl.
    rewrite Hlat, Hlong. reflexivity.
  - rewrite map_app, flight_points_app. f_equal. simpl.
    rewrite flight_points_cons, flight_sample_of_detection, Hm. simpl.
    rewrite String.eqb_refl, Hv. simpl. unfold sample_point. simpl.
    rewrite Hlat, Hlong, Hnow. reflexivity.
Qed.

(** The first two conditions of the session export hold of every history
    built by [update_detection] under a clock that does not read zero. *)
Lemma update_detection_keeps_stamped :
  forall e d st,
    py_ne0 (time_time e) = true ->
    let samples s := map sample_of_detection (detection_history s) in
    all_have_mac (samples st) = true ->
    stamped py_ne0 (samples st) = true ->
    all_have_mac (samples (fst (update_detection e d st))) = true
    /\ stamped py_ne0 (samples (fst (update_detection e d st))) = true.
Proof.
  intros e d st Hclock samples Hmac Hst.
  destruct (mac d) as [m|] eqn:Em.
  2:{ rewrite (update_detection_without_mac_dropped e d st (or_introl Em)).
      split; assumption. }
  destruct (m =? "")%string eqn:E0.
  { apply String.eqb_eq in E0. subst m.
    rewrite (update_detection_without_mac_dropped e d st (or_intror Em)).
    split; assumption. }
  apply String.eqb_neq in E0.
  destruct (valid_drone d) eqn:Ev.
  - rewrite (update_detection_gps e d st m Em E0 Ev).
    destruct (gps_update_memory e m d st) as (_ & Hh & _).
    destruct (merge_detection_fields e m d st) as (Hm' & Hnow & _).
    unfold samples, all_have_mac, stamped in *.
    rewrite Hh, map_app, !forallb_app, Hmac, Hst. simpl.
    rewrite Hm', Em, Hnow, Hclock, implb_true_r. split; reflexivity.
  - rewrite (update_detection_no_gps e d st m Em E0 Ev).
    destruct (no_gps_update_memory e m d st) as (_ & Hh).
    unfold samples, all_have_mac, stamped in *.
    rewrite Hh, map_app, !forallb_app, Hmac, Hst. simpl.
    rewrite Em, !num_truthy_get_or. fold (valid_drone d). rewrite Ev.
    split; reflexivity.
Qed.

(** * More of the server *)

(** ** What an accepted detection changes *)

Lemma generate_kml_ext :
  forall st st',
    detection_history st' = detection_history st ->
    ALIASES st' = ALIASES st ->
    generate_kml st' = generate_kml st.
Proof.
  intros st st' Hh Ha. unfold generate_kml. rewrite Hh, Ha. reflexivity.
Qed.

Lemma generate_cumulative_kml_ext :
  forall st st',
    cumulative_csv st' = cumulative_csv st ->
    ALIASES st' = ALIASES st ->
    generate_cumulative_kml st' = generate_cumulative_kml st.
Proof.
  intros st st' Hc Ha. unfold generate_cumulative_kml. rewrite Hc, Ha.
  reflexivity.
Qed.

Lemma fire_webhook_files :
  forall e d st,
    ALIASES (fire_webhook e d st) = ALIASES st
    /\ session_csv (fire_webhook e d st) = session_csv st
    /\ cumulative_csv (fire_webhook e d st) = cumulative_csv st
    /\ faa_cache_file (fire_webhook e d st) = faa_cache_file st
    /\ WEBHOOK_URL (fire_webhook e d st) = WEBHOOK_URL st
    /\ session_kml (fire_webhook e d st) = session_kml st
    /\ cumulative_kml (fire_webhook e d st) = cumulative_kml st.
Proof.
  intros e d st. unfold fire_webhook.
  destruct (WEBHOOK_URL st) as [u|] eqn:E; [destruct (u =? "")%string|];
    simpl; rewrite ?E; repeat split; reflexivity.
Qed.

(** The no-GPS branch, step by step: the cumulative KML never raises, so
    the cache write and the session KML are always reached. *)
Lemma no_gps_update_steps :
  forall e m d st,
    let st3 :=
      append_csv e m (Some (get_or (drone_lat d) 0))
        (Some (get_or (drone_long d) 0)) d
        (fire_webhook e d
           (set_memory (od_set String.eqb m d (tracked_pairs st))
              (detection_history st ++ [d]) st)) in
    exists cdoc,
      generate_cumulative_kml st3 = Some cdoc
      /\ let st5 :=
           if str_truthy (basic_id d) then
             write_to_faa_cache m (get_or (basic_id d) ""%string)
               (get_or (faa_data d) (JObj []))
               (set_kml (session_kml st3) cdoc st3)
           else set_kml (session_kml st3) cdoc st3 in
         no_gps_update e m d st =
         match generate_kml st5 with
         | None => (st5, Raised)
         | Some doc => (set_kml doc (cumulative_kml st5) st5, Returned)
         end.
Proof.
  intros e m d st st3.
  destruct (generate_cumulative_kml_total st3) as (cdoc & Hc).
  exists cdoc. split; [exact Hc|].
  unfold no_gps_update. fold st3. rewrite Hc. reflexivity.
Qed.

Lemma gps_update_steps :
  forall e m d st,
    let d' := merge_detection e m d st in
    let st1 :=
      match faa_data d' with
      | Some v => write_to_faa_cache m (get_or (basic_id d') ""%string) v st
      | None => st
      end in
    let st3 :=
      append_csv e m (drone_lat d') (drone_long d') d'
        (set_memory (od_set String.eqb m d' (tracked_pairs st1))
           (detection_history st1 ++ [d']) st1) in
    exists cdoc,
      generate_cumulative_kml st3 = Some cdoc
      /\ let st4 := set_kml (session_kml st3) cdoc st3 in
         gps_update e m d st =
         match generate_kml st4 with
         | None => (st4, Raised)
         | Some doc => (set_kml doc (cumulative_kml st4) st4, Returned)
         end.
Proof.
  intros e m d st d' st1 st3.
  destruct (generate_cumulative_kml_total st3) as (cdoc & Hc).
  exists cdoc. split; [exact Hc|].
  unfold gps_update. fold d'. fold st1. fold st3. rewrite Hc. reflexivity.
Qed.

(** The three cases of [update_detection]. *)
Lemma update_detection_cases :
  forall e d st,
    (str_truthy (mac d) = false /\ update_detection e d st = (st, Returned))
    \/ (exists m,
          mac d = Some m /\ m <> ""%string /\ str_truthy (mac d) = true
          /\ valid_drone d = false
          /\ stored_record e d st = d
          /\ update_detection e d st = no_gps_update e m d st)
    \/ (exists m,
          mac d = Some m /\ m <> ""%string /\ str_truthy (mac d) = true
          /\ valid_drone d = true
          /\ stored_record e d st = merge_detection e m d st
          /\ update_detection e d st = gps_update e m d st).
Proof.
  intros e d st. unfold stored_record.
  destruct (mac d) as [m|] eqn:Em.
  - destruct (m =? "")%string eqn:E0.
    + left. apply String.eqb_eq in E0. subst m. split; [reflexivity|].
      apply update_detection_without_mac_dropped. right. exact Em.
    + apply String.eqb_neq in E0.
      assert (Ht : str_truthy (Some m) = true).
      { simpl. apply String.eqb_neq in E0. rewrite E0. reflexivity. }
      destruct (valid_drone d) eqn:Ev.
      * right. right. exists m. repeat split; auto.
        apply update_detection_gps; assumption.
      * right. left. exists m. repeat split; auto.
        apply update_detection_no_gps; assumption.
  - left. split; [reflexivity|].
    apply update_detection_without_mac_dropped. left. exact Em.
Qed.

Lemma gps_update_files :
  forall e m d st,
    let d' := merge_detection e m d st in
    let st' := fst (gps_update e m d st) in
    session_csv st' =
      session_csv st
        ++ [detection_row (now_session e) (ALIASES st) m (drone_lat d')
              (drone_long d') d']
    /\ cumulative_csv st' =
         cumulative_csv st
           ++ [detection_row (now_cumulative e) (ALIASES st) m (drone_lat d')
                 (drone_long d') d']
    /\ ALIASES st' = ALIASES st.
Proof.
  intros e m d st d' st'. subst st'.
  destruct (gps_update_steps e m d st) as (cdoc & _ & Heq).
  cbv zeta in Heq. rewrite Heq. fold d'.
  destruct (generate_kml _) as [doc|];
    destruct (faa_data d') as [v|]; simpl; repeat split; reflexivity.
Qed.

Lemma no_gps_update_files :
  forall e m d st,
    let st' := fst (no_gps_update e m d st) in
    ALIASES st' = ALIASES st
    /\ FAA_CACHE st' =
         (if str_truthy (basic_id d) then
            od_set key_eqb (m, get_or (basic_id d) ""%string)
              (get_or (faa_data d) (JObj [])) (FAA_CACHE st)
          else FAA_CACHE st)
    /\ faa_cache_file st' =
         (if str_truthy (basic_id d) then
            faa_cache_file st
              ++ [(m, get_or (basic_id d) ""%string,
                   get_or (faa_data d) (JObj []))]
          else faa_cache_file st).
Proof.
  intros e m d st st'. subst st'.
  destruct (no_gps_update_steps e m d st) as (cdoc & _ & Heq).
  cbv zeta in Heq. rewrite Heq. clear Heq.
  set (st1 := set_memory _ _ st).
  destruct (fire_webhook_files e d st1) as (Ha & _ & _ & Hf & _).
  destruct (fire_webhook_memory e d st1) as (_ & _ & Hc).
  destruct (generate_kml _) as [doc|];
    destruct (str_truthy (basic_id d)); simpl;
    rewrite ?Ha, ?Hf, ?Hc; repeat split; reflexivity.
Qed.

(** Whatever the detection, the old history is a prefix of the new. *)
Lemma history_grows :
  forall e d st,
    exists tail,
      detection_history (fst (update_detection e d st))
      = detection_history st ++ tail.
Proof.
  intros e d st.
  destruct (update_detection_cases e d st)
    as [[Hf Heq] | [(m & Hm & Hne & Ht & Hv & Hs & Heq)
                   | (m & Hm & Hne & Ht & Hv & Hs & Heq)]];
    rewrite Heq.
  - exists []. simpl. rewrite app_nil_r. reflexivity.
  - destruct (no_gps_update_memory e m d st) as (_ & Hh).
    eexists. exact Hh.
  - destruct (gps_update_memory e m d st) as (_ & Hh & _).
    eexists. exact Hh.
Qed.

(** X1: history is append-only.  A call of [update_detection] leaves
    every earlier record in place and appends exactly one record when the
    detection has a mac (none otherwise); the record appended is the one
    stored as the live entry of that mac. *)
Theorem history_is_append_only :
  forall e d st,
    let st' := fst (update_detection e d st) in
    detection_history st' =
      detection_history st
        ++ (if str_truthy (mac d) then [stored_record e d st] else [])
    /\ (str_truthy (mac d) = true ->
        od_get String.eqb (get_or (mac d) ""%string) (tracked_pairs st')
        = Some (stored_record e d st)).
Proof.
  intros e d st st'. subst st'.
  destruct (update_detection_cases e d st)
    as [[Hf Heq] | [(m & Hm & Hne & Ht & Hv & Hs & Heq)
                   | (m & Hm & Hne & Ht & Hv & Hs & Heq)]];
    rewrite Heq.
  - rewrite Hf. simpl. rewrite app_nil_r. split; [reflexivity|discriminate].
  - rewrite Ht, Hs, Hm. simpl get_or.
    destruct (no_gps_update_memory e m d st) as (Htp & Hh).
    rewrite Htp, Hh. split; [reflexivity|]. intros _.
    apply tracked_get_set_same.
  - rewrite Ht, Hs, Hm. simpl get_or.
    destruct (gps_update_memory e m d st) as (Htp & Hh & _).
    rewrite Htp, Hh. split; [reflexivity|]. intros _.
    apply tracked_get_set_same.
Qed.

Lemma history_is_append_only_witness :
  detection_history (fst (update_detection sample_env nofix_AA state_AA))
  = [tracked_AA; nofix_AA]
  /\ od_get String.eqb "AA"%string
       (tracked_pairs (fst (update_detection sample_env nofix_AA state_AA)))
     = Some nofix_AA.
Proof.
  destruct (history_is_append_only sample_env nofix_AA state_AA) as [Hh Ht].
  split; [exact Hh | exact (Ht eq_refl)].
Defined.

Lemma od_set_keys_In :
  forall (V : Type) k (v : V) d x,
    In x (map fst (od_set String.eqb k v d)) <-> x = k \/ In x (map fst d).
Proof.
  intros V k v d x. induction d as [|[k' v'] t IH]; simpl.
  - split; [intros [H|[]]; left; auto | intros [H|[]]; left; auto].
  - destruct (k =? k')%string eqn:E; simpl.
    + apply String.eqb_eq in E. subst k'. split.
      * intros [H|H]; auto.
      * intros [H|[H|H]]; auto.
    + rewrite IH. split.
      * intros [H|[H|H]]; auto.
      * intros [H|[H|H]]; auto.
Qed.

Lemma od_set_NoDup :
  forall (V : Type) k (v : V) d,
    NoDup (map fst d) -> NoDup (map fst (od_set String.eqb k v d)).
Proof.
  intros V k v d. induction d as [|[k' v'] t IH]; simpl; intro H.
  - constructor; [intros [] | constructor].
  - inversion H as [|? ? Hk Ht]. subst.
    destruct (k =? k')%string eqn:E; simpl.
    + constructor; assumption.
    + constructor; [|apply IH; exact Ht].
      rewrite od_set_keys_In. intros [Heq|Hin]; [|contradiction].
      subst k'. rewrite String.eqb_refl in E. discriminate.
Qed.

Lemma tracked_get_set_other :
  forall m m' (d : detection) tp,
    m' <> m ->
    od_get String.eqb m' (od_set String.eqb m d tp) = od_get String.eqb m' tp.
Proof.
  intros. apply od_get_set_other; [apply String.eqb_eq | assumption].
Qed.

(** X2: one live entry per mac.  A call of [update_detection] for mac
    [m] leaves the live entry of every other mac as it was, and the keys
    of [tracked_pairs] stay distinct. *)
Theorem update_detection_other_macs :
  forall e d st m',
    mac d <> Some m' ->
    let st' := fst (update_detection e d st) in
    od_get String.eqb m' (tracked_pairs st')
    = od_get String.eqb m' (tracked_pairs st)
    /\ (NoDup (map fst (tracked_pairs st)) ->
        NoDup (map fst (tracked_pairs st'))).
Proof.
  intros e d st m' Hm' st'. subst st'.
  destruct (update_detection_cases e d st)
    as [[Hf Heq] | [(m & Hm & Hne & Ht & Hv & Hs & Heq)
                   | (m & Hm & Hne & Ht & Hv & Hs & Heq)]];
    rewrite Heq.
  - split; [reflexivity | auto].
  - destruct (no_gps_update_memory e m d st) as (Htp & _). rewrite Htp.
    split; [|apply od_set_NoDup].
    apply tracked_get_set_other. intro H. apply Hm'. rewrite Hm, H.
    reflexivity.
  - destruct (gps_update_memory e m d st) as (Htp & _). rewrite Htp.
    split; [|apply od_set_NoDup].
    apply tracked_get_set_other. intro H. apply Hm'. rewrite Hm, H.
    reflexivity.
Qed.

Lemma update_detection_other_macs_witness :
  od_get String.eqb "BB"%string
    (tracked_pairs (fst (update_detection sample_env fix_AA state_AA)))
  = None
  /\ NoDup
       (map fst
          (tracked_pairs (fst (update_detection sample_env fix_AA state_AA)))).
Proof.
  assert (Hne : mac fix_AA <> Some "BB"%string) by discriminate.
  destruct (update_detection_other_macs sample_env fix_AA state_AA
              "BB"%string Hne) as [Hget Hnd].
  split; [rewrite Hget; reflexivity|].
  apply Hnd. simpl. constructor; [intros [] | constructor].
Defined.



(** ** When the KML regeneration raises *)

Lemma update_detection_kml :
  forall e d st,
    str_truthy (mac d) = true ->
    let st' := fst (update_detection e d st) in
    snd (update_detection e d st)
    = match generate_kml st' with Some _ => Returned | None => Raised end
    /\ (forall doc, generate_kml st' = Some doc -> session_kml st' = doc)
    /\ generate_cumulative_kml st' = Some (cumulative_kml st').
Proof.
  intros e d st Htr st'. subst st'.
  destruct (update_detection_cases e d st)
    as [[Hf Heq] | [(m & Hm & Hne & Ht & Hv & Hs & Heq)
                   | (m & Hm & Hne & Ht & Hv & Hs & Heq)]];
    rewrite Heq.
  - rewrite Hf in Htr. discriminate.
  - destruct (no_gps_update_steps e m d st) as (cdoc & Hc & Hstep).
    cbv zeta in Hc, Hstep. rewrite Hstep. clear Hstep.
    match goal with
    | |- context [generate_kml ?s] => set (st5 := s) in *
    end.
    assert (Hc5 : generate_cumulative_kml st5 = Some cdoc
                  /\ cumulative_kml st5 = cdoc).
    { subst st5. destruct (str_truthy (basic_id d)); simpl;
        (split; [rewrite <- Hc; apply generate_cumulative_kml_ext;
                 reflexivity | reflexivity]). }
    destruct Hc5 as [Hg5 Hk5].
    destruct (generate_kml st5) as [doc|] eqn:Eg; cbn [fst snd].
    + rewrite (generate_kml_ext st5 (set_kml doc (cumulative_kml st5) st5)
                 eq_refl eq_refl), Eg.
      split; [reflexivity|]. split.
      * intros doc' H. injection H as <-. reflexivity.
      * transitivity (generate_cumulative_kml st5);
          [apply generate_cumulative_kml_ext; reflexivity|].
        rewrite Hg5. f_equal. symmetry. exact Hk5.
    + rewrite Eg. split; [reflexivity|]. split; [discriminate|].
      rewrite Hk5. exact Hg5.
  - destruct (gps_update_steps e m d st) as (cdoc & Hc & Hstep).
    cbv zeta in Hc, Hstep. rewrite Hstep. clear Hstep.
    match goal with
    | |- context [generate_kml ?s] => set (st4 := s) in *
    end.
    assert (Hg4 : generate_cumulative_kml st4 = Some cdoc).
    { subst st4. rewrite <- Hc. apply generate_cumulative_kml_ext;
        reflexivity. }
    assert (Hk4 : cumulative_kml st4 = cdoc) by reflexivity.
    destruct (generate_kml st4) as [doc|] eqn:Eg; cbn [fst snd].
    + rewrite (generate_kml_ext st4 (set_kml doc (cumulative_kml st4) st4)
                 eq_refl eq_refl), Eg.
      split; [reflexivity|]. split.
      * intros doc' H. injection H as <-. reflexivity.
      * transitivity (generate_cumulative_kml st4);
          [apply generate_cumulative_kml_ext; reflexivity|].
        rewrite Hg4. reflexivity.
    + rewrite Eg. split; [reflexivity|]. split; [discriminate|].
      rewrite Hk4. exact Hg4.
Qed.

(** X4: the exports follow the store.  For a detection with a mac,
    [update_detection] raises exactly when the session KML cannot be
    generated from the new history; when it returns, the session KML file
    is the document of the new history; and in both cases the cumulative
    KML file is the document of the new cumulative CSV. *)
Theorem update_detection_keeps_kml_in_step :
  forall e d st,
    str_truthy (mac d) = true ->
    let st' := fst (update_detection e d st) in
    (snd (update_detection e d st) = Raised <-> generate_kml st' = None)
    /\ (snd (update_detection e d st) = Returned ->
        generate_kml st' = Some (session_kml st'))
    /\ generate_cumulative_kml st' = Some (cumulative_kml st').
Proof.
  intros e d st Htr st'.
  destruct (update_detection_kml e d st Htr) as (Ho & Hs & Hc).
  fold st' in Ho, Hs, Hc. rewrite Ho.
  destruct (generate_kml st') as [doc|] eqn:Eg.
  - split; [split; discriminate|]. split; [|exact Hc].
    intros _. rewrite (Hs doc eq_refl). reflexivity.
  - split; [split; reflexivity|]. split; [discriminate | exact Hc].
Qed.

Lemma update_detection_keeps_kml_in_step_witness :
  generate_kml (fst (update_detection sample_env fix_AA state_AA))
  = Some (session_kml (fst (update_detection sample_env fix_AA state_AA))).
Proof.
  destruct (update_detection_keeps_kml_in_step sample_env fix_AA state_AA
              eq_refl) as (_ & Hr & _).
  apply Hr. vm_compute. reflexivity.
Defined.

Lemma pilot_pts_unstamped :
  forall m start_ts end_ts hist d,
    In d hist ->
    get_is m (s_mac d) = true ->
    (num_truthy (s_plat d) && num_truthy (s_plon d))%bool = true ->
    s_ts d = None ->
    pilot_pts m start_ts end_ts hist = None.
Proof.
  intros m start_ts end_ts hist d.
  induction hist as [|x t IH]; intros Hin Hm Hp Hts; [destruct Hin|].
  simpl. destruct Hin as [Hx|Hin].
  - subst x. rewrite Hm. simpl. rewrite Hp, Hts. reflexivity.
  - rewrite (IH Hin Hm Hp Hts).
    destruct (get_is m (s_mac x) && num_truthy (s_plat x)
              && num_truthy (s_plon x))%bool; [|reflexivity].
    destruct (s_ts x) as [lu|]; [|reflexivity].
    destruct (Qle_bool start_ts lu); [|reflexivity].
    destruct end_ts as [en|]; [|reflexivity].
    destruct (Qle_bool lu en); reflexivity.
Qed.

(** A mac with a flight and with a pilot record that has no timestamp:
    its loop raises. *)
Lemma mac_flights_unstamped_pilot :
  forall ts_truthy thr hist m alias d,
    In d hist ->
    get_is m (s_mac d) = true ->
    (num_truthy (s_plat d) && num_truthy (s_plon d))%bool = true ->
    s_ts d = None ->
    flight_points m hist <> [] ->
    mac_flights ts_truthy thr hist m alias = None.
Proof.
  intros T thr hist m alias d Hin Hm Hp Hts Hne. unfold mac_flights.
  rewrite flight_loop_stages.
  destruct (segment T thr (flight_points m hist) 1 None []) as [segs|] eqn:E;
    [|reflexivity].
  apply segment_concat in E. simpl in E.
  destruct segs as [|[idx pts] t].
  - simpl in E. symmetry in E. contradiction.
  - simpl. unfold flush_flight. simpl.
    destruct pts as [|p0 r]; [reflexivity|]. unfold flush.
    destruct (pt_ts p0) as [start_ts|]; [|reflexivity].
    rewrite (pilot_pts_unstamped m start_ts _ hist d Hin Hm Hp Hts).
    reflexivity.
Qed.

Lemma kml_folders_raises :
  forall ts_truthy thr aliases hist macs m,
    In m macs ->
    mac_flights ts_truthy thr hist m
      (get_or (od_get String.eqb m aliases) ""%string) = None ->
    kml_folders ts_truthy thr aliases hist macs = None.
Proof.
  intros T thr aliases hist macs m.
  induction macs as [|m0 ms IH]; intros Hin Hnone; [destruct Hin|].
  simpl. destruct Hin as [Heq|Hin].
  - subst m0. rewrite Hnone. reflexivity.
  - rewrite (IH Hin Hnone).
    destruct (mac_flights T thr hist m0 _); reflexivity.
Qed.

Lemma kml_document_unstamped_pilot :
  forall ts_truthy thr aliases hist m d,
    In d hist ->
    s_mac d = Some m ->
    (num_truthy (s_plat d) && num_truthy (s_plon d))%bool = true ->
    s_ts d = None ->
    flight_points m hist <> [] ->
    kml_document ts_truthy thr aliases hist = None.
Proof.
  intros T thr aliases hist m d Hin Hm Hp Hts Hne. unfold kml_document.
  destruct (all_macs hist) as [ms|] eqn:Ems; [|reflexivity].
  apply (kml_folders_raises T thr aliases hist (sorted_macs ms) m).
  - apply (proj2 (sorted_macs_spec ms)).
    apply (all_macs_In hist ms Ems m). exists d. split; assumption.
  - apply (mac_flights_unstamped_pilot T thr hist m _ d Hin); auto.
    unfold get_is. rewrite Hm. apply String.eqb_refl.
Qed.

Lemma In_flight_points :
  forall m hist d,
    In d hist -> mac d = Some m -> valid_drone d = true ->
    flight_points m (map sample_of_detection hist) <> [].
Proof.
  intros m hist d Hin Hm Hv.
  apply in_split in Hin. destruct Hin as (h1 & h2 & ->).
  rewrite map_app, flight_points_app. simpl.
  rewrite flight_points_cons, flight_sample_of_detection, Hm. simpl.
  rewrite String.eqb_refl, Hv. simpl.
  intro H. apply app_eq_nil in H. destruct H as [_ H]. discriminate.
Qed.

(** X5: one record can stop the session export.  When the history holds,
    for some mac, a record with a pilot position and no [last_update]
    (only the no-GPS branch stores such records) and a record with a drone
    position, [generate_kml] raises; and then every later call of
    [update_detection] with a mac raises too, after it has stored its
    record, and leaves the history in the same condition. *)
Theorem unstamped_pilot_stops_session_kml :
  forall st m d d0,
    In d (detection_history st) ->
    mac d = Some m ->
    valid_pilot d = true ->
    last_update d = None ->
    In d0 (detection_history st) ->
    mac d0 = Some m ->
    valid_drone d0 = true ->
    generate_kml st = None
    /\ forall e d1,
         str_truthy (mac d1) = true ->
         snd (update_detection e d1 st) = Raised
         /\ In d (detection_history (fst (update_detection e d1 st)))
         /\ In d0 (detection_history (fst (update_detection e d1 st))).
Proof.
  intros st m d d0 Hin Hm Hp Hts Hin0 Hm0 Hv0.
  assert (Hraise : forall st1,
             In d (detection_history st1) ->
             In d0 (detection_history st1) ->
             generate_kml st1 = None).
  { intros st1 H1 H0. unfold generate_kml.
    apply (kml_document_unstamped_pilot py_ne0 staleThreshold (ALIASES st1)
             _ m (sample_of_detection d)).
    - apply in_map. exact H1.
    - exact Hm.
    - simpl. unfold valid_pilot in Hp. rewrite !num_truthy_get_or. exact Hp.
    - exact Hts.
    - apply (In_flight_points m _ d0 H0 Hm0 Hv0). }
  split; [apply Hraise; assumption|].
  intros e d1 Htr.
  destruct (history_grows e d1 st) as (tail & Hh).
  assert (H1 : In d (detection_history (fst (update_detection e d1 st)))).
  { rewrite Hh. apply in_or_app. left. exact Hin. }
  assert (H0 : In d0 (detection_history (fst (update_detection e d1 st)))).
  { rewrite Hh. apply in_or_app. left. exact Hin0. }
  split; [|split; assumption].
  destruct (update_detection_kml e d1 st Htr) as (Ho & _).
  rewrite Ho, (Hraise _ H1 H0). reflexivity.
Qed.

Lemma unstamped_pilot_stops_session_kml_witness :
  generate_kml state_unstamped_pilot = None
  /\ snd (update_detection sample_env fix_AA state_unstamped_pilot) = Raised.
Proof.
  assert (Hin : In nofix_pilot_AA (detection_history state_unstamped_pilot)).
  { right. left. reflexivity. }
  assert (Hin0 : In (seen_AA 1000 (10#1))
                   (detection_history state_unstamped_pilot)).
  { left. reflexivity. }
  destruct (unstamped_pilot_stops_session_kml state_unstamped_pilot
              "AA"%string nofix_pilot_AA (seen_AA 1000 (10#1))
              Hin eq_refl eq_refl eq_refl Hin0 eq_refl eq_refl) as [Hg Hu].
  split; [exact Hg|].
  apply (Hu sample_env fix_AA eq_refl).
Defined.

(** ** Flight segmentation on every history *)

Lemma history_points_flight_points :
  forall m hist,
    flight_points m (map sample_of_detection hist) = history_points m hist.
Proof.
  intros m hist. unfold history_points.
  induction hist as [|d t IH]; [reflexivity|].
  simpl map at 1. rewrite flight_points_cons, flight_sample_of_detection.
  simpl filter. destruct (get_is m (mac d) && valid_drone d)%bool.
  - simpl. rewrite IH. reflexivity.
  - exact IH.
Qed.


Lemma recorded_with_mac_samples :
  forall hist,
    all_have_mac (map sample_of_detection hist) = recorded_with_mac hist.
Proof.
  intro hist. unfold all_have_mac, recorded_with_mac.
  induction hist as [|d t IH]; [reflexivity|]. simpl. rewrite IH.
  reflexivity.
Qed.

Lemma positions_timed_samples :
  forall hist,
    stamped py_ne0 (map sample_of_detection hist) = positions_timed hist.
Proof.
  intro hist. unfold stamped, positions_timed.
  induction hist as [|d t IH]; [reflexivity|]. simpl. rewrite IH.
  rewrite !num_truthy_get_or. reflexivity.
Qed.








(** Whenever a generator over points with true timestamps returns, the
    flights of each mac in its document are numbered from 1 and cut the
    points of the mac exactly at the steps over the threshold. *)
Lemma kml_document_returned_segmented :
  forall ts_truthy thr aliases hist doc,
    stamped ts_truthy hist = true ->
    kml_document ts_truthy thr aliases hist = Some doc ->
    forall m,
      segmented thr (flight_points m hist) (map f_points (folders_of m doc))
      /\ map f_idx (folders_of m doc)
         = seq 1 (List.length (folders_of m doc)).
Proof.
  intros T thr aliases hist doc Hst Hd m.
  pose proof (kml_document_view T thr aliases hist doc Hd m) as Hv.
  destruct (segment_segmented T thr (flight_points m hist) 1 None []
              (stamped_flight_points T m hist Hst) eq_refl)
    as (segs & Hs & Hseg & Hidx).
  rewrite Hs in Hv. injection Hv as Hv. simpl in Hseg.
  assert (Hp : map f_points (folders_of m doc) = map snd segs).
  { rewrite Hv, map_map. reflexivity. }
  assert (Hi : map f_idx (folders_of m doc) = map fst segs).
  { rewrite Hv, map_map. reflexivity. }
  assert (Hlen : List.length segs = List.length (folders_of m doc)).
  { rewrite Hv, length_map. reflexivity. }
  rewrite Hp, Hi, Hidx, Hlen. split; [exact Hseg | reflexivity].
Qed.



(** The four sightings of AA make two flights in both exports: the first
    three points, the step of exactly 60 s included, then the last one. *)
Example generate_kml_two_flights :
  option_map (map (fun f => (f_idx f, map pt_ts (f_points f))))
    (generate_kml state_flights)
  = Some [(1%nat, [Some 1000; Some 1030; Some 1090]); (2%nat, [Some 1200])]
  /\ option_map (map (fun f => (f_idx f, map pt_ts (f_points f))))
       (generate_cumulative_kml state_flights)
     = Some [(1%nat, [Some 1000; Some 1030; Some 1090]); (2%nat, [Some 1200])].
Proof. split; vm_compute; reflexivity. Qed.

(** ** Detections with and without a position, and every export *)





Lemma py_ne0_false_iff : forall x, py_ne0 x = false <-> x == 0.
Proof.
  intro x. unfold py_ne0. rewrite negb_false_iff. apply Qeq_bool_iff.
Qed.







(** ** The cache write of the no-GPS branch *)

(** X6: a no-GPS detection with a remote id and no registry data writes
    the empty object into the cache under (mac, remote id), replacing
    what was cached there; the next GPS detection of that mac that has no
    remote id of its own (or, with registry data of its own) is then
    stored with that remote id and with the empty object as registry
    data. *)
Theorem no_gps_caches_empty_registry_data :
  forall e d st m r,
    mac d = Some m -> m <> ""%string -> valid_drone d = false ->
    basic_id d = Some r -> r <> ""%string -> faa_data d = None ->
    let st1 := fst (update_detection e d st) in
    od_get key_eqb (m, r) (FAA_CACHE st1) = Some (JObj [])
    /\ forall e2 d2,
         mac d2 = Some m -> valid_drone d2 = true ->
         str_truthy (basic_id d2) = false ->
         exists d',
           od_get String.eqb m
             (tracked_pairs (fst (update_detection e2 d2 st1))) = Some d'
           /\ basic_id d' = Some r
           /\ faa_data d' = Some (JObj []).
Proof.
  intros e d st m r Hm Hne Hv Hb Hr Hf st1. subst st1.
  rewrite (update_detection_no_gps e d st m Hm Hne Hv).
  set (st1 := fst (no_gps_update e m d st)).
  destruct (no_gps_update_files e m d st) as (_ & Hc & _).
  destruct (no_gps_update_memory e m d st) as (Htp & _).
  fold st1 in Hc, Htp.
  assert (Htr : str_truthy (Some r) = true).
  { simpl. apply String.eqb_neq in Hr. rewrite Hr. reflexivity. }
  rewrite Hb, Htr, Hf in Hc. simpl in Hc.
  assert (Hcache : od_get key_eqb (m, r) (FAA_CACHE st1) = Some (JObj [])).
  { rewrite Hc. apply cache_get_set_same. }
  split; [exact Hcache|].
  intros e2 d2 Hm2 Hv2 Hb2.
  rewrite (update_detection_gps e2 d2 st1 m Hm2 Hne Hv2).
  destruct (gps_update_memory e2 m d2 st1) as (Htp2 & _).
  exists (merge_detection e2 m d2 st1). rewrite Htp2.
  split; [apply tracked_get_set_same|].
  destruct (merge_detection_fields e2 m d2 st1)
    as (_ & _ & _ & _ & _ & _ & Hbid).
  assert (Hbid' : basic_id (merge_detection e2 m d2 st1) = Some r).
  { rewrite Hbid.
    apply (carry_basic_id_keeps m (tracked_pairs st1) _ d r); auto.
    rewrite Htp. apply tracked_get_set_same. }
  split; [exact Hbid'|].
  pose proof (merge_detection_faa e2 m d2 st1) as Hfaa. cbv zeta in Hfaa.
  rewrite Hfaa, Hbid'. unfold faa_cascade, cache_exact.
  rewrite Htr. simpl get_or. rewrite Hcache.
  destruct (faa_data d2); reflexivity.
Qed.

Lemma no_gps_caches_empty_registry_data_witness :
  od_get key_eqb ("AA"%string, "R1"%string)
    (FAA_CACHE (fst (update_detection sample_env nofix_pilot_R1
                       state_AA_cached)))
  = Some (JObj []).
Proof.
  assert (Hne : "AA"%string <> ""%string) by discriminate.
  assert (Hr : "R1"%string <> ""%string) by discriminate.
  destruct (no_gps_caches_empty_registry_data sample_env nofix_pilot_R1
              state_AA_cached "AA"%string "R1"%string
              eq_refl Hne eq_refl eq_refl Hr eq_refl) as [Hc _].
  exact Hc.
Defined.

(** ** The folders of a KML document *)

Lemma pilot_pts_window :
  forall m start_ts end_ts hist pp,
    pilot_pts m start_ts end_ts hist = Some pp ->
    pp = pilot_window m start_ts end_ts hist.
Proof.
  intros m start_ts end_ts hist. unfold pilot_window.
  induction hist as [|d t IH]; intros pp H; simpl in H.
  - injection H as <-. reflexivity.
  - simpl.
    destruct (get_is m (s_mac d) && num_truthy (s_plat d)
              && num_truthy (s_plon d))%bool; simpl; [|apply IH; exact H].
    destruct (s_ts d) as [lu|]; [|discriminate]. simpl.
    destruct (Qle_bool start_ts lu); simpl.
    + destruct end_ts as [en|]; [|discriminate].
      destruct (Qle_bool lu en); simpl; [|apply IH; exact H].
      destruct (pilot_pts m start_ts (Some en) t) as [rest|]; [|discriminate].
      simpl in H. injection H as <-. rewrite (IH rest eq_refl). reflexivity.
    + destruct end_ts; apply IH; exact H.
Qed.

Lemma render_In :
  forall hist m alias segs fs f,
    render hist m alias segs = Some fs -> In f fs ->
    exists idx p0 r, flush hist m alias idx p0 r = Some f.
Proof.
  intros hist m alias segs.
  induction segs as [|[idx pts] t IH]; intros fs f H Hin; simpl in H.
  - injection H as <-. destruct Hin.
  - unfold flush_flight in H. simpl in H.
    destruct pts as [|p0 r]; [discriminate|].
    destruct (flush hist m alias idx p0 r) as [f0|] eqn:Ef; [|discriminate].
    destruct (render hist m alias t) as [fs'|]; [|discriminate].
    simpl in H. injection H as <-. destruct Hin as [Heq|Hin].
    + subst f0. exists idx, p0, r. exact Ef.
    + apply (IH fs' f eq_refl Hin).
Qed.

Lemma kml_folders_In :
  forall ts_truthy thr aliases hist macs doc f,
    kml_folders ts_truthy thr aliases hist macs = Some doc -> In f doc ->
    exists m fs,
      mac_flights ts_truthy thr hist m
        (get_or (od_get String.eqb m aliases) ""%string) = Some fs
      /\ In f fs.
Proof.
  intros T thr aliases hist macs.
  induction macs as [|m0 ms IH]; intros doc f H Hin; simpl in H.
  - injection H as <-. destruct Hin.
  - destruct (mac_flights T thr hist m0 _) as [fs|] eqn:Efs; [|discriminate].
    destruct (kml_folders T thr aliases hist ms) as [rest|]; [|discriminate].
    simpl in H. injection H as <-. apply in_app_or in Hin.
    destruct Hin as [Hin|Hin].
    + exists m0, fs. split; assumption.
    + apply (IH rest f eq_refl Hin).
Qed.

(** What a folder of a document is made of. *)
Lemma kml_document_folder :
  forall ts_truthy thr aliases hist doc f,
    kml_document ts_truthy thr aliases hist = Some doc -> In f doc ->
    exists p0 r,
      f_points f = p0 :: r
      /\ pt_ts p0 = Some (f_start f)
      /\ f_alias f = get_or (od_get String.eqb (f_mac f) aliases) ""%string
      /\ f_pilot f
         = pilot_window (f_mac f) (f_start f) (pt_ts (last r p0)) hist.
Proof.
  intros T thr aliases hist doc f H Hin. unfold kml_document in H.
  destruct (all_macs hist) as [ms|]; [|discriminate].
  destruct (kml_folders_In T thr aliases hist _ doc f H Hin)
    as (m & fs & Hfs & Hf).
  unfold mac_flights in Hfs. rewrite flight_loop_stages in Hfs.
  destruct (segment T thr (flight_points m hist) 1 None []) as [segs|];
    [|discriminate].
  destruct (render hist m _ segs) as [fs'|] eqn:Er; [|discriminate].
  simpl in Hfs. injection Hfs as <-.
  destruct (render_In hist m _ segs fs' f Er Hf) as (idx & p0 & r & Hflush).
  unfold flush in Hflush.
  destruct (pt_ts p0) as [start_ts|] eqn:Ets; [|discriminate].
  destruct (pilot_pts m start_ts (pt_ts (last r p0)) hist) as [pp|] eqn:Epp;
    [|discriminate].
  injection Hflush as <-. simpl. exists p0, r.
  split; [reflexivity|]. split; [exact Ets|]. split; [reflexivity|].
  apply pilot_pts_window. exact Epp.
Qed.

(** X7: in both KML exports every flight folder has at least one point,
    is dated by its first point and labelled with the alias of its mac,
    and its pilot path is made of the pilot positions of that mac whose
    timestamp lies between the timestamps of the first and the last point
    of the flight, both included, in history order. *)
Theorem folder_pilot_path_in_window :
  forall st f,
    (In f (get_or (generate_kml st) [])
     -> exists p0 r,
          f_points f = p0 :: r
          /\ pt_ts p0 = Some (f_start f)
          /\ f_alias f
             = get_or (od_get String.eqb (f_mac f) (ALIASES st)) ""%string
          /\ f_pilot f
             = pilot_window (f_mac f) (f_start f) (pt_ts (last r p0))
                 (map sample_of_detection (detection_history st)))
    /\ (In f (get_or (generate_cumulative_kml st) [])
        -> exists p0 r,
             f_points f = p0 :: r
             /\ pt_ts p0 = Some (f_start f)
             /\ f_alias f
                = get_or (od_get String.eqb (f_mac f) (ALIASES st)) ""%string
             /\ f_pilot f
                = pilot_window (f_mac f) (f_start f) (pt_ts (last r p0))
                    (map sample_of_row (cumulative_csv st))).
Proof.
  intros st f. split; intro Hin.
  - destruct (generate_kml st) as [doc|] eqn:E; [|destruct Hin].
    apply (kml_document_folder py_ne0 staleThreshold _ _ doc f E Hin).
  - destruct (generate_cumulative_kml st) as [doc|] eqn:E; [|destruct Hin].
    apply (kml_document_folder (fun _ => true) staleThreshold _ _ doc f E Hin).
Qed.

Lemma folder_pilot_path_in_window_witness :
  exists f p0 r,
    In f (get_or (generate_kml state_flights) [])
    /\ f_points f = p0 :: r
    /\ pt_ts p0 = Some (f_start f).
Proof.
  set (f := hd (mkFolder ""%string ""%string 0 0 [] [])
              (get_or (generate_kml state_flights) [])).
  assert (Hin : In f (get_or (generate_kml state_flights) [])).
  { vm_compute. left. reflexivity. }
  destruct (folder_pilot_path_in_window state_flights f) as [Hs _].
  destruct (Hs Hin) as (p0 & r & Hp & Ht & _).
  exists f, p0, r. repeat split; assumption.
Defined.

(** ** Repeated positions on a path *)

Lemma last_default_eqb :
  forall (t : list path_point) p d1 d2,
    point_eqb d1 d2 = true ->
    point_eqb p (last t d1) = point_eqb p (last t d2).
Proof.
  intros t p d1 d2 H. destruct t as [|x t'].
  - simpl. apply point_eqb_congr. exact H.
  - assert (Hl : forall d, last (x :: t') d = last t' x).
    { clear. revert x. induction t' as [|a t' IH]; intros x d; [reflexivity|].
      change (last (x :: a :: t') d) with (last (a :: t') d).
      rewrite (IH a d), (IH a x). reflexivity. }
    rewrite (Hl d1), (Hl d2). reflexivity.
Qed.

Lemma path_last_cons :
  forall (t : list path_point) q d, last (q :: t) d = last t q.
Proof.
  induction t as [|a t IH]; intros q d; [reflexivity|].
  change (last (q :: a :: t) d) with (last (a :: t) d).
  rewrite (IH a d), (IH a q). reflexivity.
Qed.

(** One more point at the end of a path: kept unless it equals the point
    before it. *)
Lemma dedupe_from_snoc :
  forall l prev p,
    dedupe_from prev (l ++ [p])
    = dedupe_from prev l ++ (if point_eqb p (last l prev) then [] else [p]).
Proof.
  induction l as [|q t IH]; intros prev p.
  - simpl. destruct (point_eqb p prev); reflexivity.
  - rewrite (path_last_cons t q prev).
    change ((q :: t) ++ [p]) with (q :: (t ++ [p])).
    cbn [dedupe_from].
    destruct (point_eqb q prev) eqn:E.
    + rewrite IH. rewrite (last_default_eqb t p q prev E). reflexivity.
    + rewrite IH. reflexivity.
Qed.

Lemma dedupe_snoc :
  forall old p,
    dedupe (old ++ [p])
    = dedupe old ++ (if repeats_last p old then [] else [p]).
Proof.
  intros [|q t] p; [reflexivity|].
  simpl. rewrite dedupe_from_snoc. reflexivity.
Qed.

(** X8: a position sent twice does not lengthen the path.  After a GPS
    detection of mac [m] the drone polyline of [m] in [api_paths] is the
    polyline it was, followed by the new position unless that position
    equals the last drone position of [m] in the history. *)
Theorem api_paths_repeated_position :
  forall e d st m,
    mac d = Some m -> m <> ""%string -> valid_drone d = true ->
    let st' := fst (update_detection e d st) in
    let p := (get_or (drone_lat d) 0, get_or (drone_long d) 0) in
    od_get String.eqb m (fst (api_paths st'))
    = Some
        (get_or (od_get String.eqb m (fst (api_paths st))) []
           ++ (if repeats_last p (drone_pts m (detection_history st))
               then [] else [p])).
Proof.
  intros e d st m Hm Hne Hv st' p. subst st'.
  rewrite (update_detection_gps e d st m Hm Hne Hv).
  destruct (gps_update_memory e m d st) as (_ & Hh & _).
  destruct (merge_detection_fields e m d st)
    as (Hm' & Hnow & Hlat & Hlong & _).
  rewrite Hm in Hm'.
  assert (Hv' := Hv). unfold valid_drone in Hv'.
  apply andb_true_iff in Hv'. destruct Hv' as [Hla Hlo].
  destruct (gps_record_in_exports m _ _ _ (time_time e)
              (detection_history st) Hm' Hne Hlat Hlong Hnow Hla Hlo)
    as [Hdp _].
  rewrite !api_paths_fst, !dedupe_all_get.
  destruct (collect_paths_get (detection_history (fst (gps_update e m d st)))
              [] [] m Hne) as [Hget' _].
  destruct (collect_paths_get (detection_history st) [] [] m Hne)
    as [Hget _].
  rewrite Hget', Hget, Hh, Hdp. fold p. simpl od_get.
  set (old := drone_pts m (detection_history st)).
  assert (Hnew : path_extend None (old ++ [p]) = Some (old ++ [p])).
  { destruct old; reflexivity. }
  rewrite Hnew. simpl option_map. rewrite dedupe_snoc. f_equal. f_equal.
  destruct old; reflexivity.
Qed.

Lemma api_paths_repeated_position_witness :
  od_get String.eqb "AA"%string
    (fst (api_paths (fst (update_detection sample_env fix_AA_again state_AA))))
  = Some [(10#1, 20#1)].
Proof.
  assert (Hne : "AA"%string <> ""%string) by discriminate.
  rewrite (api_paths_repeated_position sample_env fix_AA_again state_AA
             "AA"%string eq_refl Hne eq_refl).
  vm_compute. reflexivity.
Defined.

(** ** GET /api/detections_history *)

Lemma api_detections_history_loop_spec :
  forall (datetime : Type) (fromtimestamp : Q -> option datetime) hist,
    match api_detections_history_loop fromtimestamp hist with
    | None =>
        exists d,
          In d hist /\ both_zero d = false
          /\ feature_time fromtimestamp d = None
    | Some fs =>
        map (@ft_details datetime) fs
        = filter (fun d => negb (both_zero d)) hist
        /\ (forall d, In d hist -> both_zero d = false ->
                      feature_time fromtimestamp d <> None)
        /\ Forall
             (fun f =>
                feature_time fromtimestamp (ft_details f) = Some (ft_time f)
                /\ ft_mac f = mac (ft_details f)
                /\ ft_rssi f = rssi (ft_details f)
                /\ ft_coordinates f
                   = (drone_long (ft_details f), drone_lat (ft_details f)))
             fs
    end.
Proof.
  intros datetime fromtimestamp.
  induction hist as [|d t IH]; simpl.
  - split; [reflexivity|]. split; [intros d []|constructor].
  - fold (both_zero d). destruct (both_zero d) eqn:Ez; simpl.
    + destruct (api_detections_history_loop fromtimestamp t) as [fs|].
      * destruct IH as (Hmap & Hall & Hf). split; [exact Hmap|].
        split; [|exact Hf].
        intros d0 [H|H] Hz; [subst; rewrite Ez in Hz; discriminate|].
        apply Hall; assumption.
      * destruct IH as (d0 & Hin & Hz & Hl). exists d0. auto.
    + destruct (feature_time fromtimestamp d) as [time|] eqn:El.
      * destruct (api_detections_history_loop fromtimestamp t) as [fs|];
          simpl.
        -- destruct IH as (Hmap & Hall & Hf).
           split; [rewrite Hmap; reflexivity|].
           split.
           ++ intros d0 [H|H] Hz; [subst; rewrite El; discriminate|].
              apply Hall; assumption.
           ++ constructor; [simpl; auto | exact Hf].
        -- destruct IH as (d0 & Hin & Hz & Hl). exists d0. auto.
      * exists d. auto.
Qed.

Lemma feature_time_none :
  forall (datetime : Type) (fromtimestamp : Q -> option datetime) d,
    feature_time fromtimestamp d = None <->
    (last_update d = None
     \/ exists ts, last_update d = Some ts /\ fromtimestamp ts = None).
Proof.
  intros datetime fromtimestamp d. unfold feature_time.
  destruct (last_update d) as [ts|].
  - split.
    + intro H. right. exists ts. auto.
    + intros [H|(ts' & H & Hn)]; [discriminate|].
      injection H as <-. exact Hn.
  - split; [intros _; left; reflexivity | reflexivity].
Qed.

(** X9: the history endpoint, for any behaviour of
    [datetime.fromtimestamp].  It raises exactly when some history record
    that does not have both drone coordinates zero has no [last_update]
    or has one that the conversion rejects; otherwise it returns one
    feature per record that does not have both drone coordinates zero,
    in history order, dated by the conversion of the record's
    [last_update].  A record with exactly one zero coordinate is
    therefore a feature here although it is on no path, and it is stored
    with the [last_update] it came with. *)
Theorem api_detections_history_spec :
  forall (datetime : Type) (fromtimestamp : Q -> option datetime) st,
    (api_detections_history fromtimestamp st = None <->
     exists d,
       In d (detection_history st) /\ both_zero d = false
       /\ (last_update d = None
           \/ exists ts, last_update d = Some ts /\ fromtimestamp ts = None))
    /\ (forall fs,
          api_detections_history fromtimestamp st = Some fs ->
          map (@ft_details datetime) fs
          = filter (fun d => negb (both_zero d)) (detection_history st)
          /\ Forall
               (fun f =>
                  exists ts,
                    last_update (ft_details f) = Some ts
                    /\ fromtimestamp ts = Some (ft_time f))
               fs).
Proof.
  intros datetime fromtimestamp st. unfold api_detections_history.
  pose proof (api_detections_history_loop_spec datetime fromtimestamp
                (detection_history st)) as H.
  destruct (api_detections_history_loop fromtimestamp (detection_history st))
    as [fs|].
  - destruct H as (Hmap & Hall & Hf). split.
    + split; [discriminate|]. intros (d & Hin & Hz & Hl).
      exfalso. apply (Hall d Hin Hz).
      apply feature_time_none. exact Hl.
    + intros fs' Heq. injection Heq as <-. split; [exact Hmap|].
      apply (Forall_impl _ (P := fun f =>
               feature_time fromtimestamp (ft_details f) = Some (ft_time f)
               /\ ft_mac f = mac (ft_details f)
               /\ ft_rssi f = rssi (ft_details f)
               /\ ft_coordinates f
                  = (drone_long (ft_details f), drone_lat (ft_details f))));
        [|exact Hf].
      intros f (Ht & _). unfold feature_time in Ht.
      destruct (last_update (ft_details f)) as [ts|]; [|discriminate].
      exists ts. auto.
  - split.
    + split; [|reflexivity]. intros _.
      destruct H as (d & Hin & Hz & Hl). exists d.
      split; [exact Hin|]. split; [exact Hz|].
      apply feature_time_none. exact Hl.
    + intros fs Heq. discriminate.
Qed.

Lemma api_detections_history_spec_witness :
  api_detections_history fromtimestamp_to_9999 state_half_fix = None
  /\ api_detections_history fromtimestamp_to_9999 state_half_fix_ms = None
  /\ option_map (map (@ft_time Q))
       (api_detections_history fromtimestamp_to_9999 state_AA)
     = Some [900].
Proof.
  destruct (api_detections_history_spec Q fromtimestamp_to_9999
              state_half_fix)
    as [Hnone _].
  destruct (api_detections_history_spec Q fromtimestamp_to_9999
              state_half_fix_ms) as [Hms _].
  split; [|split].
  - apply Hnone. exists half_fix_AA.
    split; [right; left; reflexivity|].
    split; [reflexivity | left; reflexivity].
  - apply Hms. exists half_fix_ms.
    split; [right; left; reflexivity|].
    split; [reflexivity|]. right. exists 1700000000000.
    split; reflexivity.
  - vm_compute. reflexivity.
Defined.

(** ** POST /api/query_faa *)

Lemma str_truthy_some :
  forall o, str_truthy o = true ->
            exists s, o = Some s /\ s <> ""%string.
Proof.
  intros [s|] H; [|discriminate]. exists s. split; [reflexivity|].
  simpl in H. apply negb_true_iff in H. apply String.eqb_neq. exact H.
Qed.

Lemma query_store_spec :
  forall q m r p sv,
    let st := core sv in
    let sv' := fst (query_store q m r p sv) in
    snd (query_store q m r p sv)
    = match generate_kml (core sv') with
      | Some _ => QOk p
      | None => QRaised
      end
    /\ tracked_pairs (core sv') =
         od_set String.eqb m
           match od_get String.eqb m (tracked_pairs st) with
           | Some det => set_faa_data p det
           | None => queried_entry r p
           end (tracked_pairs st)
    /\ detection_history (core sv') = detection_history st
    /\ FAA_CACHE (core sv') = od_set key_eqb (m, r) p (FAA_CACHE st)
    /\ faa_cache_file (core sv') = faa_cache_file st ++ [(m, r, p)]
    /\ ALIASES (core sv') = ALIASES st
    /\ faa_log sv' = faa_log sv ++ [mkLogRow (now_log q) m r p]
    /\ registry sv' = registry sv ++ [GetHomepage; GetSerialNumber r]
    /\ (forall doc, generate_kml (core sv') = Some doc ->
                    session_kml (core sv') = doc).
Proof.
  intros q m r p sv st sv'. subst st sv'. unfold query_store.
  match goal with
  | |- context [generate_kml ?s] => set (st2 := s)
  end.
  destruct (generate_kml st2) as [doc|] eqn:Eg; cbn [fst snd core].
  - rewrite (generate_kml_ext st2 (set_kml doc (cumulative_kml st2) st2)
               eq_refl eq_refl), Eg.
    repeat split. intros doc' Hd. injection Hd as <-. reflexivity.
  - rewrite Eg. repeat split. intros doc' Hd. discriminate.
Qed.

(** What a call with both fields does, by the value it goes on with. *)
Lemma api_query_faa_run :
  forall q m r sv,
    m <> ""%string -> r <> ""%string ->
    api_query_faa q (Some m) (Some r) sv
    = match query_result q m (FAA_CACHE (core sv)) with
      | None =>
          (mkServer (core sv) (aliases_json sv) (faa_log sv)
             (registry sv ++ [GetHomepage; GetSerialNumber r])
             (last_mac_by_port sv), QRaised)
      | Some JNull =>
          (mkServer (core sv) (aliases_json sv) (faa_log sv)
             (registry sv ++ [GetHomepage; GetSerialNumber r])
             (last_mac_by_port sv), QFailed500)
      | Some p => query_store q m r p sv
      end.
Proof.
  intros q m r sv Hm Hr. unfold api_query_faa, query_result.
  assert (Htm : str_truthy (Some m) = true).
  { simpl. apply String.eqb_neq in Hm. rewrite Hm. reflexivity. }
  assert (Htr : str_truthy (Some r) = true).
  { simpl. apply String.eqb_neq in Hr. rewrite Hr. reflexivity. }
  rewrite Htm, Htr. cbn [negb orb get_or].
  destruct (needs_fallback (answer q)) as [[|]|]; [| |reflexivity].
  - destruct (get_or (od_first _ _) (answer q)); reflexivity.
  - destruct (answer q); reflexivity.
Qed.

Lemma api_query_faa_missing :
  forall q mac_arg remote_id_arg sv,
    str_truthy mac_arg = false \/ str_truthy remote_id_arg = false ->
    api_query_faa q mac_arg remote_id_arg sv = (sv, QMissing400).
Proof.
  intros q mac_arg remote_id_arg sv H. unfold api_query_faa.
  destruct H as [H|H]; rewrite H; simpl; rewrite ?orb_true_r; reflexivity.
Qed.

(** The answers of a call, case by case. *)
Lemma api_query_faa_cases :
  forall q mac_arg remote_id_arg sv,
    ((str_truthy mac_arg = false \/ str_truthy remote_id_arg = false)
     /\ api_query_faa q mac_arg remote_id_arg sv = (sv, QMissing400))
    \/ exists m r,
         mac_arg = Some m /\ remote_id_arg = Some r
         /\ m <> ""%string /\ r <> ""%string
         /\ api_query_faa q mac_arg remote_id_arg sv
            = match query_result q m (FAA_CACHE (core sv)) with
              | None =>
                  (mkServer (core sv) (aliases_json sv) (faa_log sv)
                     (registry sv ++ [GetHomepage; GetSerialNumber r])
                     (last_mac_by_port sv), QRaised)
              | Some JNull =>
                  (mkServer (core sv) (aliases_json sv) (faa_log sv)
                     (registry sv ++ [GetHomepage; GetSerialNumber r])
                     (last_mac_by_port sv), QFailed500)
              | Some p => query_store q m r p sv
              end.
Proof.
  intros q mac_arg remote_id_arg sv.
  destruct (str_truthy mac_arg) eqn:Em.
  - destruct (str_truthy remote_id_arg) eqn:Er.
    + right. destruct (str_truthy_some _ Em) as (m & -> & Hm).
      destruct (str_truthy_some _ Er) as (r & -> & Hr).
      exists m, r. repeat split; auto. apply api_query_faa_run; assumption.
    + left. split; [right; reflexivity|].
      apply api_query_faa_missing. right. exact Er.
  - left. split; [left; reflexivity|].
    apply api_query_faa_missing. left. exact Em.
Qed.

Lemma query_store_ok :
  forall q m r p p0 sv,
    snd (query_store q m r p sv) = QOk p0 -> p0 = p.
Proof.
  intros q m r p p0 sv H. unfold query_store in H.
  destruct (generate_kml _); simpl in H; [|discriminate].
  injection H as <-. reflexivity.
Qed.

(** A call that answers ok went through [query_store]. *)
Lemma api_query_faa_ok :
  forall q mac_arg remote_id_arg sv sv' p,
    api_query_faa q mac_arg remote_id_arg sv = (sv', QOk p) ->
    exists m r,
      mac_arg = Some m /\ remote_id_arg = Some r
      /\ m <> ""%string /\ r <> ""%string
      /\ query_result q m (FAA_CACHE (core sv)) = Some p
      /\ p <> JNull
      /\ query_store q m r p sv = (sv', QOk p).
Proof.
  intros q mac_arg remote_id_arg sv sv' p H.
  destruct (api_query_faa_cases q mac_arg remote_id_arg sv)
    as [[_ Heq] | (m & r & Hm & Hr & Hmne & Hrne & Heq)].
  - rewrite Heq in H. discriminate.
  - rewrite Heq in H. exists m, r.
    destruct (query_result q m (FAA_CACHE (core sv))) as [p'|];
      [|discriminate].
    assert (Hp : p' <> JNull /\ query_store q m r p' sv = (sv', QOk p)).
    { destruct p'; try discriminate; (split; [discriminate | exact H]). }
    destruct Hp as [Hnn Hst].
    assert (Hpp : p = p').
    { apply (query_store_ok q m r p' p sv). rewrite Hst. reflexivity. }
    subst p'. repeat split; auto.
Qed.

(** X10: what was resolved can be read back.  When [api_query_faa]
    answers ok with registry data [p] for a mac and a remote id, a
    following GET /api/faa/<mac> answers 200 with [p]; [p] is cached under
    (mac, remote id) and logged; the history is untouched and the session
    KML file is the document of the state. *)
Theorem query_faa_then_get_faa :
  forall q m r sv sv' p,
    api_query_faa q (Some m) (Some r) sv = (sv', QOk p) ->
    snd (api_get_faa m (core sv')) = Ok200 p
    /\ od_get key_eqb (m, r) (FAA_CACHE (core sv')) = Some p
    /\ faa_cache_file (core sv') = faa_cache_file (core sv) ++ [(m, r, p)]
    /\ faa_log sv' = faa_log sv ++ [mkLogRow (now_log q) m r p]
    /\ detection_history (core sv') = detection_history (core sv)
    /\ generate_kml (core sv') = Some (session_kml (core sv')).
Proof.
  intros q m r sv sv' p H.
  destruct (api_query_faa_ok q _ _ sv sv' p H)
    as (m0 & r0 & Hm & Hr & _ & _ & _ & _ & Hst).
  injection Hm as <-. injection Hr as <-.
  destruct (query_store_spec q m r p sv)
    as (Hresp & Htp & Hh & Hc & Hf & _ & Hl & _ & Hk).
  rewrite Hst in Hresp, Htp, Hh, Hc, Hf, Hl, Hk.
  cbn [fst snd] in Hresp, Htp, Hh, Hc, Hf, Hl, Hk.
  split.
  - unfold api_get_faa, faa_by_mac. rewrite Htp, tracked_get_set_same.
    destruct (od_get String.eqb m (tracked_pairs (core sv))); reflexivity.
  - split; [rewrite Hc; apply cache_get_set_same|].
    split; [exact Hf|]. split; [exact Hl|]. split; [exact Hh|].
    destruct (generate_kml (core sv')) as [doc|] eqn:Eg; [|discriminate].
    rewrite (Hk doc eq_refl). reflexivity.
Qed.

Lemma query_faa_then_get_faa_witness :
  snd (api_get_faa "AA"%string
         (core (fst (api_query_faa answer_one_item (Some "AA"%string)
                       (Some "R1"%string) server_empty))))
  = Ok200 (answer answer_one_item).
Proof.
  assert (H : api_query_faa answer_one_item (Some "AA"%string)
                (Some "R1"%string) server_empty
              = (fst (api_query_faa answer_one_item (Some "AA"%string)
                        (Some "R1"%string) server_empty),
                 QOk (answer answer_one_item))).
  { vm_compute. reflexivity. }
  destruct (query_faa_then_get_faa answer_one_item "AA"%string "R1"%string
              server_empty _ _ H) as (Hget & _).
  exact Hget.
Defined.

Lemma query_result_null :
  forall q m cache,
    query_result q m cache = Some JNull ->
    needs_fallback (answer q) = Some true
    /\ get_or (od_first (fun k _ => (fst k =? m)%string) cache) (answer q)
       = JNull.
Proof.
  intros q m cache H. unfold query_result in H.
  destruct (needs_fallback (answer q)) as [[|]|] eqn:Enf; [| |discriminate].
  - injection H as H. split; [reflexivity | exact H].
  - injection H as H. rewrite H in Enf. simpl in Enf. discriminate.
Qed.

Lemma api_query_faa_failed :
  forall q m r sv,
    m <> ""%string -> r <> ""%string ->
    snd (api_query_faa q (Some m) (Some r) sv) <> QMissing400
    /\ (snd (api_query_faa q (Some m) (Some r) sv) = QFailed500 ->
        query_result q m (FAA_CACHE (core sv)) = Some JNull
        /\ core (fst (api_query_faa q (Some m) (Some r) sv)) = core sv
        /\ faa_log (fst (api_query_faa q (Some m) (Some r) sv)) = faa_log sv).
Proof.
  intros q m r sv Hm Hr. rewrite (api_query_faa_run q m r sv Hm Hr).
  assert (Hst : forall p,
             snd (query_store q m r p sv) <> QMissing400
             /\ snd (query_store q m r p sv) <> QFailed500).
  { intro p. unfold query_store.
    destruct (generate_kml _); cbn [snd]; split; discriminate. }
  destruct (query_result q m (FAA_CACHE (core sv))) as [p|].
  - destruct p;
      try (split; [apply Hst | intro H; exfalso; apply (proj2 (Hst _) H)]).
    cbn [fst snd core faa_log]. split; [discriminate|].
    intros _. repeat split.
  - cbn [fst snd]. split; discriminate.
Qed.

(** X11: the error answers store nothing.  The answer is 400 exactly
    when the mac or the remote id is missing or empty, and then the
    server is untouched and no request is sent; the answer is "FAA query
    failed" only when the registry gave nothing usable and the cache has
    no value for the mac (or a null one), and then the store, the cache
    and the log are untouched. *)
Theorem query_faa_errors_store_nothing :
  forall q mac_arg remote_id_arg sv,
    let sv' := fst (api_query_faa q mac_arg remote_id_arg sv) in
    let resp := snd (api_query_faa q mac_arg remote_id_arg sv) in
    (resp = QMissing400 <->
     str_truthy mac_arg = false \/ str_truthy remote_id_arg = false)
    /\ (resp = QMissing400 -> sv' = sv)
    /\ (resp = QFailed500 ->
        core sv' = core sv /\ faa_log sv' = faa_log sv
        /\ needs_fallback (answer q) = Some true
        /\ get_or
             (od_first
                (fun k _ => (fst k =? get_or mac_arg "")%string)
                (FAA_CACHE (core sv)))
             (answer q) = JNull).
Proof.
  intros q mac_arg remote_id_arg sv sv' resp. subst sv' resp.
  destruct (api_query_faa_cases q mac_arg remote_id_arg sv)
    as [[Hf Heq] | (m & r & Hm & Hr & Hmne & Hrne & _)].
  - rewrite Heq. cbn [fst snd].
    split; [split; auto|]. split; [reflexivity | discriminate].
  - subst mac_arg remote_id_arg.
    destruct (api_query_faa_failed q m r sv Hmne Hrne) as [Hno400 H500].
    assert (Htm : str_truthy (Some m) = true).
    { simpl. apply String.eqb_neq in Hmne. rewrite Hmne. reflexivity. }
    assert (Htr : str_truthy (Some r) = true).
    { simpl. apply String.eqb_neq in Hrne. rewrite Hrne. reflexivity. }
    split; [|split].
    + split; [intro H; contradiction|].
      intros [H|H]; [rewrite Htm in H | rewrite Htr in H]; discriminate.
    + intro H. contradiction.
    + intro H. destruct (H500 H) as (Hq & Hc & Hl).
      destruct (query_result_null q m _ Hq) as [Hnf Hv].
      simpl get_or. auto.
Qed.

Lemma query_faa_errors_store_nothing_witness :
  api_query_faa answer_failed (Some "AA"%string) None server_empty
  = (server_empty, QMissing400)
  /\ snd (api_query_faa answer_failed (Some "AA"%string) (Some "R1"%string)
            server_empty) = QFailed500
  /\ core (fst (api_query_faa answer_failed (Some "AA"%string)
                  (Some "R1"%string) server_empty)) = empty_state.
Proof.
  destruct (query_faa_errors_store_nothing answer_failed (Some "AA"%string)
              None server_empty) as (H400 & Hsame & _).
  destruct (query_faa_errors_store_nothing answer_failed (Some "AA"%string)
              (Some "R1"%string) server_empty) as (_ & _ & H500).
  assert (Hr : snd (api_query_faa answer_failed (Some "AA"%string) None
                      server_empty) = QMissing400).
  { apply H400. right. reflexivity. }
  split.
  - rewrite (surjective_pairing (api_query_faa _ _ _ _)).
    rewrite (Hsame Hr), Hr. reflexivity.
  - split; [vm_compute; reflexivity|].
    apply H500. vm_compute. reflexivity.
Defined.

(** X12: cache before failure.  When the registry answer is unusable
    (falsy, or without items) the call goes on with the first cached
    value of the mac, or with the answer itself when nothing is cached;
    unless that value is null it becomes the registry data of the live
    entry and is cached under (mac, remote id), and the answer is ok with
    that value (or an exception, when the session KML cannot be
    generated). *)
Theorem query_faa_falls_back_to_cache :
  forall q m r sv,
    m <> ""%string -> r <> ""%string ->
    needs_fallback (answer q) = Some true ->
    let p :=
      get_or (od_first (fun k _ => (fst k =? m)%string) (FAA_CACHE (core sv)))
        (answer q) in
    p <> JNull ->
    let sv' := fst (api_query_faa q (Some m) (Some r) sv) in
    (snd (api_query_faa q (Some m) (Some r) sv) = QOk p
     \/ snd (api_query_faa q (Some m) (Some r) sv) = QRaised)
    /\ faa_by_mac m (tracked_pairs (core sv')) = Some p
    /\ od_get key_eqb (m, r) (FAA_CACHE (core sv')) = Some p.
Proof.
  intros q m r sv Hm Hr Hnf p Hp sv'. subst sv'.
  assert (Hrun : api_query_faa q (Some m) (Some r) sv
                 = query_store q m r p sv).
  { rewrite (api_query_faa_run q m r sv Hm Hr). unfold query_result.
    rewrite Hnf. fold p. destruct p; try reflexivity. contradiction. }
  rewrite Hrun.
  destruct (query_store_spec q m r p sv) as (Hresp & Htp & _ & Hc & _).
  split; [|split].
  - rewrite Hresp. destruct (generate_kml _); auto.
  - unfold faa_by_mac. rewrite Htp, tracked_get_set_same.
    destruct (od_get String.eqb m (tracked_pairs (core sv))); reflexivity.
  - rewrite Hc. apply cache_get_set_same.
Qed.

Lemma query_faa_falls_back_to_cache_witness :
  snd (api_query_faa answer_no_items (Some "AA"%string) (Some "R1"%string)
         server_cached) = QOk faa_Y
  /\ od_get key_eqb ("AA"%string, "R1"%string)
       (FAA_CACHE
          (core (fst (api_query_faa answer_no_items (Some "AA"%string)
                        (Some "R1"%string) server_cached))))
     = Some faa_Y.
Proof.
  assert (Hm : "AA"%string <> ""%string) by discriminate.
  assert (Hr : "R1"%string <> ""%string) by discriminate.
  assert (Hp : get_or
                 (od_first (fun k _ => (fst k =? "AA")%string)
                    (FAA_CACHE (core server_cached)))
                 (answer answer_no_items) <> JNull) by discriminate.
  destruct (query_faa_falls_back_to_cache answer_no_items "AA"%string
              "R1"%string server_cached Hm Hr eq_refl Hp) as (_ & _ & Hc).
  split; [vm_compute; reflexivity | exact Hc].
Defined.

(** X13: resolved registry data reaches the next detection.  After
    [api_query_faa] answered ok with [p] for a mac that was not tracked,
    the next GPS detection of that mac that has no remote id of its own is
    stored with the queried remote id and with [p] as registry data. *)
Theorem query_faa_feeds_next_detection :
  forall q m r sv sv' p e d,
    od_get String.eqb m (tracked_pairs (core sv)) = None ->
    api_query_faa q (Some m) (Some r) sv = (sv', QOk p) ->
    mac d = Some m -> valid_drone d = true ->
    str_truthy (basic_id d) = false ->
    exists d',
      od_get String.eqb m
        (tracked_pairs (fst (update_detection e d (core sv')))) = Some d'
      /\ basic_id d' = Some r
      /\ faa_data d' = Some p.
Proof.
  intros q m r sv sv' p e d Hnew Hq Hm Hv Hb.
  destruct (api_query_faa_ok q _ _ sv sv' p Hq)
    as (m0 & r0 & Hm0 & Hr0 & Hmne & Hrne & _ & _ & Hst).
  injection Hm0 as <-. injection Hr0 as <-.
  destruct (query_store_spec q m r p sv) as (_ & Htp & _ & Hc & _).
  rewrite Hst in Htp, Hc. cbn [fst] in Htp, Hc. rewrite Hnew in Htp.
  rewrite (update_detection_gps e d (core sv') m Hm Hmne Hv).
  destruct (gps_update_memory e m d (core sv')) as (Htp2 & _).
  exists (merge_detection e m d (core sv')). rewrite Htp2.
  split; [apply tracked_get_set_same|].
  assert (Htr : str_truthy (Some r) = true).
  { simpl. apply String.eqb_neq in Hrne. rewrite Hrne. reflexivity. }
  destruct (merge_detection_fields e m d (core sv'))
    as (_ & _ & _ & _ & _ & _ & Hbid).
  assert (Hbid' : basic_id (merge_detection e m d (core sv')) = Some r).
  { rewrite Hbid.
    apply (carry_basic_id_keeps m (tracked_pairs (core sv')) _
             (queried_entry r p) r); auto.
    rewrite Htp. apply tracked_get_set_same. }
  split; [exact Hbid'|].
  pose proof (merge_detection_faa e m d (core sv')) as Hfaa.
  cbv zeta in Hfaa. rewrite Hfaa, Hbid'. unfold faa_cascade, cache_exact.
  rewrite Htr. simpl get_or. rewrite Hc, cache_get_set_same.
  destruct (faa_data d); reflexivity.
Qed.

Lemma query_faa_feeds_next_detection_witness :
  exists d',
    od_get String.eqb "AA"%string
      (tracked_pairs
         (fst (update_detection sample_env fix_AA
                 (core (fst (api_query_faa answer_one_item (Some "AA"%string)
                               (Some "R1"%string) server_empty))))))
    = Some d'
    /\ basic_id d' = Some "R1"%string
    /\ faa_data d' = Some (answer answer_one_item).
Proof.
  assert (H : api_query_faa answer_one_item (Some "AA"%string)
                (Some "R1"%string) server_empty
              = (fst (api_query_faa answer_one_item (Some "AA"%string)
                        (Some "R1"%string) server_empty),
                 QOk (answer answer_one_item))).
  { vm_compute. reflexivity. }
  apply (query_faa_feeds_next_detection answer_one_item "AA"%string
           "R1"%string server_empty _ _ sample_env fix_AA eq_refl H
           eq_refl eq_refl eq_refl).
Defined.

(** ** States a running server can be in *)

Lemma load_faa_cache_snoc :
  forall rows m r v,
    load_faa_cache (rows ++ [(m, r, v)])
    = od_set key_eqb (m, r) v (load_faa_cache rows).
Proof.
  intros rows m r v. unfold load_faa_cache. rewrite fold_left_app.
  reflexivity.
Qed.

Lemma update_detection_tracked :
  forall e d st m,
    mac d = Some m -> m <> ""%string ->
    tracked_pairs (fst (update_detection e d st))
    = od_set String.eqb m (stored_record e d st) (tracked_pairs st).
Proof.
  intros e d st m Hm Hne. unfold stored_record. rewrite Hm.
  destruct (valid_drone d) eqn:Hv.
  - rewrite (update_detection_gps e d st m Hm Hne Hv).
    apply (gps_update_memory e m d st).
  - rewrite (update_detection_no_gps e d st m Hm Hne Hv).
    apply (no_gps_update_memory e m d st).
Qed.

Lemma update_detection_NoDup :
  forall e d st,
    NoDup (map fst (tracked_pairs st)) ->
    NoDup (map fst (tracked_pairs (fst (update_detection e d st)))).
Proof.
  intros e d st Hnd.
  destruct (update_detection_cases e d st)
    as [[_ Heq] | [(m & Hm & Hne & _) | (m & Hm & Hne & _)]].
  - rewrite Heq. exact Hnd.
  - rewrite (update_detection_tracked e d st m Hm Hne).
    apply od_set_NoDup. exact Hnd.
  - rewrite (update_detection_tracked e d st m Hm Hne).
    apply od_set_NoDup. exact Hnd.
Qed.

Lemma gps_update_cache_file :
  forall e m d st,
    let d' := merge_detection e m d st in
    faa_cache_file (fst (gps_update e m d st))
    = match faa_data d' with
      | Some v =>
          faa_cache_file st ++ [(m, get_or (basic_id d') ""%string, v)]
      | None => faa_cache_file st
      end.
Proof.
  intros e m d st d'. unfold gps_update. fold d'.
  destruct (generate_cumulative_kml _) as [cdoc|];
    [destruct (generate_kml _) as [doc|]|];
    destruct (faa_data d') as [v|]; reflexivity.
Qed.

(** The cache in memory is the cache file read back. *)
Lemma update_detection_cache_file :
  forall e d st,
    FAA_CACHE st = load_faa_cache (faa_cache_file st) ->
    FAA_CACHE (fst (update_detection e d st))
    = load_faa_cache (faa_cache_file (fst (update_detection e d st))).
Proof.
  intros e d st Hinv.
  destruct (update_detection_cases e d st)
    as [[_ Heq] | [(m & _ & _ & _ & _ & _ & Heq)
                  | (m & _ & _ & _ & _ & _ & Heq)]];
    rewrite Heq.
  - exact Hinv.
  - destruct (no_gps_update_files e m d st) as (_ & Hc & Hf).
    rewrite Hc, Hf. destruct (str_truthy (basic_id d)); [|exact Hinv].
    rewrite load_faa_cache_snoc, Hinv. reflexivity.
  - destruct (gps_update_memory e m d st) as (_ & _ & Hc & _).
    rewrite Hc, gps_update_cache_file.
    destruct (faa_data (merge_detection e m d st)); [|exact Hinv].
    rewrite load_faa_cache_snoc, Hinv. reflexivity.
Qed.

Lemma update_detection_aliases :
  forall e d st, ALIASES (fst (update_detection e d st)) = ALIASES st.
Proof.
  intros e d st.
  destruct (update_detection_cases e d st)
    as [[_ Heq] | [(m & _ & _ & _ & _ & _ & Heq)
                  | (m & _ & _ & _ & _ & _ & Heq)]];
    rewrite Heq.
  - reflexivity.
  - apply (no_gps_update_files e m d st).
  - apply (gps_update_files e m d st).
Qed.

Lemma query_store_aliases_json :
  forall q m r p sv,
    aliases_json (fst (query_store q m r p sv)) = aliases_json sv.
Proof.
  intros q m r p sv. unfold query_store.
  destruct (generate_kml _); reflexivity.
Qed.

Lemma startup_memory :
  forall aliases cache_rows cumulative_rows,
    let sv := startup aliases cache_rows cumulative_rows in
    tracked_pairs (core sv) = []
    /\ detection_history (core sv) = []
    /\ FAA_CACHE (core sv) = load_faa_cache cache_rows
    /\ faa_cache_file (core sv) = cache_rows
    /\ ALIASES (core sv) = aliases
    /\ aliases_json sv = aliases
    /\ cumulative_csv (core sv) = cumulative_rows
    /\ session_csv (core sv) = [].
Proof.
  intros aliases cache_rows cumulative_rows sv. subst sv. unfold startup.
  destruct (generate_kml _) as [doc|];
    destruct (generate_cumulative_kml _) as [cdoc|];
    repeat split; reflexivity.
Qed.

Lemma update_detection_memory_inv :
  forall e d st,
    py_ne0 (time_time e) = true ->
    memory_inv st -> memory_inv (fst (update_detection e d st)).
Proof.
  intros e d st Hclock (Hnd & Hmac & Hst). unfold memory_inv.
  split; [apply update_detection_NoDup; exact Hnd|].
  rewrite <- recorded_with_mac_samples, <- positions_timed_samples in *.
  apply (update_detection_keeps_stamped e d st Hclock Hmac Hst).
Qed.

Lemma run_memory_inv :
  forall op sv,
    clock_runs op = true ->
    memory_inv (core sv) -> memory_inv (core (run op sv)).
Proof.
  intros op sv Hclock Hinv.
  destruct op as [e port fr | e d | q m r | now m | m a | m | url];
    cbn [run clock_runs] in *.
  - (* a serial frame *)
    unfold handle_frame.
    destruct (stitch_mac port (fr_detection fr) (last_mac_by_port sv))
      as [d1 last_mac].
    destruct (fr_heartbeat fr); [exact Hinv|].
    pose proof (update_detection_memory_inv e (normalize_remote_id fr d1)
                  (core sv) Hclock Hinv) as H.
    destruct (update_detection e (normalize_remote_id fr d1) (core sv))
      as [st' o]. exact H.
  - (* POST /api/detections *)
    apply (update_detection_memory_inv e d (core sv) Hclock Hinv).
  - (* POST /api/query_faa *)
    destruct (api_query_faa_cases q m r sv)
      as [[_ Heq] | (m0 & r0 & _ & _ & _ & _ & Heq)]; rewrite Heq.
    + exact Hinv.
    + destruct (query_result q m0 (FAA_CACHE (core sv))) as [p|];
        [|exact Hinv].
      destruct Hinv as (Hnd & Hmac & Hst).
      assert (Hstore : memory_inv (core (fst (query_store q m0 r0 p sv)))).
      { destruct (query_store_spec q m0 r0 p sv) as (_ & Ht & Hh & _).
        unfold memory_inv. rewrite Ht, Hh.
        split; [apply od_set_NoDup; exact Hnd|]. auto. }
      destruct p; try exact Hstore.
      unfold memory_inv. cbn [fst core]. auto.
  - (* POST /api/reactivate *)
    unfold reactivate.
    destruct (od_get String.eqb m (tracked_pairs (core sv))) as [det|];
      [|exact Hinv].
    destruct Hinv as (Hnd & Hmac & Hst).
    unfold memory_inv. cbn [fst core set_core].
    cbn [set_memory tracked_pairs detection_history].
    split; [apply od_set_NoDup; exact Hnd|]. auto.
  - (* POST /api/set_alias *)
    unfold api_set_alias. destruct (str_truthy m); exact Hinv.
  - (* POST /api/clear_alias *)
    unfold api_clear_alias.
    destruct (od_get String.eqb m (ALIASES (core sv))); exact Hinv.
  - (* set_server_webhook_url *)
    exact Hinv.
Qed.

Lemma run_files_inv :
  forall op sv, files_inv sv -> files_inv (run op sv).
Proof.
  intros op sv Hinv.
  destruct op as [e port fr | e d | q m r | now m | m a | m | url];
    cbn [run] in *.
  - (* a serial frame *)
    unfold handle_frame.
    destruct (stitch_mac port (fr_detection fr) (last_mac_by_port sv))
      as [d1 last_mac].
    destruct (fr_heartbeat fr); [exact Hinv|].
    destruct Hinv as (Hc & Ha).
    pose proof (update_detection_cache_file e (normalize_remote_id fr d1)
                  (core sv) Hc) as H1.
    pose proof (update_detection_aliases e (normalize_remote_id fr d1)
                  (core sv)) as H2.
    destruct (update_detection e (normalize_remote_id fr d1) (core sv))
      as [st' o].
    unfold files_inv. cbn [fst core set_core aliases_json] in *.
    rewrite H2. auto.
  - (* POST /api/detections *)
    destruct Hinv as (Hc & Ha).
    unfold files_inv. cbn [core set_core aliases_json].
    rewrite update_detection_aliases.
    split; [apply update_detection_cache_file; exact Hc | exact Ha].
  - (* POST /api/query_faa *)
    destruct (api_query_faa_cases q m r sv)
      as [[_ Heq] | (m0 & r0 & _ & _ & _ & _ & Heq)]; rewrite Heq.
    + exact Hinv.
    + destruct (query_result q m0 (FAA_CACHE (core sv))) as [p|];
        [|exact Hinv].
      destruct Hinv as (Hc & Ha).
      assert (Hstore : files_inv (fst (query_store q m0 r0 p sv))).
      { destruct (query_store_spec q m0 r0 p sv)
          as (_ & _ & _ & Hcache & Hfile & Hal & _).
        unfold files_inv.
        rewrite Hcache, Hfile, Hal, query_store_aliases_json.
        split; [|exact Ha].
        rewrite load_faa_cache_snoc, Hc. reflexivity. }
      destruct p; try exact Hstore.
      unfold files_inv. cbn [fst core aliases_json]. auto.
  - (* POST /api/reactivate *)
    unfold reactivate.
    destruct (od_get String.eqb m (tracked_pairs (core sv))) as [det|];
      exact Hinv.
  - (* POST /api/set_alias *)
    unfold api_set_alias. destruct (str_truthy m); [|exact Hinv].
    destruct Hinv as (Hc & Ha). unfold files_inv. cbn. auto.
  - (* POST /api/clear_alias *)
    unfold api_clear_alias.
    destruct (od_get String.eqb m (ALIASES (core sv))); [|exact Hinv].
    destruct Hinv as (Hc & Ha). unfold files_inv. cbn. auto.
  - (* set_server_webhook_url *)
    exact Hinv.
Qed.

Lemma run_all_memory_inv :
  forall ops sv,
    forallb clock_runs ops = true -> memory_inv (core sv) ->
    memory_inv (core (run_all ops sv)).
Proof.
  induction ops as [|op t IH]; intros sv Hc Hinv; [exact Hinv|].
  simpl in Hc. apply andb_true_iff in Hc. destruct Hc as [H1 H2].
  unfold run_all. simpl. apply (IH (run op sv) H2).
  apply run_memory_inv; assumption.
Qed.

Lemma run_all_files_inv :
  forall ops sv, files_inv sv -> files_inv (run_all ops sv).
Proof.
  induction ops as [|op t IH]; intros sv Hinv; [exact Hinv|].
  unfold run_all. simpl. apply (IH (run op sv)).
  apply run_files_inv. exact Hinv.
Qed.

Lemma startup_memory_inv :
  forall aliases cache_rows cumulative_rows,
    memory_inv (core (startup aliases cache_rows cumulative_rows)).
Proof.
  intros a c r.
  destruct (startup_memory a c r) as (Ht & Hh & _).
  unfold memory_inv. rewrite Ht, Hh. repeat split. constructor.
Qed.

Lemma startup_files_inv :
  forall aliases cache_rows cumulative_rows,
    files_inv (startup aliases cache_rows cumulative_rows).
Proof.
  intros a c r.
  destruct (startup_memory a c r) as (_ & _ & Hc & Hf & Ha & Hj & _).
  unfold files_inv. rewrite Hc, Hf, Ha, Hj. split; reflexivity.
Qed.

(** X14: the flights of the session KML on every state a server can be
    in.  From startup, after any sequence of serial frames, posted
    detections, registry queries, reactivations, alias changes and
    webhook settings, under a clock that does not read 0 when a detection
    is stored: the live entries have distinct macs, and whenever
    [generate_kml] returns, the flights of every mac in its document are
    numbered 1, 2, ... and cut the valid-position points of the mac, in
    history order, exactly at the steps over [staleThreshold]. *)
Theorem reachable_session_kml_is_segmented :
  forall aliases cache_rows cumulative_rows ops,
    forallb clock_runs ops = true ->
    let st := core (run_all ops (startup aliases cache_rows cumulative_rows)) in
    NoDup (map fst (tracked_pairs st))
    /\ forall doc m,
         generate_kml st = Some doc ->
         segmented staleThreshold (history_points m (detection_history st))
           (map f_points (folders_of m doc))
         /\ map f_idx (folders_of m doc)
            = seq 1 (List.length (folders_of m doc)).
Proof.
  intros a c r ops Hclock st.
  destruct (run_all_memory_inv ops (startup a c r) Hclock
              (startup_memory_inv a c r)) as (Hnd & _ & Hst).
  fold st in Hnd, Hst. split; [exact Hnd|].
  intros doc m Hdoc. rewrite <- history_points_flight_points.
  rewrite <- positions_timed_samples in Hst.
  apply (kml_document_returned_segmented py_ne0 staleThreshold (ALIASES st)
           _ doc Hst Hdoc m).
Qed.

Lemma reachable_session_kml_is_segmented_witness :
  let st :=
    core (run_all [OpFrame sample_env "p0"%string frame_AA;
                   OpPostDetection sample_env nofix_pilot_BB]
            (startup [] [] [])) in
  NoDup (map fst (tracked_pairs st))
  /\ map fst (tracked_pairs st) = ["AA"%string; "BB"%string].
Proof.
  destruct (reachable_session_kml_is_segmented [] [] []
              [OpFrame sample_env "p0"%string frame_AA;
               OpPostDetection sample_env nofix_pilot_BB] eq_refl)
    as [Hnd _].
  split; [exact Hnd | vm_compute; reflexivity].
Defined.

(** X15: what a restart finds.  After any sequence of operations the
    cache in memory is the cache file read back row by row and the alias
    file holds the aliases in memory; so a server started on the files
    that a run left has the cache and the aliases of that run, and
    nothing tracked. *)
Theorem restart_restores_cache_and_aliases :
  forall aliases cache_rows cumulative_rows ops,
    let sv := run_all ops (startup aliases cache_rows cumulative_rows) in
    let sv' :=
      startup (aliases_json sv) (faa_cache_file (core sv))
        (cumulative_csv (core sv)) in
    FAA_CACHE (core sv') = FAA_CACHE (core sv)
    /\ ALIASES (core sv') = ALIASES (core sv)
    /\ tracked_pairs (core sv') = []
    /\ detection_history (core sv') = [].
Proof.
  intros a c r ops sv sv'.
  destruct (run_all_files_inv ops (startup a c r) (startup_files_inv a c r))
    as (Hc & Ha).
  fold sv in Hc, Ha.
  destruct (startup_memory (aliases_json sv) (faa_cache_file (core sv))
              (cumulative_csv (core sv)))
    as (Ht & Hh & Hc' & _ & Ha' & _).
  fold sv' in Ht, Hh, Hc', Ha'.
  rewrite Hc', Ha', Hc, Ha. repeat split; assumption.
Qed.

Lemma restart_restores_cache_and_aliases_witness :
  let sv :=
    run_all [OpPostDetection sample_env fix_AA_own;
             OpSetAlias (Some "AA"%string) "Kite"%string]
      (startup [] [] []) in
  FAA_CACHE (core (startup (aliases_json sv) (faa_cache_file (core sv))
                     (cumulative_csv (core sv))))
  = [(("AA"%string, ""%string), faa_X)]
  /\ ALIASES (core (startup (aliases_json sv) (faa_cache_file (core sv))
                      (cumulative_csv (core sv))))
     = [("AA"%string, "Kite"%string)].
Proof.
  intro sv.
  destruct (restart_restores_cache_and_aliases [] [] []
              [OpPostDetection sample_env fix_AA_own;
               OpSetAlias (Some "AA"%string) "Kite"%string])
    as (Hc & Ha & _).
  fold sv in Hc, Ha. rewrite Hc, Ha.
  split; vm_compute; reflexivity.
Defined.

(** ** Lines of a serial port *)

Lemma string_key_spec : forall a b : string, (a =? b)%string = true <-> a = b.
Proof. intros a b. apply String.eqb_eq. Qed.

Lemma normalize_remote_id_mac :
  forall fr d, mac (normalize_remote_id fr d) = mac d.
Proof.
  intros fr d. unfold normalize_remote_id.
  destruct (fr_remote_id fr); [|reflexivity].
  destruct (basic_id d); reflexivity.
Qed.

Lemma handle_frame_last_mac :
  forall e port fr sv m,
    mac (fr_detection fr) = Some m ->
    od_get String.eqb port (last_mac_by_port (fst (handle_frame e port fr sv)))
    = Some m.
Proof.
  intros e port fr sv m Hm. unfold handle_frame, stitch_mac. rewrite Hm.
  destruct (fr_heartbeat fr).
  - cbn [fst last_mac_by_port].
    apply od_get_set_same. apply string_key_spec.
  - destruct (update_detection e _ (core sv)) as [st' o].
    cbn [fst set_core last_mac_by_port].
    apply od_get_set_same. apply string_key_spec.
Qed.

(** X16: one serial port, two lines.  A line that carries a mac makes it
    the mac of the port, also when the line is a heartbeat, which is
    stored nowhere; a later line of that port without a mac (and no
    heartbeat) is then handled as a detection of that mac, with the
    legacy field [remote_id] as its remote id when it has no [basic_id]:
    the live entry of the mac becomes its stored record.  A line without
    a mac on a port that has seen none is dropped. *)
Theorem frame_without_mac_follows_the_port :
  forall e1 e2 port fr1 fr2 sv m,
    mac (fr_detection fr1) = Some m -> m <> ""%string ->
    mac (fr_detection fr2) = None ->
    fr_heartbeat fr2 = false ->
    let sv1 := fst (handle_frame e1 port fr1 sv) in
    let sv2 := fst (handle_frame e2 port fr2 sv1) in
    let d2 := normalize_remote_id fr2 (set_mac m (fr_detection fr2)) in
    od_get String.eqb port (last_mac_by_port sv1) = Some m
    /\ (fr_heartbeat fr1 = true -> core sv1 = core sv)
    /\ mac d2 = Some m
    /\ basic_id d2
       = match basic_id (fr_detection fr2) with
         | Some b => Some b
         | None => fr_remote_id fr2
         end
    /\ core sv2 = fst (update_detection e2 d2 (core sv1))
    /\ od_get String.eqb m (tracked_pairs (core sv2))
       = Some (stored_record e2 d2 (core sv1))
    /\ (forall e sv0 fr0,
          od_get String.eqb port (last_mac_by_port sv0) = None ->
          mac (fr_detection fr0) = None ->
          core (fst (handle_frame e port fr0 sv0)) = core sv0).
Proof.
  intros e1 e2 port fr1 fr2 sv m Hm Hne Hm2 Hhb sv1 sv2 d2.
  assert (Hport : od_get String.eqb port (last_mac_by_port sv1) = Some m).
  { apply handle_frame_last_mac. exact Hm. }
  assert (Hmac2 : mac d2 = Some m).
  { subst d2. rewrite normalize_remote_id_mac. reflexivity. }
  assert (Hcore : core sv2 = fst (update_detection e2 d2 (core sv1))).
  { subst sv2. unfold handle_frame, stitch_mac.
    rewrite Hm2, Hport, Hhb. fold d2.
    destruct (update_detection e2 d2 (core sv1)) as [st' o]. reflexivity. }
  split; [exact Hport|]. split.
  { intro Hb. subst sv1. unfold handle_frame.
    destruct (stitch_mac port (fr_detection fr1) (last_mac_by_port sv))
      as [d1 l].
    rewrite Hb. reflexivity. }
  split; [exact Hmac2|]. split.
  { subst d2. unfold normalize_remote_id.
    destruct (fr_detection fr2) as [? ? ? ? ? ? ? b ? ? ?]. cbn.
    destruct (fr_remote_id fr2) as [r|]; destruct b; reflexivity. }
  split; [exact Hcore|]. split.
  { rewrite Hcore, (update_detection_tracked e2 d2 (core sv1) m Hmac2 Hne).
    apply tracked_get_set_same. }
  intros e sv0 fr0 Hnone Hno. unfold handle_frame, stitch_mac.
  rewrite Hno, Hnone.
  destruct (fr_heartbeat fr0); [reflexivity|].
  assert (Hd : mac (normalize_remote_id fr0 (fr_detection fr0)) = None).
  { rewrite normalize_remote_id_mac. exact Hno. }
  rewrite (update_detection_without_mac_dropped e _ (core sv0)
             (or_introl Hd)).
  reflexivity.
Qed.

Lemma frame_without_mac_follows_the_port_witness :
  option_map basic_id
    (od_get String.eqb "BB"%string
       (tracked_pairs
          (core
             (run_all [OpFrame sample_env "p0"%string heartbeat_BB;
                       OpFrame sample_env "p0"%string frame_without_mac]
                server_empty))))
  = Some (Some "R9"%string).
Proof.
  assert (Hne : "BB"%string <> ""%string) by discriminate.
  destruct (frame_without_mac_follows_the_port sample_env sample_env
              "p0"%string heartbeat_BB frame_without_mac server_empty
              "BB"%string eq_refl Hne eq_refl eq_refl)
    as (_ & _ & _ & _ & _ & Hget & _).
  unfold run_all. cbn [fold_left run].
  rewrite Hget. vm_compute. reflexivity.
Defined.

(** ** Aliases *)

(** X17: an alias set for a mac labels what is written for that mac
    afterwards.  [POST /api/set_alias] with a mac answers 200 and leaves
    the alias file equal to the aliases in memory; the next detection of
    the mac then adds one row with that alias to the session CSV and one
    to the cumulative CSV, and every flight of the mac in the session KML
    (whenever it is generated) and in the cumulative KML file carries the
    alias. *)
Theorem alias_labels_rows_and_flights :
  forall a e d sv m,
    mac d = Some m -> m <> ""%string ->
    let sv1 := fst (api_set_alias (Some m) a sv) in
    let st2 := fst (update_detection e d (core sv1)) in
    snd (api_set_alias (Some m) a sv) = R200
    /\ aliases_json sv1 = ALIASES (core sv1)
    /\ od_get String.eqb m (ALIASES (core sv1)) = Some a
    /\ (exists row,
          session_csv st2 = session_csv (core sv) ++ [row]
          /\ c_alias row = a /\ c_mac row = m)
    /\ (exists row,
          cumulative_csv st2 = cumulative_csv (core sv) ++ [row]
          /\ c_alias row = a /\ c_mac row = m)
    /\ (forall doc f,
          generate_kml st2 = Some doc -> In f doc -> f_mac f = m ->
          f_alias f = a)
    /\ (forall f,
          In f (cumulative_kml st2) -> f_mac f = m -> f_alias f = a).
Proof.
  intros a e d sv m Hm Hne sv1 st2.
  assert (Htr : str_truthy (Some m) = true).
  { simpl. apply String.eqb_neq in Hne. rewrite Hne. reflexivity. }
  assert (Hsv1 : sv1
                 = save_aliases
                     (set_core
                        (set_aliases
                           (od_set String.eqb m a (ALIASES (core sv)))
                           (core sv)) sv)).
  { subst sv1. unfold api_set_alias. rewrite Htr. reflexivity. }
  assert (Hal : ALIASES (core sv1)
                = od_set String.eqb m a (ALIASES (core sv))).
  { rewrite Hsv1. reflexivity. }
  assert (Hget : od_get String.eqb m (ALIASES (core sv1)) = Some a).
  { rewrite Hal. apply od_get_set_same. apply string_key_spec. }
  assert (Hal2 : ALIASES st2 = ALIASES (core sv1)).
  { apply update_detection_aliases. }
  assert (Hrows :
            session_csv st2
            = session_csv (core sv1)
                ++ [detection_row (now_session e) (ALIASES (core sv1)) m
                      (Some (get_or (drone_lat d) 0))
                      (Some (get_or (drone_long d) 0))
                      (stored_record e d (core sv1))]
            /\ cumulative_csv st2
               = cumulative_csv (core sv1)
                   ++ [detection_row (now_cumulative e) (ALIASES (core sv1)) m
                         (Some (get_or (drone_lat d) 0))
                         (Some (get_or (drone_long d) 0))
                         (stored_record e d (core sv1))]).
  { subst st2. unfold stored_record. rewrite Hm.
    destruct (valid_drone d) eqn:Hv.
    - rewrite (update_detection_gps e d (core sv1) m Hm Hne Hv).
      destruct (gps_update_files e m d (core sv1)) as (H1 & H2 & _).
      destruct (merge_detection_fields e m d (core sv1))
        as (_ & _ & Hla & Hlo & _).
      rewrite H1, H2, Hla, Hlo. split; reflexivity.
    - rewrite (update_detection_no_gps e d (core sv1) m Hm Hne Hv).
      destruct (no_gps_update_world e m d (core sv1)) as (_ & _ & H1 & H2).
      rewrite H1, H2. split; reflexivity. }
  destruct Hrows as [Hs Hc].
  assert (Hfolder : forall T thr hist doc f,
             kml_document T thr (ALIASES st2) hist = Some doc ->
             In f doc -> f_mac f = m -> f_alias f = a).
  { intros T thr hist doc f Hdoc Hin Hfm.
    destruct (kml_document_folder T thr (ALIASES st2) hist doc f Hdoc Hin)
      as (_ & _ & _ & _ & Hfa & _).
    rewrite Hfa, Hfm, Hal2. rewrite Hget. reflexivity. }
  split; [subst sv1; unfold api_set_alias; rewrite Htr; reflexivity|].
  split; [rewrite Hsv1; reflexivity|].
  split; [exact Hget|].
  split.
  { exists (detection_row (now_session e) (ALIASES (core sv1)) m
              (Some (get_or (drone_lat d) 0))
              (Some (get_or (drone_long d) 0))
              (stored_record e d (core sv1))).
    split; [rewrite Hs; f_equal; rewrite Hsv1; reflexivity|].
    unfold detection_row. cbn [c_alias c_mac]. rewrite Hget.
    split; reflexivity. }
  split.
  { exists (detection_row (now_cumulative e) (ALIASES (core sv1)) m
              (Some (get_or (drone_lat d) 0))
              (Some (get_or (drone_long d) 0))
              (stored_record e d (core sv1))).
    split; [rewrite Hc; f_equal; rewrite Hsv1; reflexivity|].
    unfold detection_row. cbn [c_alias c_mac]. rewrite Hget.
    split; reflexivity. }
  split.
  { intros doc f Hdoc. apply (Hfolder _ _ _ doc f Hdoc). }
  intros f.
  assert (Htrd : str_truthy (mac d) = true) by (rewrite Hm; exact Htr).
  destruct (update_detection_kml e d (core sv1) Htrd) as (_ & _ & Hcum).
  fold st2 in Hcum. apply (Hfolder _ _ _ _ f Hcum).
Qed.

Lemma alias_labels_rows_and_flights_witness :
  map c_alias
    (session_csv
       (fst (update_detection sample_env fix_AA
               (core (fst (api_set_alias (Some "AA"%string) "Kite"%string
                             server_empty))))))
  = ["Kite"%string]
  /\ map f_alias
       (cumulative_kml
          (fst (update_detection sample_env fix_AA
                  (core (fst (api_set_alias (Some "AA"%string) "Kite"%string
                                server_empty))))))
     = ["Kite"%string].
Proof.
  assert (Hne : "AA"%string <> ""%string) by discriminate.
  destruct (alias_labels_rows_and_flights "Kite"%string sample_env fix_AA
              server_empty "AA"%string eq_refl Hne)
    as (_ & _ & _ & (row & Hrow & Ha & _) & _).
  split; [|vm_compute; reflexivity].
  rewrite Hrow. simpl. rewrite Ha. reflexivity.
Defined.

(** ** POST /api/reactivate/<mac> *)

(** X18: reactivation touches one timestamp.  For an unknown mac the
    handler answers 404 and changes nothing.  For a tracked mac it
    answers 200 and gives the live entry the server time as
    [last_update], nothing else: the other live entries, the history and
    with it the session KML and the paths, the cache and the files are
    what they were. *)
Theorem reactivate_touches_one_timestamp :
  forall now m st,
    let st' := fst (reactivate now m st) in
    (od_get String.eqb m (tracked_pairs st) = None ->
     reactivate now m st = (st, R404))
    /\ (forall det,
          od_get String.eqb m (tracked_pairs st) = Some det ->
          snd (reactivate now m st) = R200
          /\ od_get String.eqb m (tracked_pairs st')
             = Some (set_last_update now det)
          /\ last_update (set_last_update now det) = Some now
          /\ basic_id (set_last_update now det) = basic_id det
          /\ faa_data (set_last_update now det) = faa_data det)
    /\ (forall m', m' <> m ->
          od_get String.eqb m' (tracked_pairs st')
          = od_get String.eqb m' (tracked_pairs st))
    /\ detection_history st' = detection_history st
    /\ generate_kml st' = generate_kml st
    /\ api_paths st' = api_paths st
    /\ FAA_CACHE st' = FAA_CACHE st
    /\ session_csv st' = session_csv st
    /\ cumulative_csv st' = cumulative_csv st
    /\ network st' = network st.
Proof.
  intros now m st st'. subst st'. unfold reactivate.
  destruct (od_get String.eqb m (tracked_pairs st)) as [det|] eqn:E.
  - cbn [fst snd]. split; [discriminate|]. split.
    { intros det' [= <-]. split; [reflexivity|].
      split; [apply tracked_get_set_same|]. repeat split. }
    split.
    { intros m' Hne. cbn [set_memory tracked_pairs].
      apply tracked_get_set_other. exact Hne. }
    repeat split.
  - cbn [fst snd]. split; [reflexivity|]. split; [discriminate|].
    repeat split.
Qed.

Lemma reactivate_touches_one_timestamp_witness :
  option_map last_update
    (od_get String.eqb "AA"%string
       (tracked_pairs (fst (reactivate 5000 "AA"%string state_AA))))
  = Some (Some 5000)
  /\ detection_history (fst (reactivate 5000 "AA"%string state_AA))
     = detection_history state_AA.
Proof.
  destruct (reactivate_touches_one_timestamp 5000 "AA"%string state_AA)
    as (_ & Hknown & _ & Hh & _).
  destruct (Hknown tracked_AA eq_refl) as (_ & Hget & _).
  rewrite Hget. split; [reflexivity | exact Hh].
Defined.

(** ** The text of a serial line *)

Lemma from_brace_split :
  forall line,
    has_brace line = true ->
    exists prefix rest,
      line = (prefix ++ from_brace line)%string
      /\ has_brace prefix = false
      /\ from_brace line = String "{"%char rest.
Proof.
  induction line as [|c t IH]; simpl; [discriminate|].
  destruct (Ascii.eqb c "{"%char) eqn:E.
  - intros _. apply Ascii.eqb_eq in E. subst c.
    exists EmptyString, t. repeat split.
  - simpl. intro H. destruct (IH H) as (prefix & rest & Hl & Hp & Hf).
    exists (String c prefix), rest. simpl. rewrite E, Hp.
    split; [rewrite <- Hl; reflexivity|]. split; [reflexivity | exact Hf].
Qed.

(** X19: what of a serial line is parsed.  A line without an opening
    brace is parsed whole; in a line with one, what precedes the first
    opening brace is dropped and the rest, brace included, is parsed. *)
Theorem json_str_starts_at_first_brace :
  forall line,
    (has_brace line = false -> json_str line = line)
    /\ (has_brace line = true ->
        exists prefix rest,
          line = (prefix ++ json_str line)%string
          /\ has_brace prefix = false
          /\ json_str line = String "{"%char rest).
Proof.
  intro line. unfold json_str. split; intro H; rewrite H.
  - reflexivity.
  - apply from_brace_split. exact H.
Qed.

Lemma json_str_starts_at_first_brace_witness :
  json_str "RX: {}"%string = "{}"%string
  /\ json_str "no json here"%string = "no json here"%string.
Proof.
  destruct (json_str_starts_at_first_brace "no json here"%string) as [Hno _].
  split; [reflexivity | apply Hno; reflexivity].
Defined.
